(** * ios-extract: the resolution layer of [ios-extract.py], embedded in Rocq

    The development follows the script top-down:
    - Python values, exceptions and the state-and-exception monad the
      script runs in;
    - [posixpath] and the part of the file system the script touches;
    - [make_temporary_copy], [IOSBackup], [IOSBackupFile];
    - [parse_phone_number] over the [phonenumbers] library, which is taken
      as an interface;
    - the contact classification of [backup_contacts];
    - [backup_messages] and the scan loop at the bottom of the script;
    - [IOSBackup.files] and [IOSBackupApplication], and the people and the
      contact table of [backup_contacts].

    Python strings are modelled as [string]: a character is a code point
    below 256.  Calls to [logging] are not modelled. *)

From Stdlib Require Import ZArith String Ascii List Lia Bool.
From stdpp Require Import base option gmap strings pretty list fin_maps.

Local Open Scope string_scope.
Local Open Scope Z_scope.

(** ** Python strings *)

Module PyStr.

Definition sep : ascii := "/"%char.

Definition eqc (a b : ascii) : bool := Ascii.eqb a b.

(** [c in s] for a one-character [c]. *)
Fixpoint contains (c : ascii) (s : string) : bool :=
  match s with
  | EmptyString => false
  | String d r => eqc c d || contains c r
  end.

(** [s.startswith(c)], [s.endswith(c)] for a one-character [c]. *)
Definition startswith (c : ascii) (s : string) : bool :=
  match s with
  | EmptyString => false
  | String d _ => eqc c d
  end.

Fixpoint endswith (c : ascii) (s : string) : bool :=
  match s with
  | EmptyString => false
  | String d EmptyString => eqc c d
  | String _ r => endswith c r
  end.

(** [bool(s)]: a string is true when it is not empty. *)
Definition truthy (s : string) : bool :=
  match s with
  | EmptyString => false
  | String _ _ => true
  end.

(** [s[:2]]. *)
Definition first2 (s : string) : string :=
  match s with
  | String a (String b _) => String a (String b EmptyString)
  | _ => s
  end.

(** [c.isdigit()] on code points below 256: the ten ASCII digits and the
    superscripts two, three and one of Latin-1. *)
Definition isdigit_char (c : ascii) : bool :=
  let n := nat_of_ascii c in
  ((48 <=? n) && (n <=? 57) || (n =? 178) || (n =? 179) || (n =? 185))%nat.

Fixpoint all_digits (s : string) : bool :=
  match s with
  | EmptyString => true
  | String c r => isdigit_char c && all_digits r
  end.

(** [s.isdigit()]: false on the empty string. *)
Definition isdigit (s : string) : bool := truthy s && all_digits s.

(** [len(s)]. *)
Definition len (s : string) : Z := Z.of_nat (String.length s).

(** [s.rstrip("/")]. *)
Fixpoint rstrip_sep (s : string) : string :=
  match s with
  | EmptyString => EmptyString
  | String c r =>
      match rstrip_sep r with
      | EmptyString => if eqc c sep then EmptyString else String c EmptyString
      | r' => String c r'
      end
  end.

Fixpoint all_sep (s : string) : bool :=
  match s with
  | EmptyString => true
  | String c r => eqc c sep && all_sep r
  end.

(** [s[:s.rfind("/") + 1]]. *)
Fixpoint upto_last_sep (s : string) : string :=
  match s with
  | EmptyString => EmptyString
  | String c r =>
      if contains sep r then String c (upto_last_sep r)
      else if eqc c sep then String c EmptyString
      else EmptyString
  end.

End PyStr.

(** ** [posixpath] *)

Module PosixPath.
Import PyStr.

(** One round of the loop of [posixpath.join]. *)
Definition join_step (path b : string) : string :=
  if startswith sep b || negb (truthy path) then b
  else if endswith sep path then path +:+ b
  else path +:+ "/" +:+ b.

(** [os.path.join(a, *p)]. *)
Definition join (a : string) (p : list string) : string :=
  fold_left join_step p a.

(** [os.path.dirname(p)]. *)
Definition dirname (p : string) : string :=
  let head := upto_last_sep p in
  if truthy head && negb (all_sep head) then rstrip_sep head else head.

End PosixPath.

(** ** Exceptions and results *)

Inductive exn : Type :=
| InvalidBackupException (msg : string)
| ApplicationNotFoundException (msg : string)
| FileNotFoundException (msg : string)
| ContactsNotDefinedException (msg : string)
| KeyError (key : Z)                  (* a dict subscript that misses *)
| OSError (path : string)             (* raised by open, os and shutil *)
| InvalidFileException                (* raised by plistlib *)
| DatabaseError (path : string)       (* raised by sqlite3 *)
| NumberParseException.               (* raised by phonenumbers *)

Inductive result (A : Type) : Type :=
| Ok (a : A)
| Raise (e : exn).
Arguments Ok {A} a.
Arguments Raise {A} e.

Definition rbind {A B} (r : result A) (k : A -> result B) : result B :=
  match r with
  | Ok a => k a
  | Raise e => Raise e
  end.

(** [try: body except E: handler], where [handler e] is [None] on the
    exceptions the clause does not name. *)
Definition rtry {A} (body : result A) (handler : exn -> option (result A))
  : result A :=
  match body with
  | Ok a => Ok a
  | Raise e => match handler e with
               | Some r => r
               | None => Raise e
               end
  end.

Declare Scope result_scope.
Delimit Scope result_scope with result.
Notation "'let?' x := c 'in' k" := (rbind c (fun x => k))
  (at level 10, x pattern, c at level 100, k at level 200) : result_scope.

(** ** Python dicts keyed by row id

    A dict keeps insertion order, which [dict.values()] exposes, so a dict
    is an association list; a key occurs once. *)

Module PyDict.

Definition t (V : Type) : Type := list (Z * V).

Fixpoint get {V} (k : Z) (d : t V) : option V :=
  match d with
  | [] => None
  | (k', v) :: r => if Z.eqb k k' then Some v else get k r
  end.

(** [k in d]. *)
Definition mem {V} (k : Z) (d : t V) : bool :=
  match get k d with
  | Some _ => true
  | None => false
  end.

(** [d[k]]. *)
Definition getitem {V} (k : Z) (d : t V) : result V :=
  match get k d with
  | Some v => Ok v
  | None => Raise (KeyError k)
  end.

(** [d[k] = v]: an existing key keeps its position. *)
Fixpoint set {V} (k : Z) (v : V) (d : t V) : t V :=
  match d with
  | [] => [(k, v)]
  | (k', v') :: r => if Z.eqb k k' then (k, v) :: r else (k', v') :: set k v r
  end.

(** The object stored under [k] is mutated in place. *)
Fixpoint alter {V} (f : V -> V) (k : Z) (d : t V) : t V :=
  match d with
  | [] => []
  | (k', v) :: r => if Z.eqb k k' then (k', f v) :: r else (k', v) :: alter f k r
  end.

(** [list(d.values())]. *)
Definition values {V} (d : t V) : list V := map snd d.

(** [{row[by]: row for row in result}]. *)
Definition by_key {V} (key : V -> Z) (rows : list V) : t V :=
  fold_left (fun d row => set (key row) row d) rows [].

End PyDict.

(** ** Rows and records *)

(** A row of the [Files] table of [Manifest.db]. *)
Record file_row : Type := {
  row_fileID : string;
  row_domain : string;
  row_relativePath : string;
  row_flags : Z;
  row_file : string
}.

(** Rows of [sms.db], with the column names the queries give them. *)
Record chat_row : Type := { chat_id : Z; chat_guid : string }.

Record handle_row : Type := {
  handle_id : Z;
  handle_contact : option string;
  handle_country : option string;
  handle_service : option string
}.

Record message_row : Type := {
  message_id : Z;
  message_guid : string;
  message_date : Z;
  message_handle_id : Z;
  message_text : option string;
  message_reply_to_guid : option string
}.

Record attachment : Type := {
  attachment_id : Z;
  attachment_guid : string;
  attachment_date : Z;
  attachment_filename : option string;
  attachment_uti : option string;
  attachment_mime_type : option string;
  attachment_transfer_name : option string;
  attachment_total_bytes : Z
}.

Record sms_db : Type := {
  t_chat : list chat_row;
  t_handle : list handle_row;
  t_chat_handle_join : list (Z * Z);          (* chat_id, handle_id *)
  t_message : list message_row;
  t_chat_message_join : list (Z * Z);         (* chat_id, message_id *)
  t_attachment : list attachment;
  t_message_attachment_join : list (Z * Z)    (* message_id, attachment_id *)
}.

(** The dicts the pipeline grows out of the rows: the keys it adds are
    options, [None] while the key is absent. *)
Record handle : Type := {
  handle_cols : handle_row;
  handle_uuid : option string;
  handle_name : option string
}.

Record message : Type := {
  message_cols : message_row;
  sender_uuid : option string;
  sender_name : option string;
  attachments : option (list attachment)
}.

(** A chat holds its members and messages by reference: the handle and
    message objects live in their own dicts and are shared. *)
Record chat : Type := {
  chat_cols : chat_row;
  members : option (list Z);
  messages : option (list Z)
}.

(** What [json.dump] sees when a chat is written: the references followed. *)
Record chat_json : Type := {
  cj_cols : chat_row;
  cj_members : option (list handle);
  cj_messages : option (list message)
}.

Inductive json : Type :=
| JChats (cs : list chat_json)
| JMessages (ms : list message).

(** A value of [Info.plist]: a string, or a value of another type kept as
    what [str] renders it to. *)
Inductive pvalue : Type :=
| PString (s : string)
| POpaque (rendered : string).

(** [f"{v}"]. *)
Definition py_str (v : option pvalue) : string :=
  match v with
  | None => "None"
  | Some (PString s) => s
  | Some (POpaque r) => r
  end.

(** ** The world: file system, effects, the global table *)

(** A file is known by what its readers make of it. *)
Inductive content : Type :=
| CPlist (p : gmap string pvalue)      (* plistlib.load succeeds *)
| CManifest (rows : list file_row)     (* an SQLite file with a Files table *)
| CSms (db : sms_db)                   (* an SQLite file with the sms tables *)
| CRaw (bytes : string).               (* anything else *)

Inductive node : Type :=
| File (c : content)
| Dir.

Record world : Type := {
  fs : gmap string node;                        (* paths, compared as strings *)
  copies : list (string * string);              (* shutil.copy2 calls done *)
  written : list (string * json);               (* to_json calls done *)
  CONTACTS_LOOKUP : gmap string (string * string)
}.

Definition M (A : Type) : Type := world -> result A * world.

Definition ret {A} (a : A) : M A := fun w => (Ok a, w).
Definition raise {A} (e : exn) : M A := fun w => (Raise e, w).
Definition lift {A} (r : result A) : M A := fun w => (r, w).

Definition bind {A B} (c : M A) (k : A -> M B) : M B :=
  fun w => match c w with
           | (Ok a, w') => k a w'
           | (Raise e, w') => (Raise e, w')
           end.

(** [try: body except E: handler]; the effects of [body] stay. *)
Definition try {A} (body : M A) (handler : exn -> option (M A)) : M A :=
  fun w => match body w with
           | (Ok a, w') => (Ok a, w')
           | (Raise e, w') => match handler e with
                              | Some h => h w'
                              | None => (Raise e, w')
                              end
           end.

Declare Scope io_scope.
Delimit Scope io_scope with io.
Notation "'let*' x := c 'in' k" := (bind c (fun x => k))
  (at level 10, x pattern, c at level 100, k at level 200) : io_scope.
Notation "c ;;; k" := (bind c (fun _ => k))
  (at level 100, k at level 200, right associativity) : io_scope.

(** ** The file system calls the script makes *)

Module Os.
Import PyStr.

(** [os.path.exists(p)]. *)
Definition path_exists (p : string) : M bool :=
  fun w => (Ok (match fs w !! p with Some _ => true | None => false end), w).

(** The directories [os.makedirs] walks through: every prefix of the
    path that stops before a separator, and the path itself. *)
Fixpoint prefixes_from (done todo : string) : list string :=
  match todo with
  | EmptyString => if truthy done && negb (endswith sep done) then [done] else []
  | String c r =>
      (if eqc c sep && truthy done && negb (endswith sep done)
       then [done] else [])
      ++ prefixes_from (done +:+ String c EmptyString) r
  end.

Definition mkdir_exist_ok (fsys : gmap string node) (d : string)
  : result (gmap string node) :=
  match fsys !! d with
  | None => Ok (<[d := Dir]> fsys)
  | Some Dir => Ok fsys
  | Some (File _) => Raise (OSError d)
  end.

(** [os.makedirs(d, exist_ok=True)]. *)
Definition makedirs (d : string) : M unit :=
  fun w =>
    match fold_left (fun acc p => rbind acc (fun f => mkdir_exist_ok f p))
                    (prefixes_from EmptyString d) (Ok (fs w)) with
    | Ok f => (Ok tt, {| fs := f; copies := copies w; written := written w;
                         CONTACTS_LOOKUP := CONTACTS_LOOKUP w |})
    | Raise e => (Raise e, w)
    end.

(** [shutil.copy2(src, dst)], for a [dst] that is not a directory. *)
Definition copy2 (src dst : string) : M unit :=
  fun w =>
    match fs w !! src with
    | Some (File c) =>
        (Ok tt, {| fs := <[dst := File c]> (fs w);
                   copies := copies w ++ [(src, dst)];
                   written := written w;
                   CONTACTS_LOOKUP := CONTACTS_LOOKUP w |})
    | _ => (Raise (OSError src), w)
    end.

(** [open(p, "rb")] followed by reading the file. *)
Definition read (p : string) : M content :=
  fun w =>
    match fs w !! p with
    | Some (File c) => (Ok c, w)
    | _ => (Raise (OSError p), w)
    end.

(** The name [e] under which the path [k] is listed in the directory
    [d], if it is. *)
Fixpoint strip_prefix (pre s : string) : option string :=
  match pre, s with
  | EmptyString, _ => Some s
  | String a p, String b r => if eqc a b then strip_prefix p r else None
  | String _ _, EmptyString => None
  end.

Definition entry_of (d k : string) : option string :=
  match strip_prefix (PosixPath.join d [EmptyString]) k with
  | Some e => if truthy e && negb (contains sep e) then Some e else None
  | None => None
  end.

(** [os.listdir(d)].  The entries come in the order of the map;
    [os.listdir] promises no order, and no general statement below depends
    on one. *)
Definition listdir (d : string) : M (list string) :=
  fun w =>
    match fs w !! d with
    | Some Dir => (Ok (omap (fun kv => entry_of d (fst kv)) (map_to_list (fs w))), w)
    | _ => (Raise (OSError d), w)
    end.

End Os.

(** [plistlib.load] on an open file.  A content that is no property list
    is refused with [InvalidFileException]; [plistlib] has other errors,
    as [xml.parsers.expat.ExpatError] on malformed XML, which are not
    told apart here: the general statements below say of such an error
    only what it is not. *)
Definition plistlib_load (c : content) : result (gmap string pvalue) :=
  match c with
  | CPlist p => Ok p
  | _ => Raise InvalidFileException
  end.

(** A connection is known by the path it was opened on; the file is read
    when a query runs. *)
Definition connection : Type := string.

(** [sqlite3.connect(p)] on a path that holds a file.  What
    [sqlite3.connect] itself refuses, as a path that is a directory, is
    not modelled: here such a connection fails at its first query. *)
Definition sqlite3_connect (p : string) : M connection := ret p.

(** [SELECT ... FROM Files]. *)
Definition select_Files (db : connection) : M (list file_row) :=
  fun w =>
    match fs w !! db with
    | Some (File (CManifest rows)) => (Ok rows, w)
    | _ => (Raise (DatabaseError db), w)
    end.

(** The tables of an sms database. *)
Definition select_sms (db : connection) : M sms_db :=
  fun w =>
    match fs w !! db with
    | Some (File (CSms d)) => (Ok d, w)
    | _ => (Raise (DatabaseError db), w)
    end.

(** [to_json(data, filename)]: the serialisation is kept as the value
    written.  The output files are not part of [fs], and the errors of
    [os.makedirs] and [open] on the output path are not modelled: the
    general statements below take a run that returns as given, or say
    what a run does not raise. *)
Definition to_json (data : json) (filename : string) : M unit :=
  fun w => (Ok tt, {| fs := fs w; copies := copies w;
                      written := written w ++ [(filename, data)];
                      CONTACTS_LOOKUP := CONTACTS_LOOKUP w |}).

Definition get_CONTACTS_LOOKUP : M (gmap string (string * string)) :=
  fun w => (Ok (CONTACTS_LOOKUP w), w).

(** ** [make_temporary_copy] *)

(** [dst_path or src_path]. *)
Definition py_or (a : option string) (b : string) : string :=
  match a with
  | Some s => if PyStr.truthy s then s else b
  | None => b
  end.

Definition tmp_path_of (id : string) (src_path : string) (dst_path : option string)
  : string :=
  "/tmp/" +:+ id +:+ "/" +:+ py_or dst_path src_path.

Definition make_temporary_copy (id : string) (src_path : string)
    (dst_path : option string) : M string :=
  (let tmp_path := tmp_path_of id src_path dst_path in
   let* present := Os.path_exists tmp_path in
   if (present : bool) then ret tmp_path
   else
     Os.makedirs (PosixPath.dirname tmp_path) ;;;
     Os.copy2 src_path tmp_path ;;;
     ret tmp_path)%io.

(** ** [IOSBackup] and [IOSBackupFile] *)

Record IOSBackup : Type := {
  backup_path : string;
  info_plist : gmap string pvalue;
  backup_id : option pvalue;
  manifest_temp_path : string;
  backup_db : connection
}.

(** [backup[key]]: absent keys give [None]. *)
Definition IOSBackup_getitem (info : gmap string pvalue) (key : string)
  : option pvalue := info !! key.

Definition IOSBackup_init (path : string) : M IOSBackup :=
  (let plist := PosixPath.join path ["Info.plist"] in
   let* present := Os.path_exists plist in
   if negb present
   then raise (InvalidBackupException (path +:+ " does not contain an Info.plist"))
   else
     let* f := Os.read plist in
     let* info := lift (plistlib_load f) in
     let id := IOSBackup_getitem info "Unique Identifier" in
     let* tmp := make_temporary_copy (py_str id)
                   (PosixPath.join path ["Manifest.db"]) (Some "Manifest.db") in
     let* db := sqlite3_connect tmp in
     ret {| backup_path := path; info_plist := info; backup_id := id;
            manifest_temp_path := tmp; backup_db := db |})%io.

Record IOSBackupFile : Type := {
  file_backup : IOSBackup;
  file_domain : string;
  file_path : string;
  file_id : string;
  file_metadata : option string;
  real_path : string;
  temp_path : option string
}.

(** [IOSBackupFile.__init__]: no call on the file system. *)
Definition IOSBackupFile_init (backup : IOSBackup) (domain path id : string)
  : IOSBackupFile :=
  {| file_backup := backup; file_domain := domain; file_path := path;
     file_id := id; file_metadata := None;
     real_path := PosixPath.join (backup_path backup) [PyStr.first2 id; id];
     temp_path := None |}.

(** [WHERE domain = ? AND relativePath = ?]. *)
Definition matches (domain path : string) (r : file_row) : bool :=
  String.eqb (row_domain r) domain && String.eqb (row_relativePath r) path.

(** [IOSBackup.file]. *)
Definition IOSBackup_file (backup : IOSBackup) (domain path : string)
  : M IOSBackupFile :=
  (let* rows := select_Files (backup_db backup) in
   match List.filter (matches domain path) rows with
   | [r] => ret (IOSBackupFile_init backup domain path (row_fileID r))
   | _ => raise (FileNotFoundException
                   ("File " +:+ path +:+ " not found in domain " +:+ domain))
   end)%io.

(** [IOSBackupFile.open_db]: the connection is on the temporary copy, which
    is also what [temp_path] is set to. *)
Definition IOSBackupFile_open_db (f : IOSBackupFile) : M connection :=
  (let* tmp := make_temporary_copy
                 (py_str (backup_id (file_backup f)) +:+ "/" +:+ file_domain f)
                 (real_path f) (Some (file_path f)) in
   sqlite3_connect tmp)%io.

(** ** [parse_phone_number]

    The [phonenumbers] library is used through [phonenumbers.parse] alone.
    What the script relies on is its interface: given a string or [None]
    and a region, it returns a number object or raises
    [NumberParseException]. *)

Record PhoneNumber : Type := { country_code : N; national_number : N }.

Class PhoneLibrary : Type := {
  phonenumbers_parse : option string -> string -> result PhoneNumber;
  phonenumbers_raises : forall number region e,
      phonenumbers_parse number region = Raise e -> e = NumberParseException
}.

(** [f"+{parsed.country_code}{parsed.national_number}"]. *)
Definition canonical (parsed : PhoneNumber) : string :=
  "+" +:+ pretty (country_code parsed) +:+ pretty (national_number parsed).

(** The body of [parse_phone_number], over whatever [phonenumbers.parse]
    is: the [except] clause names [NumberParseException] alone. *)
Definition parse_phone_number_with
    (parse : option string -> string -> result PhoneNumber)
    (input : option string) : result (option string) :=
  rtry (let? parsed := parse input "US" in
        Ok (Some (canonical parsed)))%result
       (fun e => match e with
                 | NumberParseException => Some (Ok None)
                 | _ => None
                 end).

Section WithPhoneLibrary.
Context `{PhoneLibrary}.

Definition parse_phone_number (input : option string) : result (option string) :=
  parse_phone_number_with phonenumbers_parse input.

(** *** The contact loop of [backup_contacts] *)

Inductive contact_type : Type := email | shortcode | phone | unknown.

(** The body of the loop up to the choice of [type]: [None] when the row
    is passed over by [continue], else the type and the contact that is
    appended under it. *)
Definition classify_contact (contact : option string)
  : result (option (contact_type * string)) :=
  match contact with
  | None => Ok None
  | Some c =>
      if negb (PyStr.truthy c) then Ok None
      else if PyStr.contains "@"%char c then Ok (Some (email, c))
      else if PyStr.isdigit c && (PyStr.len c <=? 6) then Ok (Some (shortcode, c))
      else
        (let? parsed := parse_phone_number (Some c) in
         match parsed with
         | Some p => if PyStr.truthy p then Ok (Some (phone, p))
                     else Ok (Some (unknown, c))
         | None => Ok (Some (unknown, c))
         end)%result
  end.

(** *** [backup_messages] *)

(** [contact = handle["contact"]; if phone := parse_phone_number(contact):
    contact = phone]. *)
Definition normalized_contact (h : handle) : result (option string) :=
  (let contact := handle_contact (handle_cols h) in
   let? parsed := parse_phone_number contact in
   match parsed with
   | Some p => if PyStr.truthy p then Ok (Some p) else Ok contact
   | None => Ok contact
   end)%result.

(** [contact in CONTACTS_LOOKUP] and the lookup that follows. *)
Definition resolve (lookup : gmap string (string * string))
    (contact : option string) : option (string * string) :=
  match contact with
  | Some c => lookup !! c
  | None => None
  end.

Definition annotate_handle (lookup : gmap string (string * string))
    (contact : option string) (h : handle) : handle :=
  match resolve lookup contact with
  | Some (uuid, name) =>
      {| handle_cols := handle_cols h;
         handle_uuid := Some uuid; handle_name := Some name |}
  | None => h
  end.

Definition annotate_message (lookup : gmap string (string * string))
    (contact : option string) (m : message) : message :=
  match resolve lookup contact with
  | Some (uuid, name) =>
      {| message_cols := message_cols m;
         sender_uuid := Some uuid; sender_name := Some name;
         attachments := attachments m |}
  | None => m
  end.

(** [chat.setdefault("members", []).append(handle)]. *)
Definition append_member (h : Z) (c : chat) : chat :=
  {| chat_cols := chat_cols c;
     members := Some ((default [] (members c) ++ [h])%list);
     messages := messages c |}.

(** [chat.setdefault("messages", []).append(message)]. *)
Definition append_message (m : Z) (c : chat) : chat :=
  {| chat_cols := chat_cols c;
     members := members c;
     messages := Some ((default [] (messages c) ++ [m])%list) |}.

(** [message.setdefault("attachments", []).append(attachment)]. *)
Definition append_attachment (a : attachment) (m : message) : message :=
  {| message_cols := message_cols m;
     sender_uuid := sender_uuid m; sender_name := sender_name m;
     attachments := Some ((default [] (attachments m) ++ [a])%list) |}.

(** One round of [for row in chat_handles]. *)
Definition chat_handles_step (lookup : gmap string (string * string))
    (st : PyDict.t handle * PyDict.t chat) (row : Z * Z)
  : result (PyDict.t handle * PyDict.t chat) :=
  (let '(handles, chats) := st in
   let '(row_chat_id, row_handle_id) := row in
   let? h := PyDict.getitem row_handle_id handles in
   let? contact := normalized_contact h in
   let handles := PyDict.alter (annotate_handle lookup contact) row_handle_id handles in
   let? _ := PyDict.getitem row_chat_id chats in
   Ok (handles, PyDict.alter (append_member row_handle_id) row_chat_id chats))%result.

(** One round of [for row in messages.values()]. *)
Definition messages_step (lookup : gmap string (string * string))
    (handles : PyDict.t handle) (m : message) : result message :=
  (if negb (PyDict.mem (message_handle_id (message_cols m)) handles) then Ok m
   else
     let? h := PyDict.getitem (message_handle_id (message_cols m)) handles in
     let? contact := normalized_contact h in
     Ok (annotate_message lookup contact m))%result.

(** One round of [for row in chat_messages]. *)
Definition chat_messages_step (msgs : PyDict.t message)
    (chats : PyDict.t chat) (row : Z * Z) : result (PyDict.t chat) :=
  (let '(row_chat_id, row_message_id) := row in
   let? _ := PyDict.getitem row_chat_id chats in
   let? _ := PyDict.getitem row_message_id msgs in
   Ok (PyDict.alter (append_message row_message_id) row_chat_id chats))%result.

(** One round of [for row in message_attachments]. *)
Definition message_attachments_step (atts : PyDict.t attachment)
    (msgs : PyDict.t message) (row : Z * Z) : result (PyDict.t message) :=
  (let '(row_message_id, row_attachment_id) := row in
   let? _ := PyDict.getitem row_message_id msgs in
   let? a := PyDict.getitem row_attachment_id atts in
   Ok (PyDict.alter (append_attachment a) row_message_id msgs))%result.

(** A [for] loop whose body can raise. *)
Fixpoint for_each {S R} (step : S -> R -> result S) (rows : list R) (st : S)
  : result S :=
  match rows with
  | [] => Ok st
  | row :: rest => rbind (step st row) (for_each step rest)
  end.

(** A [for] loop over the values of a dict, each mutated in place. *)
Fixpoint for_values {V} (step : V -> result V) (d : PyDict.t V)
  : result (PyDict.t V) :=
  match d with
  | [] => Ok []
  | (k, v) :: rest =>
      (let? v' := step v in
       let? rest' := for_values step rest in
       Ok ((k, v') :: rest'))%result
  end.

(** The objects behind a list of references. *)
Definition deref {V} (d : PyDict.t V) (refs : list Z) : list V :=
  omap (fun k => PyDict.get k d) refs.

Definition chat_to_json (handles : PyDict.t handle) (msgs : PyDict.t message)
    (c : chat) : chat_json :=
  {| cj_cols := chat_cols c;
     cj_members := option_map (deref handles) (members c);
     cj_messages := option_map (deref msgs) (messages c) |}.

Definition chats_to_json (handles : PyDict.t handle) (msgs : PyDict.t message)
    (chats : PyDict.t chat) : json :=
  JChats (map (chat_to_json handles msgs) (PyDict.values chats)).

(** The last loop: [chat["messages"]] raises [KeyError] on a chat without
    messages, which the loop passes over. *)
Fixpoint write_message_data (msgs : PyDict.t message) (chats : list chat)
  : M unit :=
  match chats with
  | [] => ret tt
  | c :: rest =>
      (match messages c with
       | Some refs =>
           to_json (JMessages (deref msgs refs))
                   ("messages/message-data/"
                      +:+ pretty (chat_id (chat_cols c)) +:+ ".json")
       | None => ret tt
       end ;;;
       write_message_data msgs rest)%io
  end.

Definition new_handle (r : handle_row) : handle :=
  {| handle_cols := r; handle_uuid := None; handle_name := None |}.
Definition new_message (r : message_row) : message :=
  {| message_cols := r; sender_uuid := None; sender_name := None;
     attachments := None |}.
Definition new_chat (r : chat_row) : chat :=
  {| chat_cols := r; members := None; messages := None |}.

(** [backup.file("HomeDomain", "Library/SMS/sms.db").open_db()]. *)
Definition open_sms_db (backup : IOSBackup) : M connection :=
  (let* f := IOSBackup_file backup "HomeDomain" "Library/SMS/sms.db" in
   IOSBackupFile_open_db f)%io.

Definition backup_messages (backup : IOSBackup) : M unit :=
  (let* sms := open_sms_db backup in
   let* lookup := get_CONTACTS_LOOKUP in
   if bool_decide (lookup = ∅)
   then raise (ContactsNotDefinedException
                 "Contacts must be loaded before messages")
   else
     let* db := select_sms sms in
     let chats := PyDict.by_key (fun c => chat_id (chat_cols c))
                    (map new_chat (t_chat db)) in
     let handles := PyDict.by_key (fun h => handle_id (handle_cols h))
                      (map new_handle (t_handle db)) in
     let* joined :=
       lift (for_each (chat_handles_step lookup)
                      (t_chat_handle_join db) (handles, chats)) in
     let handles := fst joined in
     let chats := snd joined in
     to_json (chats_to_json handles [] chats) "messages/chats.json" ;;;
     let msgs := PyDict.by_key (fun m => message_id (message_cols m))
                   (map new_message (t_message db)) in
     let* msgs := lift (for_values (messages_step lookup handles) msgs) in
     let* chats :=
       lift (for_each (chat_messages_step msgs)
                      (t_chat_message_join db) chats) in
     let atts := PyDict.by_key attachment_id (t_attachment db) in
     let* msgs :=
       lift (for_each (message_attachments_step atts)
                      (t_message_attachment_join db) msgs) in
     to_json (chats_to_json handles msgs chats) "messages/chats-full.json" ;;;
     write_message_data msgs (PyDict.values chats))%io.

(** ** The scan loop *)

(** [for backup_function in backup_functions], with its [try]. *)
Fixpoint run_backup_functions (fns : list (IOSBackup -> M unit))
    (backup : IOSBackup) : M unit :=
  match fns with
  | [] => ret tt
  | f :: rest =>
      (try (f backup)
           (fun e => match e with
                     | ApplicationNotFoundException _ => Some (ret tt)
                     | _ => None
                     end) ;;;
       run_backup_functions rest backup)%io
  end.

(** [for backup_id in ...], over the names [os.listdir] gave. *)
Fixpoint scan_ids (fns : list (IOSBackup -> M unit)) (backup_root : string)
    (ids : list string) : M unit :=
  match ids with
  | [] => ret tt
  | backup_id :: rest =>
      (let* found :=
         try (let* b := IOSBackup_init (PosixPath.join backup_root [backup_id]) in
              ret (Some b))
             (fun e => match e with
                       | InvalidBackupException _ => Some (ret None)
                       | _ => None
                       end) in
       match found with
       | None => scan_ids fns backup_root rest
       | Some b => run_backup_functions fns b ;;; scan_ids fns backup_root rest
       end)%io
  end.

(** [for backup_root in backup_roots]. *)
Fixpoint scan (fns : list (IOSBackup -> M unit)) (backup_roots : list string)
  : M unit :=
  match backup_roots with
  | [] => ret tt
  | backup_root :: rest =>
      (let* ids := Os.listdir backup_root in
       scan_ids fns backup_root ids ;;;
       scan fns rest)%io
  end.

End WithPhoneLibrary.

Definition backup_roots : list string := ["/Volumes/Backups/iPhone/Active/"].

(** A stand-in for the library, used where a statement is run on concrete
    input: it accepts strings of ASCII digits only, as numbers of country
    code 1. *)
Fixpoint digits_value (acc : N) (s : string) : option N :=
  match s with
  | EmptyString => Some acc
  | String c r =>
      let n := N_of_ascii c in
      if ((48 <=? n) && (n <=? 57))%N
      then digits_value (acc * 10 + (n - 48))%N r
      else None
  end.

Definition digits_parse (number : option string) (region : string)
  : result PhoneNumber :=
  match number with
  | Some (String c r) =>
      match digits_value 0%N (String c r) with
      | Some n => Ok {| country_code := 1; national_number := n |}
      | None => Raise NumberParseException
      end
  | _ => Raise NumberParseException
  end.

(** A library that parses nothing. *)
Definition rejecting_library : PhoneLibrary :=
  {| phonenumbers_parse := fun _ _ => Raise NumberParseException;
     phonenumbers_raises :=
       ltac:(intros number region e Hr; now injection Hr as <-) |}.

Definition digits_library : PhoneLibrary :=
  {| phonenumbers_parse := digits_parse;
     phonenumbers_raises :=
       ltac:(intros number region e; unfold digits_parse;
             destruct number as [[|c r]|]; try congruence;
             destruct (digits_value 0%N (String c r)); congruence) |}.

(** ** [IOSBackup.files] and [IOSBackupApplication] *)

(** SQLite's [LIKE] folds the case of the 26 ASCII letters only. *)
Definition like_fold (c : ascii) : ascii :=
  let n := nat_of_ascii c in
  if ((65 <=? n) && (n <=? 90))%nat then ascii_of_nat (n + 32) else c.

Definition like_eqc (a b : ascii) : bool :=
  PyStr.eqc (like_fold a) (like_fold b).

(** [s LIKE p]: [%] stands for any run of characters, [_] for any one
    character, every other character for itself up to the case of ASCII
    letters. *)
Fixpoint like (p s : string) : bool :=
  match p with
  | EmptyString => negb (PyStr.truthy s)
  | String c p' =>
      if PyStr.eqc c "%"%char then
        (fix from (s : string) : bool :=
           like p' s || match s with
                        | EmptyString => false
                        | String _ s' => from s'
                        end) s
      else
        match s with
        | EmptyString => false
        | String d s' =>
            (PyStr.eqc c "_"%char || like_eqc c d) && like p' s'
        end
  end.

(** One condition of the [WHERE] clause of [files]: [like ?] when the
    argument holds a [%], [= ?] otherwise. *)
Definition files_condition (arg : string) (column : string) : bool :=
  if PyStr.contains "%"%char arg then like arg column
  else String.eqb column arg.

(** [if domain:], [if path:]: an argument that is [None] or empty adds no
    condition. *)
Definition given (arg : option string) : option string :=
  match arg with
  | Some s => if PyStr.truthy s then Some s else None
  | None => None
  end.

Definition files_where (domain path : option string) (r : file_row) : bool :=
  match given domain with
  | Some d => files_condition d (row_domain r)
  | None => true
  end
  && match given path with
     | Some p => files_condition p (row_relativePath r)
     | None => true
     end.

(** [IOSBackup.files], as the list of what the generator yields once it is
    consumed.  With no condition the statement ends in [WHERE] and sqlite3
    refuses it. *)
Definition IOSBackup_files (backup : IOSBackup) (domain path : option string)
  : M (list IOSBackupFile) :=
  match given domain, given path with
  | None, None => raise (DatabaseError (backup_db backup))
  | _, _ =>
      (let* rows := select_Files (backup_db backup) in
       ret (map (fun r => IOSBackupFile_init backup (row_domain r)
                            (row_relativePath r) (row_fileID r))
                (List.filter (files_where domain path) rows)))%io
  end.

Record IOSBackupApplication : Type := {
  app_backup : IOSBackup;
  app_id : string;
  app_domain : string;
  app_files : gmap string IOSBackupFile
}.

(** [self.files[row["relativePath"]] = IOSBackupFile(...)], row after row. *)
Definition index_files (backup : IOSBackup) (domain : string)
    (rows : list file_row) : gmap string IOSBackupFile :=
  fold_left (fun files r =>
               <[row_relativePath r :=
                   IOSBackupFile_init backup domain (row_relativePath r)
                     (row_fileID r)]> files)
            rows ∅.

(** [IOSBackupApplication.__init__]. *)
Definition IOSBackupApplication_init (backup : IOSBackup) (id : string)
  : M IOSBackupApplication :=
  (let domain := "AppDomain-" +:+ id in
   let* rows := select_Files (backup_db backup) in
   ret {| app_backup := backup; app_id := id; app_domain := domain;
          app_files :=
            index_files backup domain
              (List.filter (fun r => String.eqb (row_domain r) domain) rows) |})%io.

(** ** The people of [backup_contacts] *)

(** A row of [ABPerson], with the column names the query gives. *)
Record person_row : Type := {
  person_id : Z;
  person_uuid : option string;
  first_name : option string;
  last_name : option string;
  nickname : option string;
  organization : option string
}.

(** [if person[key]:] on a column that is a string or NULL. *)
Definition column_truthy (v : option string) : list string :=
  match v with
  | Some s => if PyStr.truthy s then [s] else []
  | None => []
  end.

Definition double_quote : string := String (ascii_of_nat 34) EmptyString.

(** The list [display_name] before it is joined. *)
Definition display_name_parts (r : person_row) : list string :=
  let names :=
    (column_truthy (first_name r)
     ++ map (fun n => double_quote +:+ n +:+ double_quote)
            (column_truthy (nickname r))
     ++ column_truthy (last_name r))%list in
  (names
   ++ map (fun o => match names with
                    | [] => o
                    | _ :: _ => "(" +:+ o +:+ ")"
                    end)
          (column_truthy (organization r)))%list.

(** [sep.join(parts)]. *)
Fixpoint str_join (sep : string) (parts : list string) : string :=
  match parts with
  | [] => EmptyString
  | [p] => p
  | p :: rest => p +:+ sep +:+ str_join sep rest
  end.

Definition display_name (r : person_row) : string :=
  str_join " " (display_name_parts r).

(** A person once the display name is set and the null values are removed:
    a column that is [None] is a key that is gone.  [contacts] is the dict
    from type to list that the loop over [ABMultiValue] grows. *)
Record person : Type := {
  person_cols : person_row;
  person_display_name : string;
  person_contacts : option (list (contact_type * list string))
}.

Definition new_person (r : person_row) : person :=
  {| person_cols := r; person_display_name := display_name r;
     person_contacts := None |}.

Definition contact_type_eqb (a b : contact_type) : bool :=
  match a, b with
  | email, email | shortcode, shortcode | phone, phone | unknown, unknown => true
  | _, _ => false
  end.

(** [contacts.setdefault(type, []).append(contact)]. *)
Fixpoint append_under (ty : contact_type) (c : string)
    (contacts : list (contact_type * list string))
  : list (contact_type * list string) :=
  match contacts with
  | [] => [(ty, [c])]
  | (ty', cs) :: rest =>
      if contact_type_eqb ty ty' then (ty', (cs ++ [c])%list) :: rest
      else (ty', cs) :: append_under ty c rest
  end.

(** [person.setdefault("contacts", {}).setdefault(type, []).append(contact)]. *)
Definition add_contact (ty : contact_type) (c : string) (p : person) : person :=
  {| person_cols := person_cols p;
     person_display_name := person_display_name p;
     person_contacts := Some (append_under ty c (default [] (person_contacts p))) |}.

(** Every contact string a person holds, in the order the last loops of
    [backup_contacts] visit them. *)
Definition contacts_of (p : person) : list string :=
  concat (map snd (default [] (person_contacts p))).

(** What ends the loading of the table: a subscript with a string key that
    is not there. *)
Inductive loading : Type :=
| Loaded
| MissingKey (key : string).

(** The loops that fill [CONTACTS_LOOKUP], over [people.values()]: the
    table as it is when they end, and how they end. *)
Fixpoint load_contacts (people : list person)
    (table : gmap string (string * string))
  : loading * gmap string (string * string) :=
  match people with
  | [] => (Loaded, table)
  | p :: rest =>
      match person_contacts p with
      | None => (MissingKey "contacts", table)
      | Some _ =>
          match contacts_of p with
          | [] => load_contacts rest table
          | c :: cs =>
              match person_uuid (person_cols p) with
              | None => (MissingKey "uuid", table)
              | Some uuid =>
                  load_contacts rest
                    (fold_left (fun t c => <[c := (uuid, person_display_name p)]> t)
                               (c :: cs) table)
              end
          end
      end
  end.

Section WithPhoneLibraryContacts.
Context `{PhoneLibrary}.

(** One round of [for row in values]. *)
Definition contacts_step (people : PyDict.t person) (row : Z * option string)
  : result (PyDict.t person) :=
  (let '(row_person_id, value) := row in
   let? classified := classify_contact value in
   match classified with
   | None => Ok people
   | Some (ty, c) =>
       let? _ := PyDict.getitem row_person_id people in
       Ok (PyDict.alter (add_contact ty c) row_person_id people)
   end)%result.

(** The people of [backup_contacts] as they are written to
    [messages/contacts.json]: from the rows of [ABPerson] and of
    [ABMultiValue]. *)
Definition contacts_people (people : list person_row)
    (values : list (Z * option string)) : result (PyDict.t person) :=
  for_each contacts_step values
           (PyDict.by_key (fun p => person_id (person_cols p))
                          (map new_person people)).

End WithPhoneLibraryContacts.

(** ** What the statements below speak of *)

(** One of the ten ASCII digits. *)
Definition ascii_digit (c : ascii) : bool :=
  let n := nat_of_ascii c in ((48 <=? n) && (n <=? 57))%nat.

(** A string of ASCII digits, the empty one included. *)
Fixpoint ascii_digits (s : string) : bool :=
  match s with
  | EmptyString => true
  | String c r => ascii_digit c && ascii_digits r
  end.

Definition not_found_message (domain path : string) : string :=
  "File " +:+ path +:+ " not found in domain " +:+ domain.

Definition contacts_not_loaded : exn :=
  ContactsNotDefinedException "Contacts must be loaded before messages".


(** No row of the table has the key [k]. *)
Definition no_row {R : Type} (key : R -> Z) (rows : list R) (k : Z) : Prop :=
  forall r, In r rows -> key r <> k.


(** Every chat is stored under its own id. *)
Definition chats_keyed (chats : PyDict.t chat) : Prop :=
  forall k ch, PyDict.get k chats = Some ch -> chat_id (chat_cols ch) = k.

(** The message [m] is listed in the chat stored under [c]. *)
Definition lists_message (c m : Z) (chats : PyDict.t chat) : Prop :=
  exists ch refs,
    PyDict.get c chats = Some ch /\ messages ch = Some refs /\ In m refs.

(** The message stored under [m] has the columns [r] and no sender. *)
Definition unsent (m : Z) (r : message_row) (msgs : PyDict.t message) : Prop :=
  exists mj,
    PyDict.get m msgs = Some mj /\ message_cols mj = r
    /\ sender_uuid mj = None /\ sender_name mj = None.

(** The message [m] is listed under some chat of a written value. *)
Definition listed_in (m : Z) (j : json) : bool :=
  match j with
  | JChats cs =>
      existsb (fun cj => match cj_messages cj with
                         | Some ms => existsb (fun mj => Z.eqb (message_id (message_cols mj)) m) ms
                         | None => false
                         end) cs
  | JMessages ms => existsb (fun mj => Z.eqb (message_id (message_cols mj)) m) ms
  end.

(** ** Example data *)

Definition example_backup : IOSBackup :=
  {| backup_path := "/Volumes/Backups/iPhone/Active/0001";
     info_plist := {[ "Unique Identifier" := PString "0001" ]};
     backup_id := Some (PString "0001");
     manifest_temp_path := "/tmp/0001/Manifest.db";
     backup_db := "/tmp/0001/Manifest.db" |}.

Definition example_row (id : string) : file_row :=
  {| row_fileID := id; row_domain := "HomeDomain"; row_relativePath := "a/b.db";
     row_flags := 1; row_file := "" |}.

Definition world_with_manifest (rows : list file_row) : world :=
  {| fs := {[ "/tmp/0001/Manifest.db" := File (CManifest rows) ]};
     copies := []; written := []; CONTACTS_LOOKUP := ∅ |}.

(** The content id of [Library/SMS/sms.db] in [HomeDomain]. *)
Definition sms_file_id : string := "3d0d7e5fb2ce288813306e4d4636395e047a3d28".

Definition sms_row : file_row :=
  {| row_fileID := sms_file_id; row_domain := "HomeDomain";
     row_relativePath := "Library/SMS/sms.db"; row_flags := 1; row_file := "" |}.

(** A backup whose manifest copy is in place and lists the sms database. *)
Definition messages_world (db : sms_db)
    (lookup : gmap string (string * string)) : world :=
  {| fs := {[ "/tmp/0001/Manifest.db" := File (CManifest [sms_row]);
              "/Volumes/Backups/iPhone/Active/0001/3d/3d0d7e5fb2ce288813306e4d4636395e047a3d28"
                := File (CSms db) ]};
     copies := []; written := []; CONTACTS_LOOKUP := lookup |}.

Definition example_message (id handle : Z) (text : string) : message_row :=
  {| message_id := id; message_guid := "message-" +:+ pretty id;
     message_date := 0; message_handle_id := handle;
     message_text := Some text; message_reply_to_guid := None |}.

(** One chat with one member, handle 7; message 10 was sent from handle 0,
    which is no row of the handle table, message 11 from handle 7. *)
Definition example_sms : sms_db :=
  {| t_chat := [{| chat_id := 1; chat_guid := "chat-1" |}];
     t_handle := [{| handle_id := 7; handle_contact := Some "5551234567";
                     handle_country := Some "us";
                     handle_service := Some "iMessage" |}];
     t_chat_handle_join := [(1, 7)];
     t_message := [example_message 10 0 "on my way"; example_message 11 7 "ok"];
     t_chat_message_join := [(1, 10); (1, 11)];
     t_attachment := [];
     t_message_attachment_join := [] |}.

Definition dangling_sms : sms_db :=
  {| t_chat := t_chat example_sms;
     t_handle := t_handle example_sms;
     t_chat_handle_join := t_chat_handle_join example_sms;
     t_message := t_message example_sms;
     t_chat_message_join := [(1, 10); (1, 11); (1, 99)];
     t_attachment := [];
     t_message_attachment_join := [] |}.

Definition example_lookup : gmap string (string * string) :=
  {[ "+15551234567" := ("uuid-1", "Alice") ]}.

(** A backup root with the directory [a], whose [Info.plist] is not a
    property list, and the backup [b]. *)
Definition scan_world : world :=
  {| fs := {[ "/Volumes/Backups/iPhone/Active/" := Dir;
              "/Volumes/Backups/iPhone/Active/a" := Dir;
              "/Volumes/Backups/iPhone/Active/a/Info.plist"
                := File (CRaw "not a property list");
              "/Volumes/Backups/iPhone/Active/b" := Dir;
              "/Volumes/Backups/iPhone/Active/b/Info.plist"
                := File (CPlist {[ "Unique Identifier" := PString "0002" ]});
              "/Volumes/Backups/iPhone/Active/b/Manifest.db"
                := File (CManifest []) ]};
     copies := []; written := []; CONTACTS_LOOKUP := ∅ |}.

(** ** What the further statements speak of *)

(** The loop of [os.makedirs] over the prefixes of a path. *)
Definition mkdir_all (ds : list string) (acc : result (gmap string node))
  : result (gmap string node) :=
  fold_left (fun acc p => rbind acc (fun f => Os.mkdir_exist_ok f p)) ds acc.

(** Some row of the table has the key [k]. *)
Definition has_row {R : Type} (key : R -> Z) (rows : list R) (k : Z) : Prop :=
  exists r, In r rows /\ key r = k.

(** Every join row points into the tables it names. *)
Definition referenced (db : sms_db) : Prop :=
  (forall c h, In (c, h) (t_chat_handle_join db) ->
               has_row chat_id (t_chat db) c /\ has_row handle_id (t_handle db) h)
  /\ (forall c m, In (c, m) (t_chat_message_join db) ->
                  has_row chat_id (t_chat db) c
                  /\ has_row message_id (t_message db) m)
  /\ (forall m a, In (m, a) (t_message_attachment_join db) ->
                  has_row message_id (t_message db) m
                  /\ has_row attachment_id (t_attachment db) a).

(** The second column of the join rows whose first column is [k], in the
    order of the rows. *)
Definition joined (k : Z) (rows : list (Z * Z)) : list Z :=
  map snd (List.filter (fun row => Z.eqb (fst row) k) rows).

(** [None] for the key that was never set, else the list. *)
Definition listed {A : Type} (l : list A) : option (list A) :=
  match l with
  | [] => None
  | _ :: _ => Some l
  end.

(** A list field after [l] has been appended to it, one by one. *)
Definition extended {A : Type} (field : option (list A)) (l : list A)
  : option (list A) :=
  match l with
  | [] => field
  | _ :: _ => Some (default [] field ++ l)%list
  end.

(** The dicts [backup_messages] starts from. *)
Definition loaded_chats (db : sms_db) : PyDict.t chat :=
  PyDict.by_key (fun c => chat_id (chat_cols c)) (map new_chat (t_chat db)).
Definition loaded_handles (db : sms_db) : PyDict.t handle :=
  PyDict.by_key (fun h => handle_id (handle_cols h)) (map new_handle (t_handle db)).
Definition loaded_messages (db : sms_db) : PyDict.t message :=
  PyDict.by_key (fun m => message_id (message_cols m))
                (map new_message (t_message db)).
Definition loaded_attachments (db : sms_db) : PyDict.t attachment :=
  PyDict.by_key attachment_id (t_attachment db).

(** The file of the messages of one chat, if the chat has the key. *)
Definition message_file (msgs : PyDict.t message) (c : chat)
  : option (string * json) :=
  option_map (fun refs =>
                ("messages/message-data/" +:+ pretty (chat_id (chat_cols c))
                   +:+ ".json",
                 JMessages (deref msgs refs)))
             (messages c).

(** The same, read off a chat as it is written. *)
Definition message_file_of (cj : chat_json) : option (string * json) :=
  option_map (fun ms =>
                ("messages/message-data/" +:+ pretty (chat_id (cj_cols cj))
                   +:+ ".json",
                 JMessages ms))
             (cj_messages cj).

(** [s] begins with [prefix], up to the case of ASCII letters. *)
Fixpoint begins_with (prefix s : string) : bool :=
  match prefix, s with
  | EmptyString, _ => true
  | String c p, String d s' => like_eqc c d && begins_with p s'
  | String _ _, EmptyString => false
  end.

(** The file that [files] yields for a row. *)
Definition file_of_row (backup : IOSBackup) (r : file_row) : IOSBackupFile :=
  IOSBackupFile_init backup (row_domain r) (row_relativePath r) (row_fileID r).

(** [CONTACTS_LOOKUP[contact] = entry] for each contact of a list. *)
Definition enter (entry : string * string) (cs : list string)
    (table : gmap string (string * string))
  : gmap string (string * string) :=
  fold_left (fun t c => <[c := entry]> t) cs table.

(** A person that has the [contacts] key, with a contact under it. *)
Definition held (p : person) : Prop :=
  person_contacts p <> None /\ contacts_of p <> [].

(** Some row of [ABMultiValue] gives the person [k] a value that is not
    empty. *)
Definition has_value (values : list (Z * option string)) (k : Z) : Prop :=
  exists c, In (k, Some c) values /\ c <> "".

(** ** Further example data *)

(** Two directories of one root whose [Info.plist] give the same
    identifier, with different manifests. *)
Definition shared_world : world :=
  {| fs := {[ "/Volumes/Backups/iPhone/Active/" := Dir;
              "/Volumes/Backups/iPhone/Active/b" := Dir;
              "/Volumes/Backups/iPhone/Active/b/Info.plist"
                := File (CPlist {[ "Unique Identifier" := PString "0002" ]});
              "/Volumes/Backups/iPhone/Active/b/Manifest.db"
                := File (CManifest []);
              "/Volumes/Backups/iPhone/Active/c" := Dir;
              "/Volumes/Backups/iPhone/Active/c/Info.plist"
                := File (CPlist {[ "Unique Identifier" := PString "0002" ]});
              "/Volumes/Backups/iPhone/Active/c/Manifest.db"
                := File (CManifest [example_row "abcd1234"]) ]};
     copies := []; written := []; CONTACTS_LOOKUP := ∅ |}.

Definition shared_backup : IOSBackup :=
  {| backup_path := "/Volumes/Backups/iPhone/Active/b";
     info_plist := {[ "Unique Identifier" := PString "0002" ]};
     backup_id := Some (PString "0002");
     manifest_temp_path := "/tmp/0002/Manifest.db";
     backup_db := "/tmp/0002/Manifest.db" |}.

Definition app_row (id path : string) : file_row :=
  {| row_fileID := id; row_domain := "AppDomain-com.example.app";
     row_relativePath := path; row_flags := 1; row_file := "" |}.

(** A manifest in which one path of an application occurs twice. *)
Definition app_rows : list file_row :=
  [app_row "aa01" "Documents/notes.db"; sms_row;
   app_row "bb02" "Library/Prefs.plist"; app_row "cc03" "Documents/notes.db"].

Definition example_person (id : Z) (uuid first : option string) : person_row :=
  {| person_id := id; person_uuid := uuid; first_name := first;
     last_name := None; nickname := None; organization := None |}.

Definition example_people : list person_row :=
  [example_person 1 (Some "uuid-1") (Some "Alice");
   example_person 2 (Some "uuid-2") (Some "Bob")].

Definition example_values : list (Z * option string) :=
  [(1, Some "5551234567"); (2, Some "bob@example.com"); (1, Some "");
   (2, Some "5551234567")].

(** The people of the example once the values are filed. *)
Definition example_people_dict : PyDict.t person :=
  match @contacts_people digits_library example_people example_values with
  | Ok people => people
  | Raise _ => []
  end.

Definition shortcode_handle : handle :=
  new_handle {| handle_id := 8; handle_contact := Some "12345";
                handle_country := Some "us"; handle_service := Some "SMS" |}.

(** * Properties *)

Example join_relative :
  PosixPath.join "/b" ["ab"; "abcd"] = "/b/ab/abcd".
Proof. reflexivity. Qed.

Example join_absolute_component :
  PosixPath.join "/b" ["/a"; "/abc"] = "/abc".
Proof. reflexivity. Qed.

Example join_empty_component :
  PosixPath.join "/b" [""; ""] = "/b/".
Proof. reflexivity. Qed.

Example dirname_file :
  PosixPath.dirname "/tmp/x/Manifest.db" = "/tmp/x".
Proof. reflexivity. Qed.

Example isdigit_examples :
  PyStr.isdigit "12345" = true /\ PyStr.isdigit "" = false
  /\ PyStr.isdigit "12a" = false.
Proof. repeat split. Qed.

(** ** Phone numbers *)

Section PhoneFacts.
Context `{PhoneLibrary}.

Lemma canonical_truthy parsed : PyStr.truthy (canonical parsed) = true.
Proof. reflexivity. Qed.

Lemma parse_phone_number_parsed input parsed :
  phonenumbers_parse input "US" = Ok parsed ->
  parse_phone_number input = Ok (Some (canonical parsed)).
Proof.
  intros Hp. unfold parse_phone_number, parse_phone_number_with. now rewrite Hp.
Qed.

Lemma parse_phone_number_failed input e :
  phonenumbers_parse input "US" = Raise e ->
  parse_phone_number input = Ok None.
Proof.
  intros Hp. unfold parse_phone_number, parse_phone_number_with.
  rewrite Hp. cbn. now rewrite (phonenumbers_raises _ _ _ Hp).
Qed.

Lemma parse_phone_number_returns (input : option string) :
  exists r, parse_phone_number input = Ok r.
Proof.
  destruct (phonenumbers_parse input "US") as [parsed|e] eqn:Hp.
  - rewrite (parse_phone_number_parsed _ _ Hp). eauto.
  - rewrite (parse_phone_number_failed _ _ Hp). eauto.
Qed.

(** Whether a canonical string is parsed back to itself is a fact about
    the library that its interface leaves open: a library that parses
    nothing is within the interface. *)
Lemma canonical_reparse_is_up_to_the_library :
  @parse_phone_number rejecting_library
    (Some (canonical {| country_code := 1; national_number := 5551234567 |}))
  = Ok None.
Proof. reflexivity. Qed.

End PhoneFacts.

(** ** The contact loop *)

Section ContactFacts.
Context `{PhoneLibrary}.

Lemma classify_contact_skipped :
  classify_contact None = Ok None /\ classify_contact (Some "") = Ok None.
Proof. split; reflexivity. Qed.

Lemma contains_truthy c s : PyStr.contains c s = true -> PyStr.truthy s = true.
Proof. destruct s; [discriminate | reflexivity]. Qed.

(** C6, as amended: a contact value that is absent or empty is passed over
    and put under no type.  A non-empty contact string is typed by the
    first test that applies: it contains "@": email, unchanged; it is all
    digits and at most 6 long: shortcode, unchanged; the library parses it
    against the region US: phone, replaced by the canonical string of the
    parsed number; otherwise: unknown, unchanged. *)
Theorem classify_contact_spec (c : string) :
  c <> "" ->
  classify_contact None = Ok None
  /\ classify_contact (Some "") = Ok None
  /\ (PyStr.contains "@" c = true ->
      classify_contact (Some c) = Ok (Some (email, c)))
  /\ (PyStr.contains "@" c = false ->
      PyStr.isdigit c = true -> PyStr.len c <= 6 ->
      classify_contact (Some c) = Ok (Some (shortcode, c)))
  /\ (PyStr.contains "@" c = false ->
      ~ (PyStr.isdigit c = true /\ PyStr.len c <= 6) ->
      forall parsed,
        phonenumbers_parse (Some c) "US" = Ok parsed ->
        classify_contact (Some c) = Ok (Some (phone, canonical parsed)))
  /\ (PyStr.contains "@" c = false ->
      ~ (PyStr.isdigit c = true /\ PyStr.len c <= 6) ->
      forall e,
        phonenumbers_parse (Some c) "US" = Raise e ->
        classify_contact (Some c) = Ok (Some (unknown, c))).
Proof.
  intros Hc.
  assert (Ht : PyStr.truthy c = true) by (destruct c; [congruence | reflexivity]).
  assert (Hshort : ~ (PyStr.isdigit c = true /\ PyStr.len c <= 6) ->
                   PyStr.isdigit c && (PyStr.len c <=? 6) = false).
  { intros Hn. destruct (PyStr.isdigit c) eqn:Hd; [|reflexivity].
    destruct (Z.leb_spec (PyStr.len c) 6); [|reflexivity].
    exfalso. apply Hn. split; [reflexivity | assumption]. }
  repeat split.
  - intros Hat. unfold classify_contact. now rewrite Ht, Hat.
  - intros Hat Hd Hl. unfold classify_contact. rewrite Ht, Hat, Hd. cbn.
    apply Z.leb_le in Hl. now rewrite Hl.
  - intros Hat Hn parsed Hp. unfold classify_contact.
    rewrite Ht, Hat, (Hshort Hn). cbn.
    now rewrite (parse_phone_number_parsed _ _ Hp).
  - intros Hat Hn e Hp. unfold classify_contact.
    rewrite Ht, Hat, (Hshort Hn). cbn.
    now rewrite (parse_phone_number_failed _ _ Hp).
Qed.

End ContactFacts.

(** The amended C6 at the contact "5551234567", with the stand-in
    library. *)
Lemma classify_contact_spec_witness :
  "5551234567" <> ""
  /\ @classify_contact digits_library (Some "5551234567")
     = Ok (Some (phone, canonical {| country_code := 1;
                                     national_number := 5551234567 |})).
Proof.
  split; [discriminate|].
  destruct (@classify_contact_spec digits_library "5551234567")
    as (_ & _ & _ & _ & Hphone & _); [discriminate|].
  apply (Hphone eq_refl).
  - intros [_ Hl]. vm_compute in Hl. congruence.
  - reflexivity.
Defined.

Example canonical_example :
  canonical {| country_code := 1; national_number := 5551234567 |}
  = "+15551234567".
Proof. reflexivity. Qed.

(** C6 as stated fails on the empty string: whatever the library does, the
    row is passed over, so the string comes out under no type at all. *)
Lemma classify_contact_empty_untyped :
  ~ exists (L : PhoneLibrary) (ty : contact_type) (out : string),
      @classify_contact L (Some "") = Ok (Some (ty, out)).
Proof. intros (L & ty & out & Hc). cbn in Hc. congruence. Qed.

(** ** Paths *)

Section PathFacts.
Import PyStr.

Lemma append_cons (d : ascii) (a b : string) :
  String d a +:+ b = String d (a +:+ b).
Proof. reflexivity. Qed.

Lemma append_nil (b : string) : "" +:+ b = b.
Proof. reflexivity. Qed.

Lemma append_nonempty (a b : string) : b <> "" -> a +:+ b <> "".
Proof.
  destruct a; [now rewrite append_nil | rewrite append_cons; discriminate].
Qed.

Lemma endswith_append (c : ascii) (a b : string) :
  b <> "" -> endswith c (a +:+ b) = endswith c b.
Proof.
  intros Hb. induction a as [|d a IH]; [reflexivity|].
  rewrite append_cons.
  pose proof (append_nonempty a b Hb) as Hn.
  destruct (a +:+ b) eqn:Hab; [congruence|]. exact IH.
Qed.

Lemma endswith_cons (c d : ascii) (s : string) :
  s <> "" -> endswith c (String d s) = endswith c s.
Proof. destruct s; [congruence | reflexivity]. Qed.

Lemma contains_endswith (c : ascii) (s : string) :
  contains c s = false -> endswith c s = false.
Proof.
  induction s as [|d s IH]; [reflexivity|]. cbn [contains].
  intros Hc. apply orb_false_iff in Hc as [Hd Hs].
  destruct s; [exact Hd | exact (IH Hs)].
Qed.

Lemma contains_startswith (c : ascii) (s : string) :
  contains c s = false -> startswith c s = false.
Proof.
  destruct s as [|d s]; [reflexivity|]. cbn.
  intros Hc. now apply orb_false_iff in Hc as [Hd _].
Qed.

Lemma truthy_nonempty (s : string) : s <> "" -> truthy s = true.
Proof. destruct s; [congruence | reflexivity]. Qed.






(** The paths the scan loop builds: a directory entry joined to its root
    is not empty and does not end in a separator. *)
Lemma join_entry_plain (backup_root k e : string) :
  Os.entry_of backup_root k = Some e ->
  PosixPath.join backup_root [e] <> ""
  /\ endswith sep (PosixPath.join backup_root [e]) = false.
Proof.
  unfold Os.entry_of. destruct (Os.strip_prefix _ k) as [e'|]; [|discriminate].
  destruct (truthy e') eqn:Ht; [|discriminate].
  destruct (contains sep e') eqn:Hc; [discriminate|]. cbn.
  intros [= ->]. assert (He : e <> "") by (destruct e; [discriminate | congruence]).
  unfold PosixPath.join, PosixPath.join_step. cbn [fold_left].
  rewrite (contains_startswith _ _ Hc). cbn [orb].
  destruct (truthy backup_root) eqn:Hr; cbn [negb].
  - destruct (endswith sep backup_root) eqn:Hs; split.
    + now apply append_nonempty.
    + rewrite endswith_append by exact He. now apply contains_endswith.
    + apply append_nonempty. discriminate.
    + rewrite endswith_append by discriminate.
      change ("/" +:+ e) with (String sep e).
      rewrite endswith_cons by exact He. now apply contains_endswith.
  - split; [exact He | now apply contains_endswith].
Qed.

End PathFacts.

(** ** The format of the canonical string *)

Lemma pretty_N_char_digit (x : N) : ascii_digit (pretty_N_char x) = true.
Proof.
  unfold pretty_N_char.
  destruct x as [|[[[[|[]|]|[]|]|[[|[]|]|[]|]|]|[[[|[]|]|[]|]|[[|[]|]|[]|]|]|]];
    reflexivity.
Qed.

Lemma pretty_N_go_digits (x : N) (s : string) :
  ascii_digits s = true -> ascii_digits (pretty_N_go x s) = true.
Proof.
  revert s. induction (N.lt_wf_0 x) as [x _ IH]; intros s Hs.
  destruct (N.eq_dec x 0%N) as [->|Hx]; [now rewrite pretty_N_go_0|].
  rewrite pretty_N_go_step by lia. apply IH.
  - apply N.div_lt; lia.
  - cbn [ascii_digits]. now rewrite pretty_N_char_digit, Hs.
Qed.

Lemma pretty_N_go_truthy (x : N) (s : string) :
  (0 < x)%N \/ PyStr.truthy s = true -> PyStr.truthy (pretty_N_go x s) = true.
Proof.
  revert s. induction (N.lt_wf_0 x) as [x _ IH]; intros s Hor.
  destruct (N.eq_dec x 0%N) as [->|Hx].
  - rewrite pretty_N_go_0. destruct Hor as [Hlt|Hs]; [lia | exact Hs].
  - rewrite pretty_N_go_step by lia. apply IH; [apply N.div_lt; lia|].
    now right.
Qed.

(** The decimal notation of a number is a string of digits that is not
    empty. *)
Lemma pretty_N_digits (x : N) :
  PyStr.truthy (pretty x) = true /\ ascii_digits (pretty x) = true.
Proof.
  unfold pretty, pretty_N. destruct (decide (x = 0%N)) as [->|Hx].
  - now split.
  - split; [apply pretty_N_go_truthy; left; lia | now apply pretty_N_go_digits].
Qed.

Lemma ascii_digits_app (s t : string) :
  ascii_digits (s +:+ t) = ascii_digits s && ascii_digits t.
Proof.
  induction s as [|c s IH]; [reflexivity|].
  rewrite append_cons. cbn [ascii_digits]. now rewrite IH, andb_assoc.
Qed.

Lemma truthy_app (s t : string) :
  PyStr.truthy s = true -> PyStr.truthy (s +:+ t) = true.
Proof. destruct s as [|c s]; [discriminate|]. now rewrite append_cons. Qed.

(** An exception that the [except] clause does not name goes through to
    the caller. *)
Lemma parse_phone_number_with_propagates
    (parse : option string -> string -> result PhoneNumber)
    (input : option string) (e : exn) :
  parse input "US" = Raise e -> e <> NumberParseException ->
  parse_phone_number_with parse input = Raise e.
Proof.
  intros Hp He. unfold parse_phone_number_with. rewrite Hp. cbn.
  destruct e; try reflexivity. now destruct He.
Qed.

(** C10: whenever [phonenumbers.parse] raises nothing but
    [NumberParseException] on the input, [parse_phone_number] raises
    nothing: it returns [None] when the library raised, and otherwise a
    plus sign followed by the decimal digits of the country code and of
    the national number, a string of at least two characters after the
    sign all of which are ASCII digits. *)
Theorem parse_phone_number_total
    (parse : option string -> string -> result PhoneNumber)
    (input : option string) :
  (forall e, parse input "US" = Raise e -> e = NumberParseException) ->
  (exists parsed digits,
      parse input "US" = Ok parsed
      /\ parse_phone_number_with parse input = Ok (Some (String "+" digits))
      /\ digits = pretty (country_code parsed) +:+ pretty (national_number parsed)
      /\ (2 <= String.length digits)%nat
      /\ ascii_digits digits = true)
  \/ (parse input "US" = Raise NumberParseException
      /\ parse_phone_number_with parse input = Ok None).
Proof.
  intros Hraises. unfold parse_phone_number_with.
  destruct (parse input "US") as [parsed|e] eqn:Hp.
  - left. exists parsed, (pretty (country_code parsed)
                          +:+ pretty (national_number parsed)).
    destruct (pretty_N_digits (country_code parsed)) as [Htc Hdc].
    destruct (pretty_N_digits (national_number parsed)) as [Htn Hdn].
    split; [reflexivity|]. split; [reflexivity|]. split; [reflexivity|]. split.
    + destruct (pretty (country_code parsed)) as [|a cc]; [discriminate|].
      destruct (pretty (national_number parsed)) as [|b nn]; [discriminate|].
      rewrite append_cons. cbn [String.length].
      destruct cc as [|a' cc]; [rewrite append_nil; cbn; lia|].
      rewrite append_cons. cbn [String.length]. lia.
    + now rewrite ascii_digits_app, Hdc, Hdn.
  - right. rewrite (Hraises e eq_refl). now split.
Qed.

(** C10 on a library that reads strings of digits: a number, and a string
    that is none. *)
Lemma parse_phone_number_total_witness :
  parse_phone_number_with digits_parse (Some "5551234567")
  = Ok (Some "+15551234567")
  /\ parse_phone_number_with digits_parse (Some "Alice") = Ok None.
Proof.
  split.
  - destruct (parse_phone_number_total digits_parse (Some "5551234567"))
      as [(parsed & digits & Hp & Hr & Hd & _)|[Hp _]].
    + intros e He. vm_compute in He. discriminate.
    + vm_compute in Hp. injection Hp as <-. rewrite Hr, Hd. reflexivity.
    + vm_compute in Hp. discriminate.
  - destruct (parse_phone_number_total digits_parse (Some "Alice"))
      as [(parsed & digits & Hp & _)|[_ Hr]].
    + intros e He. vm_compute in He. now injection He as <-.
    + vm_compute in Hp. discriminate.
    + exact Hr.
Defined.



(** ** [IOSBackup.file] *)

(** C2, as amended: on a readable manifest, the lookup returns the file
    record of the matching row when exactly one row matches the domain and
    the path; when no row matches and when more than one row matches, it
    raises the same [FileNotFoundException] with the same message. *)
Theorem IOSBackup_file_spec (backup : IOSBackup) (domain path : string)
    (rows : list file_row) (w : world) :
  fs w !! backup_db backup = Some (File (CManifest rows)) ->
  (forall r,
      List.filter (matches domain path) rows = [r] ->
      IOSBackup_file backup domain path w
      = (Ok (IOSBackupFile_init backup domain path (row_fileID r)), w))
  /\ (length (List.filter (matches domain path) rows) <> 1%nat ->
      IOSBackup_file backup domain path w
      = (Raise (FileNotFoundException (not_found_message domain path)), w)).
Proof.
  intros Hdb. unfold IOSBackup_file, bind, select_Files. rewrite Hdb. split.
  - intros r ->. reflexivity.
  - intros Hlen.
    destruct (List.filter (matches domain path) rows) as [|r [|r' rest]];
      try reflexivity.
    now contradiction Hlen.
Qed.

(** The amended C2 on a manifest of one row. *)
Lemma IOSBackup_file_spec_witness :
  IOSBackup_file example_backup "HomeDomain" "a/b.db"
    (world_with_manifest [example_row "abcd1234"])
  = (Ok (IOSBackupFile_init example_backup "HomeDomain" "a/b.db" "abcd1234"),
     world_with_manifest [example_row "abcd1234"]).
Proof.
  destruct (IOSBackup_file_spec example_backup "HomeDomain" "a/b.db"
              [example_row "abcd1234"]
              (world_with_manifest [example_row "abcd1234"]))
    as [Hone _]; [reflexivity|].
  exact (Hone (example_row "abcd1234") eq_refl).
Defined.

(** C2 as stated fails: with two rows for the same domain and path the
    lookup raises [FileNotFoundException], the very exception, message
    included, that it raises when no row matches. *)
Lemma IOSBackup_file_ambiguous_is_not_found :
  fst (IOSBackup_file example_backup "HomeDomain" "a/b.db"
         (world_with_manifest [example_row "abcd1234"; example_row "ef015678"]))
  = Raise (FileNotFoundException "File a/b.db not found in domain HomeDomain")
  /\ fst (IOSBackup_file example_backup "HomeDomain" "a/b.db"
            (world_with_manifest []))
     = fst (IOSBackup_file example_backup "HomeDomain" "a/b.db"
              (world_with_manifest
                 [example_row "abcd1234"; example_row "ef015678"])).
Proof. split; reflexivity. Qed.

(** ** [make_temporary_copy] *)

(** What [os.makedirs] does to the store. *)

Lemma mkdir_exist_ok_keeps (f f' : gmap string node) (d p : string) (n : node) :
  Os.mkdir_exist_ok f d = Ok f' -> f !! p = Some n -> f' !! p = Some n.
Proof.
  unfold Os.mkdir_exist_ok. destruct (f !! d) as [[c|]|] eqn:Hd;
    [discriminate | now intros [= <-] |].
  intros [= <-] Hp. rewrite lookup_insert_ne; [exact Hp | congruence].
Qed.

Lemma mkdir_exist_ok_adds_dirs (f f' : gmap string node) (d p : string)
    (c : content) :
  Os.mkdir_exist_ok f d = Ok f' -> f' !! p = Some (File c) ->
  f !! p = Some (File c).
Proof.
  unfold Os.mkdir_exist_ok. destruct (f !! d) as [[c0|]|] eqn:Hd;
    [discriminate | now intros [= <-] |].
  intros [= <-]. rewrite lookup_insert. case_decide; [discriminate | trivial].
Qed.

Lemma mkdir_exist_ok_raises (f : gmap string node) (d : string) (e : exn) :
  Os.mkdir_exist_ok f d = Raise e -> e = OSError d.
Proof.
  unfold Os.mkdir_exist_ok. destruct (f !! d) as [[c0|]|]; congruence.
Qed.

Lemma mkdir_all_raise (ds : list string) (e : exn) :
  mkdir_all ds (Raise e) = Raise e.
Proof. induction ds as [|d ds IH]; [reflexivity | exact IH]. Qed.

Lemma mkdir_all_keeps (ds : list string) (f f' : gmap string node)
    (p : string) (n : node) :
  mkdir_all ds (Ok f) = Ok f' -> f !! p = Some n -> f' !! p = Some n.
Proof.
  revert f. induction ds as [|d ds IH]; intros f; cbn.
  - now intros [= <-].
  - destruct (Os.mkdir_exist_ok f d) as [f1|e] eqn:Hd.
    + intros Hall Hp. apply (IH f1 Hall). eapply mkdir_exist_ok_keeps; eauto.
    + fold (mkdir_all ds (Raise e)). now rewrite mkdir_all_raise.
Qed.

Lemma mkdir_all_adds_dirs (ds : list string) (f f' : gmap string node)
    (p : string) (c : content) :
  mkdir_all ds (Ok f) = Ok f' -> f' !! p = Some (File c) ->
  f !! p = Some (File c).
Proof.
  revert f. induction ds as [|d ds IH]; intros f; cbn.
  - now intros [= <-].
  - destruct (Os.mkdir_exist_ok f d) as [f1|e] eqn:Hd.
    + intros Hall Hp. eapply mkdir_exist_ok_adds_dirs; [exact Hd|].
      now apply (IH f1).
    + fold (mkdir_all ds (Raise e)). now rewrite mkdir_all_raise.
Qed.

Lemma mkdir_all_raises (ds : list string) (f : gmap string node) (e : exn) :
  mkdir_all ds (Ok f) = Raise e -> exists d, e = OSError d.
Proof.
  revert f. induction ds as [|d ds IH]; intros f; cbn; [discriminate|].
  destruct (Os.mkdir_exist_ok f d) as [f1|e1] eqn:Hd.
  - apply IH.
  - fold (mkdir_all ds (Raise e1)). rewrite mkdir_all_raise.
    intros [= <-]. exists d. eapply mkdir_exist_ok_raises, Hd.
Qed.

Lemma makedirs_Ok (d : string) (w w' : world) :
  Os.makedirs d w = (Ok tt, w') ->
  mkdir_all (Os.prefixes_from EmptyString d) (Ok (fs w)) = Ok (fs w').
Proof.
  unfold Os.makedirs. fold (mkdir_all (Os.prefixes_from EmptyString d) (Ok (fs w))).
  destruct (mkdir_all _ _) as [f|e]; [|discriminate]. now intros [= <-].
Qed.

Lemma makedirs_Raise (d : string) (w w' : world) (e : exn) :
  Os.makedirs d w = (Raise e, w') -> w' = w /\ exists p, e = OSError p.
Proof.
  unfold Os.makedirs. fold (mkdir_all (Os.prefixes_from EmptyString d) (Ok (fs w))).
  destruct (mkdir_all _ _) as [f|e1] eqn:Hm; [discriminate|].
  intros [= <- <-]. split; [reflexivity|]. eapply mkdir_all_raises, Hm.
Qed.

Section TemporaryCopy.
Variables (id src_path : string) (dst_path : option string).

Local Abbreviation tmp_path := (tmp_path_of id src_path dst_path).

Lemma makedirs_copies (d : string) (w : world) :
  copies (snd (Os.makedirs d w)) = copies w.
Proof.
  unfold Os.makedirs. now destruct (fold_left _ _ _).
Qed.

(** A copy that is there is returned as it is. *)
Lemma make_temporary_copy_present (w : world) (n : node) :
  fs w !! tmp_path = Some n ->
  make_temporary_copy id src_path dst_path w = (Ok tmp_path, w).
Proof.
  intros Hn. unfold make_temporary_copy, bind, Os.path_exists.
  fold tmp_path. now rewrite Hn.
Qed.

(** A call that returns leaves the copy in place. *)
Lemma make_temporary_copy_returns (w w1 : world) (p : string) :
  make_temporary_copy id src_path dst_path w = (Ok p, w1) ->
  p = tmp_path /\ exists n, fs w1 !! tmp_path = Some n.
Proof.
  unfold make_temporary_copy, bind, Os.path_exists. fold tmp_path.
  destruct (fs w !! tmp_path) as [n|] eqn:Hn.
  - intros [= <- <-]. eauto.
  - destruct (Os.makedirs _ w) as [[[]|e] w'] eqn:Hm; [|discriminate].
    unfold Os.copy2. destruct (fs w' !! src_path) as [[c|]|]; try discriminate.
    unfold ret. intros [= <- <-]. split; [reflexivity|].
    exists (File c). cbn. apply lookup_insert_eq.
Qed.

(** One call makes no copy or one, of the source onto the temporary
    path; a call that raises made none. *)
Lemma make_temporary_copy_copies (w : world) :
  let c := make_temporary_copy id src_path dst_path w in
  (copies (snd c) = copies w
   \/ copies (snd c) = (copies w ++ [(src_path, tmp_path)])%list)
  /\ (forall e, fst c = Raise e -> copies (snd c) = copies w).
Proof.
  unfold make_temporary_copy, bind, Os.path_exists. fold tmp_path.
  destruct (fs w !! tmp_path) as [n|] eqn:Hn; cbn.
  - split; [now left | reflexivity].
  - pose proof (makedirs_copies (PosixPath.dirname tmp_path) w) as Hm.
    destruct (Os.makedirs _ w) as [[[]|e] w'] eqn:Hmk; cbn in Hm |- *.
    + unfold Os.copy2.
      destruct (fs w' !! src_path) as [[c|]|]; cbn; rewrite ?Hm;
        (split; [auto | intros; congruence]).
    + split; [now left | now intros].
Qed.

(** A call that finds nothing at the temporary path and returns has
    copied the source there: the copy holds what the source held. *)
Lemma make_temporary_copy_absent (w w1 : world) (p : string) :
  fs w !! tmp_path = None ->
  make_temporary_copy id src_path dst_path w = (Ok p, w1) ->
  exists c, fs w !! src_path = Some (File c)
            /\ fs w1 !! tmp_path = Some (File c)
            /\ copies w1 = (copies w ++ [(src_path, tmp_path)])%list.
Proof.
  intros Hnone. unfold make_temporary_copy, bind, Os.path_exists.
  fold tmp_path. rewrite Hnone.
  pose proof (makedirs_copies (PosixPath.dirname tmp_path) w) as Hcopies.
  destruct (Os.makedirs _ w) as [[[]|e] w'] eqn:Hm; [|discriminate].
  cbn [snd] in Hcopies. apply makedirs_Ok in Hm. unfold Os.copy2.
  destruct (fs w' !! src_path) as [[c|]|] eqn:Hsrc; try discriminate.
  unfold ret. intros [= <- <-]. exists c. cbn [fs copies]. split; [|split].
  - eapply mkdir_all_adds_dirs; eauto.
  - apply lookup_insert_eq.
  - now rewrite Hcopies.
Qed.

(** C5: of two calls of [make_temporary_copy] in a row with the same
    arguments, whenever the first returns a path, it is the temporary
    path and a copy is there: the node that was there before the call,
    which then did nothing, or else a file with the content of the source,
    copied by this call; the second call returns the same path and changes
    nothing: it makes no copy and the copy of the first call is still
    there; and the two calls together copy the source at most once. *)
Theorem make_temporary_copy_idempotent (w : world) :
  let first := make_temporary_copy id src_path dst_path w in
  let second := make_temporary_copy id src_path dst_path (snd first) in
  (forall p, fst first = Ok p ->
             p = tmp_path_of id src_path dst_path
             /\ fst second = Ok p
             /\ snd second = snd first
             /\ (exists n, fs (snd first) !! p = Some n
                           /\ fs (snd second) !! p = Some n
                           /\ match fs w !! p with
                              | Some n0 => n = n0 /\ snd first = w
                              | None =>
                                  exists c,
                                    fs w !! src_path = Some (File c)
                                    /\ n = File c
                                    /\ copies (snd first)
                                       = (copies w ++ [(src_path, p)])%list
                              end))
  /\ (copies (snd second) = copies w
      \/ copies (snd second)
         = (copies w ++ [(src_path, tmp_path_of id src_path dst_path)])%list).
Proof.
  intros first second. subst first second.
  destruct (make_temporary_copy id src_path dst_path w) as [r1 w1] eqn:H1.
  cbn [fst snd].
  pose proof (make_temporary_copy_copies w) as [Hc1 Hr1].
  rewrite H1 in Hc1, Hr1. cbn [fst snd] in Hc1, Hr1.
  pose proof (make_temporary_copy_copies w1) as [Hc2 _]. cbn zeta in Hc2.
  destruct r1 as [p|e].
  - destruct (make_temporary_copy_returns _ _ _ H1) as [-> [n Hn]].
    rewrite (make_temporary_copy_present w1 n Hn). cbn [fst snd].
    split; [|exact Hc1]. intros p [= <-].
    split; [reflexivity|]. split; [reflexivity|]. split; [reflexivity|].
    exists n. split; [exact Hn|]. split; [exact Hn|].
    fold tmp_path. destruct (fs w !! tmp_path) as [n0|] eqn:Hbefore.
    + rewrite (make_temporary_copy_present w n0 Hbefore) in H1.
      injection H1 as <-. split; [congruence | reflexivity].
    + destruct (make_temporary_copy_absent w w1 tmp_path Hbefore H1)
        as (c & Hsrc & Hcopy & Hcopies).
      exists c. split; [exact Hsrc|]. split; [congruence | exact Hcopies].
  - split; [intros p [=]|].
    rewrite (Hr1 e eq_refl) in Hc2. exact Hc2.
Qed.

End TemporaryCopy.

(** ** Dicts and loops *)

Section DictFacts.
Context {V : Type}.
Implicit Types (d : PyDict.t V) (k : Z) (v : V).

Lemma get_set k k' v d :
  PyDict.get k (PyDict.set k' v d)
  = if Z.eqb k k' then Some v else PyDict.get k d.
Proof.
  induction d as [|[k0 v0] d IH]; cbn.
  - now destruct (Z.eqb_spec k k').
  - destruct (Z.eqb_spec k' k0) as [->|Hne]; cbn.
    + now destruct (Z.eqb_spec k k0).
    + destruct (Z.eqb_spec k k0) as [->|Hk].
      * destruct (Z.eqb_spec k0 k'); [congruence | reflexivity].
      * exact IH.
Qed.

Lemma get_alter (f : V -> V) k k' d :
  PyDict.get k (PyDict.alter f k' d)
  = if Z.eqb k k' then option_map f (PyDict.get k d) else PyDict.get k d.
Proof.
  induction d as [|[k0 v0] d IH]; cbn.
  - now destruct (Z.eqb k k').
  - destruct (Z.eqb_spec k' k0) as [->|Hne]; cbn.
    + now destruct (Z.eqb_spec k k0).
    + destruct (Z.eqb_spec k k0) as [->|Hk].
      * destruct (Z.eqb_spec k0 k'); [congruence | reflexivity].
      * exact IH.
Qed.

(** Mutating a stored object moves no key. *)
Lemma get_alter_None (f : V -> V) k k' d :
  PyDict.get k (PyDict.alter f k' d) = None <-> PyDict.get k d = None.
Proof.
  rewrite get_alter. destruct (Z.eqb k k'); [|reflexivity].
  destruct (PyDict.get k d); cbn; split; congruence.
Qed.

Lemma get_fold_set_None (key : V -> Z) (rows : list V) d k :
  PyDict.get k (fold_left (fun d row => PyDict.set (key row) row d) rows d) = None
  <-> PyDict.get k d = None /\ forall row, In row rows -> key row <> k.
Proof.
  revert d. induction rows as [|row rows IH]; intros d; cbn [fold_left].
  - split; [intros Hd; split; [exact Hd | intros row []] | now intros [Hd _]].
  - rewrite IH, get_set. destruct (Z.eqb_spec k (key row)) as [Hk|Hk].
    + split; [intros [[=] _]|]. intros [_ Hall].
      now destruct (Hall row (or_introl eq_refl)).
    + split; intros [Hd Hall]; (split; [exact Hd|]).
      * intros row0 [<-|Hin]; [congruence | now apply Hall].
      * intros row0 Hin. apply Hall. now right.
Qed.

Lemma get_fold_set_Some (key : V -> Z) (rows : list V) d k v :
  PyDict.get k (fold_left (fun d row => PyDict.set (key row) row d) rows d) = Some v ->
  (In v rows /\ key v = k) \/ PyDict.get k d = Some v.
Proof.
  revert d. induction rows as [|row rows IH]; intros d; cbn [fold_left];
    [now right|].
  intros Hget. apply IH in Hget as [[Hin Hk]|Hget].
  - left. split; [now right | exact Hk].
  - rewrite get_set in Hget. destruct (Z.eqb_spec k (key row)) as [Hk|Hk].
    + injection Hget as <-. left. split; [now left | congruence].
    + now right.
Qed.

(** A key is absent from a dict built from rows when no row has it. *)
Lemma get_by_key_None (key : V -> Z) (rows : list V) k :
  PyDict.get k (PyDict.by_key key rows) = None
  <-> forall row, In row rows -> key row <> k.
Proof.
  unfold PyDict.by_key. rewrite get_fold_set_None. cbn.
  split; [now intros [_ Hall] | now split].
Qed.

(** What is stored under a key is one of the rows, and has that key. *)
Lemma get_by_key_Some (key : V -> Z) (rows : list V) k v :
  PyDict.get k (PyDict.by_key key rows) = Some v -> In v rows /\ key v = k.
Proof.
  unfold PyDict.by_key. intros Hget.
  now apply get_fold_set_Some in Hget as [Hin|[=]].
Qed.

Lemma get_In_values k v d : PyDict.get k d = Some v -> In v (PyDict.values d).
Proof.
  induction d as [|[k0 v0] d IH]; cbn; [discriminate|].
  destruct (Z.eqb k k0); [intros [= ->]; now left | right; now apply IH].
Qed.

Lemma mem_false k d : PyDict.mem k d = false <-> PyDict.get k d = None.
Proof. unfold PyDict.mem. destruct (PyDict.get k d); split; congruence. Qed.


Lemma getitem_Ok k d v : PyDict.getitem k d = Ok v <-> PyDict.get k d = Some v.
Proof. unfold PyDict.getitem. destruct (PyDict.get k d); split; congruence. Qed.

Lemma deref_In k v d (refs : list Z) :
  In k refs -> PyDict.get k d = Some v -> In v (deref d refs).
Proof.
  intros Hin Hget. unfold deref. apply list_elem_of_In, list_elem_of_omap.
  exists k. split; [now apply list_elem_of_In | exact Hget].
Qed.

End DictFacts.

Section LoopFacts.
Context {S R : Type} (step : S -> R -> result S).

(** What holds before a loop and is kept by every round that returns
    holds when the loop returns. *)
Lemma for_each_invariant (I : S -> Prop) (rows : list R) :
  (forall st row st', In row rows -> I st -> step st row = Ok st' -> I st') ->
  forall st st', I st -> for_each step rows st = Ok st' -> I st'.
Proof.
  induction rows as [|row rows IH]; intros Hstep st st' HI; cbn.
  - now intros [= <-].
  - destruct (step st row) as [st1|e] eqn:Hs; cbn; [|discriminate].
    apply IH; [|eapply Hstep; eauto; now left].
    intros st0 row0 st0' Hin. apply Hstep. now right.
Qed.



End LoopFacts.

(** ** [backup_messages] *)

Section MessagesFacts.
Context `{PhoneLibrary}.
Implicit Types (lookup : gmap string (string * string)).

Lemma normalized_contact_returns (h : handle) :
  exists contact, normalized_contact h = Ok contact.
Proof.
  unfold normalized_contact.
  destruct (parse_phone_number_returns (handle_contact (handle_cols h)))
    as [[p|] ->]; cbn; [destruct (PyStr.truthy p)|]; eauto.
Qed.


(** *** The loop over [chat_handle_join] *)


Lemma chat_handles_step_keys lookup handles chats row handles' chats' :
  chat_handles_step lookup (handles, chats) row = Ok (handles', chats') ->
  (forall k, PyDict.get k handles' = None <-> PyDict.get k handles = None)
  /\ (forall k, PyDict.get k chats' = None <-> PyDict.get k chats = None).
Proof.
  destruct row as [c h]. cbn.
  destruct (PyDict.getitem h handles) as [hd|e1]; cbn; [|discriminate].
  destruct (normalized_contact_returns hd) as [contact ->]. cbn.
  destruct (PyDict.getitem c chats) as [ch|e1]; cbn; [|discriminate].
  intros [= <- <-]. split; intros k; apply get_alter_None.
Qed.


(** *** The loop over the messages *)

Lemma messages_step_no_handle lookup handles (m : message) :
  PyDict.mem (message_handle_id (message_cols m)) handles = false ->
  messages_step lookup handles m = Ok m.
Proof. intros Hm. unfold messages_step. now rewrite Hm. Qed.

Lemma messages_step_returns lookup handles (m : message) :
  exists m', messages_step lookup handles m = Ok m'.
Proof.
  unfold messages_step.
  destruct (PyDict.mem _ handles) eqn:Hm; cbn; [|eauto].
  unfold PyDict.mem in Hm. unfold PyDict.getitem.
  destruct (PyDict.get _ handles) as [hd|]; [|discriminate]. cbn.
  destruct (normalized_contact_returns hd) as [contact ->]. cbn. eauto.
Qed.

Lemma for_values_returns {V} (step : V -> result V) (d : PyDict.t V) :
  (forall v, exists v', step v = Ok v') ->
  exists d', for_values step d = Ok d'.
Proof.
  intros Hstep. induction d as [|[k v] d [d' IH]]; cbn; [eauto|].
  destruct (Hstep v) as [v' ->]. cbn. rewrite IH. cbn. eauto.
Qed.

Lemma for_values_get {V} (step : V -> result V) (d d' : PyDict.t V) (k : Z) :
  for_values step d = Ok d' ->
  match PyDict.get k d with
  | Some v => exists v', step v = Ok v' /\ PyDict.get k d' = Some v'
  | None => PyDict.get k d' = None
  end.
Proof.
  revert d'. induction d as [|[k0 v] d IH]; intros d'; cbn.
  - now intros [= <-].
  - destruct (step v) as [v'|] eqn:Hv; cbn; [|discriminate].
    destruct (for_values step d) as [d1|]; cbn; [|discriminate].
    intros [= <-]. cbn. destruct (Z.eqb k k0); [eauto | now apply IH].
Qed.

(** *** The loop over [chat_message_join] *)


Lemma chat_messages_step_Ok msgs chats c m chats' :
  chat_messages_step msgs chats (c, m) = Ok chats' ->
  PyDict.get c chats <> None /\ PyDict.get m msgs <> None
  /\ chats' = PyDict.alter (append_message m) c chats.
Proof.
  cbn. unfold PyDict.getitem.
  destruct (PyDict.get c chats); cbn; [|discriminate].
  destruct (PyDict.get m msgs); cbn; [|discriminate].
  intros [= <-]. repeat split; discriminate.
Qed.

(** *** The loop over [message_attachment_join] *)


Lemma message_attachments_step_Ok atts msgs m a msgs' :
  message_attachments_step atts msgs (m, a) = Ok msgs' ->
  PyDict.get m msgs <> None
  /\ exists att, PyDict.get a atts = Some att
                 /\ msgs' = PyDict.alter (append_attachment att) m msgs.
Proof.
  cbn. unfold PyDict.getitem.
  destruct (PyDict.get m msgs); cbn; [|discriminate].
  destruct (PyDict.get a atts) as [att|]; cbn; [|discriminate].
  intros [= <-]. split; [discriminate | eauto].
Qed.

End MessagesFacts.

Section Pipeline.
Context `{PhoneLibrary}.

Lemma by_key_new_None {R V : Type} (new : R -> V) (key : R -> Z)
    (keyV : V -> Z) (rows : list R) (k : Z) :
  (forall r, keyV (new r) = key r) ->
  no_row key rows k ->
  PyDict.get k (PyDict.by_key keyV (map new rows)) = None.
Proof.
  intros Hkey Hno. apply get_by_key_None. intros v Hin.
  apply in_map_iff in Hin as (r & <- & Hr). rewrite Hkey. now apply Hno.
Qed.

Lemma chat_handles_loop_keys lookup rows handles chats handles' chats' :
  for_each (chat_handles_step lookup) rows (handles, chats) = Ok (handles', chats') ->
  (forall k, PyDict.get k handles' = None <-> PyDict.get k handles = None)
  /\ (forall k, PyDict.get k chats' = None <-> PyDict.get k chats = None).
Proof.
  apply (for_each_invariant (chat_handles_step lookup)
           (fun st => (forall k, PyDict.get k (fst st) = None
                                 <-> PyDict.get k handles = None)
                      /\ (forall k, PyDict.get k (snd st) = None
                                    <-> PyDict.get k chats = None))
           rows); [|now split].
  intros [hs cs] row [hs' cs'] _ [Hh Hc] Hstep.
  apply chat_handles_step_keys in Hstep as [Hh' Hc']. cbn in *.
  split; intros k; [rewrite Hh' | rewrite Hc']; auto.
Qed.


Lemma chat_messages_loop_keys msgs rows chats chats' :
  for_each (chat_messages_step msgs) rows chats = Ok chats' ->
  forall k, PyDict.get k chats' = None <-> PyDict.get k chats = None.
Proof.
  apply (for_each_invariant (chat_messages_step msgs)
           (fun cs => forall k, PyDict.get k cs = None
                                <-> PyDict.get k chats = None)
           rows); [|reflexivity].
  intros cs [c m] cs' _ Hcs Hstep.
  apply chat_messages_step_Ok in Hstep as (_ & _ & ->).
  intros k. now rewrite get_alter_None.
Qed.




End Pipeline.

(** *** The check on the contact table *)

Lemma makedirs_frame (d : string) (w : world) :
  written (snd (Os.makedirs d w)) = written w
  /\ CONTACTS_LOOKUP (snd (Os.makedirs d w)) = CONTACTS_LOOKUP w.
Proof. unfold Os.makedirs. now destruct (fold_left _ _ _). Qed.

(** Opening a database writes no output and leaves the table alone. *)
Lemma make_temporary_copy_frame (id src_path : string) (dst_path : option string)
    (w : world) :
  written (snd (make_temporary_copy id src_path dst_path w)) = written w
  /\ CONTACTS_LOOKUP (snd (make_temporary_copy id src_path dst_path w))
     = CONTACTS_LOOKUP w.
Proof.
  unfold make_temporary_copy, bind, Os.path_exists.
  destruct (fs w !! _); [now split|].
  pose proof (makedirs_frame (PosixPath.dirname (tmp_path_of id src_path dst_path)) w)
    as Hm.
  destruct (Os.makedirs _ w) as [[[]|e] w']; cbn in Hm |- *; [|exact Hm].
  unfold Os.copy2. now destruct (fs w' !! src_path) as [[c|]|].
Qed.

Lemma open_sms_db_frame (backup : IOSBackup) (w : world) :
  written (snd (open_sms_db backup w)) = written w
  /\ CONTACTS_LOOKUP (snd (open_sms_db backup w)) = CONTACTS_LOOKUP w.
Proof.
  unfold open_sms_db, bind, IOSBackup_file, bind, select_Files.
  destruct (fs w !! backup_db backup) as [[[p|rows|d|b]|]|]; try now split.
  destruct (List.filter _ rows) as [|r [|r' rest]]; try now split.
  unfold ret, IOSBackupFile_open_db, bind, sqlite3_connect.
  match goal with
  | |- context [make_temporary_copy ?i ?s ?d w] =>
      pose proof (make_temporary_copy_frame i s d w) as Hf;
      destruct (make_temporary_copy i s d w) as [[tmp|e] w']
  end; exact Hf.
Qed.

Section ContactsCheck.
Context `{PhoneLibrary}.

(** C8: run on an empty contact table, [backup_messages] raises before any
    output is written; once the sms database is open, which is the first
    thing it does, what it raises is [ContactsNotDefinedException], and the
    loop over the backup functions does not catch it; when the sms
    database cannot be opened, what it raises is the error of the lookup
    or of the copy, and the table is not looked at. *)
Theorem backup_messages_requires_contacts (backup : IOSBackup) (w : world) :
  CONTACTS_LOOKUP w = ∅ ->
  (exists e, fst (backup_messages backup w) = Raise e)
  /\ written (snd (backup_messages backup w)) = written w
  /\ (forall sms w1,
         open_sms_db backup w = (Ok sms, w1) ->
         backup_messages backup w = (Raise contacts_not_loaded, w1)
         /\ forall rest,
             run_backup_functions (backup_messages :: rest) backup w
             = (Raise contacts_not_loaded, w1))
  /\ (forall e w1,
         open_sms_db backup w = (Raise e, w1) ->
         backup_messages backup w = (Raise e, w1)).
Proof.
  intros Hempty.
  pose proof (open_sms_db_frame backup w) as [Hw Hl].
  assert (Hrun : forall sms w1,
             open_sms_db backup w = (Ok sms, w1) ->
             backup_messages backup w = (Raise contacts_not_loaded, w1)).
  { intros sms w1 Hopen. rewrite Hopen in Hl. cbn in Hl.
    unfold backup_messages, bind. rewrite Hopen. unfold get_CONTACTS_LOOKUP.
    rewrite bool_decide_true by congruence. reflexivity. }
  destruct (open_sms_db backup w) as [[sms|e] w1] eqn:Hopen; cbn in Hw.
  - rewrite (Hrun sms w1 eq_refl). cbn [fst snd].
    split; [eauto|]. split; [exact Hw|]. split; [|intros; discriminate].
    intros sms' w1' [= <- <-]. split; [reflexivity|].
    intros rest. cbn [run_backup_functions].
    unfold bind, try. now rewrite (Hrun sms w1 eq_refl).
  - unfold backup_messages, bind. rewrite Hopen. cbn [fst snd].
    split; [eauto|]. split; [exact Hw|]. split; [intros; discriminate|].
    now intros e' w1' [= <- <-].
Qed.

End ContactsCheck.

(** *** What the chats are written with *)

Section Output.
Context `{PhoneLibrary}.
Implicit Types (lookup : gmap string (string * string)).

Lemma chats_keyed_alter (f : chat -> chat) (c : Z) (chats : PyDict.t chat) :
  (forall ch, chat_cols (f ch) = chat_cols ch) ->
  chats_keyed chats -> chats_keyed (PyDict.alter f c chats).
Proof.
  intros Hf Hk k ch. rewrite get_alter.
  destruct (Z.eqb k c); [|apply Hk].
  destruct (PyDict.get k chats) as [ch0|] eqn:Hget; [|discriminate].
  intros [= <-]. rewrite Hf. now apply Hk.
Qed.

Lemma chat_handles_loop_keyed lookup rows handles chats handles' chats' :
  for_each (chat_handles_step lookup) rows (handles, chats) = Ok (handles', chats') ->
  chats_keyed chats -> chats_keyed chats'.
Proof.
  intros Hloop Hk.
  apply (for_each_invariant (chat_handles_step lookup)
           (fun st => chats_keyed (snd st)) rows) with (st := (handles, chats))
           (st' := (handles', chats')); [|exact Hk|exact Hloop].
  intros [hs cs] [c h] [hs' cs'] _ Hst. cbn.
  destruct (PyDict.getitem h hs) as [hd|e1]; cbn; [|discriminate].
  destruct (normalized_contact_returns hd) as [contact ->]. cbn.
  destruct (PyDict.getitem c cs) as [ch|e1]; cbn; [|discriminate].
  intros [= <- <-]. now apply chats_keyed_alter.
Qed.

Lemma chat_messages_loop_keyed msgs rows chats chats' :
  for_each (chat_messages_step msgs) rows chats = Ok chats' ->
  chats_keyed chats -> chats_keyed chats'.
Proof.
  intros Hloop Hk.
  apply (for_each_invariant (chat_messages_step msgs) chats_keyed rows)
    with (st := chats); [|exact Hk|exact Hloop].
  intros cs [c m] cs' _ Hcs Hstep.
  apply chat_messages_step_Ok in Hstep as (_ & _ & ->).
  now apply chats_keyed_alter.
Qed.

Lemma lists_message_alter (c m c' m' : Z) (chats : PyDict.t chat) :
  lists_message c m chats ->
  lists_message c m (PyDict.alter (append_message m') c' chats).
Proof.
  intros (ch & refs & Hget & Hrefs & Hin). unfold lists_message.
  rewrite get_alter, Hget. destruct (Z.eqb c c'); [|eauto].
  eexists _, _. split; [reflexivity|]. cbn. rewrite Hrefs. cbn.
  split; [reflexivity|]. apply in_or_app. now left.
Qed.

(** A loop over [chat_message_join] that returns has found the message of
    every row, and has listed it in the chat of the row. *)
Lemma chat_messages_loop_joins msgs rows chats chats' c m :
  for_each (chat_messages_step msgs) rows chats = Ok chats' ->
  In (c, m) rows ->
  PyDict.get m msgs <> None /\ lists_message c m chats'.
Proof.
  revert chats. induction rows as [|[c0 m0] rows IH]; intros chats Hloop Hin;
    [destruct Hin|].
  cbn [for_each] in Hloop.
  destruct (chat_messages_step msgs chats (c0, m0)) as [chats1|e] eqn:Hstep;
    cbn in Hloop; [|discriminate].
  destruct Hin as [[= -> ->]|Hin]; [|now apply (IH chats1)].
  apply chat_messages_step_Ok in Hstep as (Hc & Hm & ->). split; [exact Hm|].
  apply (for_each_invariant (chat_messages_step msgs) (lists_message c m) rows)
    with (st := PyDict.alter (append_message m) c chats); [| |exact Hloop].
  - intros cs [c1 m1] cs' _ Hcs Hs.
    apply chat_messages_step_Ok in Hs as (_ & _ & ->).
    now apply lists_message_alter.
  - destruct (PyDict.get c chats) as [ch|] eqn:Hget; [|congruence].
    unfold lists_message. rewrite get_alter, Z.eqb_refl, Hget. cbn.
    eexists _, _. split; [reflexivity|]. cbn. split; [reflexivity|].
    apply in_or_app. right. now left.
Qed.

Lemma message_attachments_loop_unsent atts rows msgs msgs' m r :
  for_each (message_attachments_step atts) rows msgs = Ok msgs' ->
  unsent m r msgs -> unsent m r msgs'.
Proof.
  intros Hloop Hu.
  apply (for_each_invariant (message_attachments_step atts) (unsent m r) rows)
    with (st := msgs); [|exact Hu|exact Hloop].
  intros ms [m1 a1] ms' _ (mj & Hget & Hcols & Hu1 & Hu2) Hstep.
  apply message_attachments_step_Ok in Hstep as (_ & att & _ & ->).
  unfold unsent. rewrite get_alter, Hget.
  destruct (Z.eqb m m1); cbn; eauto 10.
Qed.

Lemma write_message_data_appends msgs (chats : list chat) (w : world) :
  fst (write_message_data msgs chats w) = Ok tt
  /\ exists more, written (snd (write_message_data msgs chats w))
                  = (written w ++ more)%list.
Proof.
  revert w. induction chats as [|c chats IH]; intros w; cbn.
  - split; [reflexivity|]. exists []. now rewrite app_nil_r.
  - unfold bind. destruct (messages c) as [refs|]; cbn.
    + destruct (IH {| fs := fs w; copies := copies w;
                      written := (written w ++ [("messages/message-data/"
                        +:+ pretty (chat_id (chat_cols c)) +:+ ".json",
                        JMessages (deref msgs refs))])%list;
                      CONTACTS_LOOKUP := CONTACTS_LOOKUP w |})
        as [Hok [more Hmore]].
      split; [exact Hok|]. rewrite Hmore. cbn. rewrite <- app_assoc. eauto.
    + apply IH.
Qed.

End Output.

Section UnknownSender.
Context `{PhoneLibrary}.

(** C1, as amended: a message whose handle id is not in the handle table is
    kept: when the pipeline completes, [messages/chats-full.json] lists the
    message under every chat that [chat_message_join] joins it to, without
    the sender keys. *)
Theorem backup_messages_keeps_unknown_sender (backup : IOSBackup)
    (w w1 w' : world) (sms : connection) (db : sms_db) (c m : Z) :
  open_sms_db backup w = (Ok sms, w1) ->
  fs w1 !! sms = Some (File (CSms db)) ->
  backup_messages backup w = (Ok tt, w') ->
  In (c, m) (t_chat_message_join db) ->
  (forall r, In r (t_message db) -> message_id r = m ->
             no_row handle_id (t_handle db) (message_handle_id r)) ->
  exists cs cj ms mj,
    In ("messages/chats-full.json", JChats cs) (written w')
    /\ In cj cs /\ chat_id (cj_cols cj) = c
    /\ cj_messages cj = Some ms
    /\ In mj ms /\ message_id (message_cols mj) = m
    /\ sender_uuid mj = None /\ sender_name mj = None.
Proof.
  intros Hopen Hdb Hrun Hjoin Hnohandle.
  unfold backup_messages, bind in Hrun. rewrite Hopen in Hrun.
  unfold get_CONTACTS_LOOKUP in Hrun.
  destruct (bool_decide (CONTACTS_LOOKUP w1 = ∅)); [discriminate|].
  unfold select_sms in Hrun. rewrite Hdb in Hrun. unfold lift in Hrun.
  set (lookup := CONTACTS_LOOKUP w1) in *.
  set (chats0 := PyDict.by_key _ (map new_chat (t_chat db))) in *.
  set (handles0 := PyDict.by_key _ (map new_handle (t_handle db))) in *.
  set (atts := PyDict.by_key attachment_id (t_attachment db)) in *.
  set (msgs0 := PyDict.by_key _ (map new_message (t_message db))) in *.
  destruct (for_each (chat_handles_step lookup) _ _) as [[handles chats]|e] eqn:H1;
    [|discriminate].
  cbn [fst snd] in Hrun. unfold to_json at 1 in Hrun.
  destruct (for_values (messages_step lookup handles) msgs0) as [msgs|e] eqn:H2;
    [|discriminate].
  destruct (for_each (chat_messages_step msgs) _ chats) as [chats'|e] eqn:H3;
    [|discriminate].
  destruct (for_each (message_attachments_step atts) _ msgs) as [msgs'|e] eqn:H4;
    [|discriminate].
  unfold to_json in Hrun.
  match type of Hrun with
  | write_message_data ?ms ?cs ?w0 = _ =>
      destruct (write_message_data_appends ms cs w0) as [_ [more Hmore]];
      rewrite Hrun in Hmore; cbn [snd written app] in Hmore
  end.
  (* the chat *)
  assert (Hkeyed : chats_keyed chats').
  { eapply chat_messages_loop_keyed; [exact H3|].
    eapply chat_handles_loop_keyed; [exact H1|].
    intros k ch Hget. unfold chats0 in Hget.
    now apply get_by_key_Some in Hget as [_ Hk]. }
  destruct (chat_messages_loop_joins _ _ _ _ _ _ H3 Hjoin)
    as [Hfound (ch & refs & Hch & Hrefs & Hin)].
  (* the message *)
  pose proof (for_values_get _ _ _ m H2) as Hstep.
  destruct (PyDict.get m msgs0) as [m0|] eqn:Hm0; [|congruence].
  destruct Hstep as (m1 & Hm1 & Hget1).
  unfold msgs0 in Hm0. apply get_by_key_Some in Hm0 as [Hrow Hid].
  apply in_map_iff in Hrow as (r & <- & Hr). cbn in Hid.
  assert (Habsent : PyDict.mem (message_handle_id r) handles = false).
  { apply mem_false. apply chat_handles_loop_keys in H1 as [Hh _].
    apply Hh. unfold handles0.
    apply (by_key_new_None new_handle handle_id); [reflexivity|].
    now apply Hnohandle. }
  rewrite messages_step_no_handle in Hm1 by exact Habsent.
  injection Hm1 as <-.
  assert (Hunsent : unsent m r msgs').
  { eapply message_attachments_loop_unsent; [exact H4|].
    exists (new_message r). now repeat split. }
  destruct Hunsent as (mj & Hmj & Hcols & Hu1 & Hu2).
  exists (map (chat_to_json handles msgs') (PyDict.values chats')),
    (chat_to_json handles msgs' ch), (deref msgs' refs), mj.
  repeat split.
  - rewrite Hmore. apply in_or_app. left. apply in_or_app. right. now left.
  - apply in_map. eapply get_In_values, Hch.
  - cbn. now apply Hkeyed.
  - cbn. now rewrite Hrefs.
  - eapply deref_In; eauto.
  - now rewrite Hcols.
  - exact Hu1.
  - exact Hu2.
Qed.

End UnknownSender.

(** ** The scan loop *)

(** C3, as amended: when the root directory holds no [Info.plist],
    constructing the backup raises [InvalidBackupException], and the scan
    loop passes over that directory and goes on with the next one. *)
Theorem scan_ids_skips_missing_plist (fns : list (IOSBackup -> M unit))
    (backup_root backup_id : string) (rest : list string) (w : world) :
  fs w !! PosixPath.join (PosixPath.join backup_root [backup_id]) ["Info.plist"]
  = None ->
  IOSBackup_init (PosixPath.join backup_root [backup_id]) w
  = (Raise (InvalidBackupException
              (PosixPath.join backup_root [backup_id]
                 +:+ " does not contain an Info.plist")), w)
  /\ scan_ids fns backup_root (backup_id :: rest) w
     = scan_ids fns backup_root rest w.
Proof.
  intros Hplist.
  assert (Hinit : IOSBackup_init (PosixPath.join backup_root [backup_id]) w
                  = (Raise (InvalidBackupException
                              (PosixPath.join backup_root [backup_id]
                                 +:+ " does not contain an Info.plist")), w)).
  { unfold IOSBackup_init, bind, Os.path_exists. now rewrite Hplist. }
  split; [exact Hinit|].
  cbn [scan_ids]. unfold bind at 1. unfold try, bind at 1.
  now rewrite Hinit.
Qed.

(** The amended C3 on a directory [c] that holds nothing. *)
Lemma scan_ids_skips_missing_plist_witness :
  scan_ids [] "/Volumes/Backups/iPhone/Active/" ["c"; "b"] scan_world
  = scan_ids [] "/Volumes/Backups/iPhone/Active/" ["b"] scan_world.
Proof.
  destruct (scan_ids_skips_missing_plist [] "/Volumes/Backups/iPhone/Active/"
              "c" ["b"] scan_world) as [_ Hskip]; [reflexivity|].
  exact Hskip.
Defined.

(** C3 as stated fails on an [Info.plist] that is there and cannot be
    parsed: constructing the backup raises the parser's
    [InvalidFileException], not [InvalidBackupException], and the scan loop,
    which lists [a] before the backup [b], does not catch it: whatever the
    backup functions, the run ends there. *)
Lemma scan_aborts_on_unparseable_plist :
  fst (IOSBackup_init "/Volumes/Backups/iPhone/Active/a" scan_world)
  = Raise InvalidFileException
  /\ fst (Os.listdir "/Volumes/Backups/iPhone/Active/" scan_world)
     = Ok ["a"; "b"]
  /\ scan [] backup_roots scan_world = (Raise InvalidFileException, scan_world)
  /\ ~ exists fns : list (IOSBackup -> M unit),
         fst (scan fns backup_roots scan_world) <> Raise InvalidFileException.
Proof.
  split; [vm_compute; reflexivity|].
  split; [vm_compute; reflexivity|].
  split; [vm_compute; reflexivity|].
  intros [fns Hfns]. apply Hfns. vm_compute. reflexivity.
Qed.

Example scan_reaches_valid_backup :
  fst (scan_ids [] "/Volumes/Backups/iPhone/Active/" ["c"; "b"] scan_world)
  = Ok tt
  /\ copies (snd (scan_ids [] "/Volumes/Backups/iPhone/Active/" ["c"; "b"]
                    scan_world))
     = [("/Volumes/Backups/iPhone/Active/b/Manifest.db", "/tmp/0002/Manifest.db")].
Proof. split; vm_compute; reflexivity. Qed.

(** ** The pipeline on an example *)

(** C5 on the manifest of a backup: the first call copies it, the second
    finds the copy, which holds what the manifest holds. *)
Lemma make_temporary_copy_idempotent_witness :
  fst (make_temporary_copy "0002" "/Volumes/Backups/iPhone/Active/b/Manifest.db"
         (Some "Manifest.db") scan_world)
  = Ok "/tmp/0002/Manifest.db"
  /\ fst (make_temporary_copy "0002" "/Volumes/Backups/iPhone/Active/b/Manifest.db"
            (Some "Manifest.db")
            (snd (make_temporary_copy "0002"
                    "/Volumes/Backups/iPhone/Active/b/Manifest.db"
                    (Some "Manifest.db") scan_world)))
     = Ok "/tmp/0002/Manifest.db"
  /\ fs (snd (make_temporary_copy "0002"
                "/Volumes/Backups/iPhone/Active/b/Manifest.db"
                (Some "Manifest.db")
                (snd (make_temporary_copy "0002"
                        "/Volumes/Backups/iPhone/Active/b/Manifest.db"
                        (Some "Manifest.db") scan_world))))
       !! "/tmp/0002/Manifest.db"
     = Some (File (CManifest [])).
Proof.
  destruct (make_temporary_copy_idempotent "0002"
              "/Volumes/Backups/iPhone/Active/b/Manifest.db"
              (Some "Manifest.db") scan_world) as [Hsame _].
  cbv zeta in Hsame.
  assert (Hfirst : fst (make_temporary_copy "0002"
                          "/Volumes/Backups/iPhone/Active/b/Manifest.db"
                          (Some "Manifest.db") scan_world)
                   = Ok "/tmp/0002/Manifest.db") by (vm_compute; reflexivity).
  split; [exact Hfirst|].
  destruct (Hsame _ Hfirst) as (_ & Hsecond & _ & n & _ & Hthere & Hcopy).
  split; [exact Hsecond|]. rewrite Hthere. f_equal.
  change (fs scan_world !! "/tmp/0002/Manifest.db") with (@None node) in Hcopy.
  destruct Hcopy as (c & Hsrc & -> & _).
  change (fs scan_world !! "/Volumes/Backups/iPhone/Active/b/Manifest.db")
    with (Some (File (CManifest []))) in Hsrc.
  now injection Hsrc as <-.
Defined.

(** The amended C1 on the example: message 10, sent from handle 0, which
    is no row of the handle table, is listed under chat 1. *)
Lemma backup_messages_keeps_unknown_sender_witness :
  exists cs cj ms mj,
    In ("messages/chats-full.json", JChats cs)
       (written (snd (@backup_messages digits_library example_backup
                        (messages_world example_sms example_lookup))))
    /\ In cj cs /\ chat_id (cj_cols cj) = 1
    /\ cj_messages cj = Some ms
    /\ In mj ms /\ message_id (message_cols mj) = 10
    /\ sender_uuid mj = None /\ sender_name mj = None.
Proof.
  apply (@backup_messages_keeps_unknown_sender digits_library example_backup
           (messages_world example_sms example_lookup)
           (snd (@open_sms_db example_backup
                   (messages_world example_sms example_lookup)))
           (snd (@backup_messages digits_library example_backup
                   (messages_world example_sms example_lookup)))
           "/tmp/0001/HomeDomain/Library/SMS/sms.db" example_sms 1 10).
  - vm_compute. reflexivity.
  - vm_compute. reflexivity.
  - vm_compute. reflexivity.
  - now left.
  - intros r [<-|[<-|[]]] Hid; [|discriminate].
    intros h [<-|[]]. discriminate.
Defined.

(** C1 as stated fails on the example: message 10 has a handle id that is
    no row of the handle table, and the pipeline lists it under chat 1 in
    [messages/chats-full.json] and writes it to the message file of the
    chat. *)
Lemma backup_messages_lists_unknown_sender :
  fst (@backup_messages digits_library example_backup
         (messages_world example_sms example_lookup)) = Ok tt
  /\ map (fun out => (fst out, listed_in 10 (snd out)))
         (written (snd (@backup_messages digits_library example_backup
                          (messages_world example_sms example_lookup))))
     = [("messages/chats.json", false);
        ("messages/chats-full.json", true);
        ("messages/message-data/1.json", true)].
Proof. split; vm_compute; reflexivity. Qed.

(** C8 on the example, run before any contact is loaded. *)
Lemma backup_messages_requires_contacts_witness :
  fst (@backup_messages digits_library example_backup
         (messages_world example_sms ∅)) = Raise contacts_not_loaded
  /\ written (snd (@backup_messages digits_library example_backup
                     (messages_world example_sms ∅))) = [].
Proof.
  destruct (@backup_messages_requires_contacts digits_library example_backup
              (messages_world example_sms ∅) eq_refl) as (_ & Hw & Hopen & _).
  split; [|exact Hw].
  destruct (Hopen "/tmp/0001/HomeDomain/Library/SMS/sms.db"
              (snd (@open_sms_db example_backup (messages_world example_sms ∅))))
    as [Hrun _]; [vm_compute; reflexivity|].
  exact (f_equal fst Hrun).
Defined.

(** C8 as stated fails: on an empty contact table and a manifest that
    does not list the sms database, what [backup_messages] raises is the
    [FileNotFoundException] of the lookup, which comes first. *)
Lemma backup_messages_empty_table_file_not_found :
  CONTACTS_LOOKUP (world_with_manifest []) = ∅
  /\ fst (@backup_messages digits_library example_backup
            (world_with_manifest []))
     = Raise (FileNotFoundException
                "File Library/SMS/sms.db not found in domain HomeDomain")
  /\ fst (@backup_messages digits_library example_backup
            (world_with_manifest []))
     <> Raise contacts_not_loaded.
Proof.
  split; [reflexivity|]. split; [vm_compute; reflexivity|].
  vm_compute. discriminate.
Qed.


Example dangling_row_key :
  fst (@backup_messages digits_library example_backup
         (messages_world dangling_sms example_lookup)) = Raise (KeyError 99).
Proof. vm_compute. reflexivity. Qed.

(** * Further properties *)

(** ** Temporary copies and the backup store *)

Section StoreFacts.

Variables (id src_path : string) (dst_path : option string).
Local Abbreviation tmp := (tmp_path_of id src_path dst_path).

(** X1: [make_temporary_copy] only adds to the file system: every file
    and directory that is there before the call is there, unchanged, after
    it, whether the call returns or raises.  The backup store is never
    written to, and a copy made earlier is never overwritten. *)
Theorem make_temporary_copy_keeps_nodes (w : world) (p : string) (n : node) :
  fs w !! p = Some n ->
  fs (snd (make_temporary_copy id src_path dst_path w)) !! p = Some n.
Proof.
  intros Hp. unfold make_temporary_copy, bind, Os.path_exists.
  destruct (fs w !! tmp) as [n0|] eqn:Htmp; [exact Hp|].
  destruct (Os.makedirs _ w) as [[[]|e] w1] eqn:Hm.
  - apply makedirs_Ok in Hm.
    pose proof (mkdir_all_keeps _ _ _ p n Hm Hp) as Hp1.
    unfold Os.copy2. destruct (fs w1 !! src_path) as [[c|]|]; cbn; try exact Hp1.
    rewrite lookup_insert_ne; [exact Hp1 | congruence].
  - apply makedirs_Raise in Hm as [-> _]. exact Hp.
Qed.

(** X2: when [make_temporary_copy] returns, what is at the temporary path
    is the node that was there before the call, if there was one, whatever
    the source holds by now; otherwise it is a file with the content the
    source had. *)
Theorem make_temporary_copy_content (w w' : world) (t : string) :
  make_temporary_copy id src_path dst_path w = (Ok t, w') ->
  match fs w !! tmp_path_of id src_path dst_path with
  | Some n => w' = w /\ fs w' !! tmp_path_of id src_path dst_path = Some n
  | None => exists c, fs w !! src_path = Some (File c)
                      /\ fs w' !! tmp_path_of id src_path dst_path = Some (File c)
  end.
Proof.
  unfold make_temporary_copy, bind, Os.path_exists.
  destruct (fs w !! tmp) as [n0|] eqn:Htmp.
  - intros [= <- <-]. now split.
  - destruct (Os.makedirs _ w) as [[[]|e] w1] eqn:Hm; [|discriminate].
    apply makedirs_Ok in Hm. unfold Os.copy2.
    destruct (fs w1 !! src_path) as [[c|]|] eqn:Hsrc; try discriminate.
    intros [= <- <-]. exists c. split.
    + eapply mkdir_all_adds_dirs; eauto.
    + cbn. apply lookup_insert_eq.
Qed.

Lemma make_temporary_copy_raises (w : world) (e : exn) :
  fst (make_temporary_copy id src_path dst_path w) = Raise e ->
  exists p, e = OSError p.
Proof.
  unfold make_temporary_copy, bind, Os.path_exists.
  destruct (fs w !! tmp) as [n0|]; [discriminate|].
  destruct (Os.makedirs _ w) as [[[]|e1] w1] eqn:Hm.
  - unfold Os.copy2. destruct (fs w1 !! src_path) as [[c|]|]; cbn;
      try discriminate; intros [= <-]; eauto.
  - apply makedirs_Raise in Hm as [_ [p ->]]. cbn. intros [= <-]. eauto.
Qed.

End StoreFacts.

(** ** Constructing a backup *)

Lemma IOSBackup_init_missing (path : string) (w : world) :
  fs w !! PosixPath.join path ["Info.plist"] = None ->
  IOSBackup_init path w
  = (Raise (InvalidBackupException (path +:+ " does not contain an Info.plist")), w).
Proof.
  intros Hplist. unfold IOSBackup_init, bind, Os.path_exists. now rewrite Hplist.
Qed.

(** The constructor, case by case. *)
Lemma IOSBackup_init_cases (path : string) (w : world) :
  IOSBackup_init path w
  = match fs w !! PosixPath.join path ["Info.plist"] with
    | None =>
        (Raise (InvalidBackupException
                  (path +:+ " does not contain an Info.plist")), w)
    | Some Dir => (Raise (OSError (PosixPath.join path ["Info.plist"])), w)
    | Some (File c) =>
        match plistlib_load c with
        | Raise e => (Raise e, w)
        | Ok info =>
            match make_temporary_copy (py_str (info !! "Unique Identifier"))
                    (PosixPath.join path ["Manifest.db"])
                    (Some "Manifest.db") w with
            | (Ok tmp, w') =>
                (Ok {| backup_path := path; info_plist := info;
                       backup_id := info !! "Unique Identifier";
                       manifest_temp_path := tmp; backup_db := tmp |}, w')
            | (Raise e, w') => (Raise e, w')
            end
        end
    end.
Proof.
  unfold IOSBackup_init, bind, Os.path_exists, Os.read, lift, IOSBackup_getitem.
  set (plist := PosixPath.join path ["Info.plist"]).
  destruct (fs w !! plist) as [[c|]|] eqn:Hp; cbn [negb]; cbv beta iota;
    rewrite ?Hp; reflexivity.
Qed.

(** What the constructor raises when nothing is at [Info.plist], and what
    it does not raise otherwise. *)
Lemma IOSBackup_init_raises (path : string) (w : world) (e : exn) :
  fst (IOSBackup_init path w) = Raise e ->
  (fs w !! PosixPath.join path ["Info.plist"] = None
   /\ e = InvalidBackupException (path +:+ " does not contain an Info.plist"))
  \/ (fs w !! PosixPath.join path ["Info.plist"] <> None
      /\ (forall msg, e <> InvalidBackupException msg)
      /\ (forall msg, e <> ApplicationNotFoundException msg)).
Proof.
  destruct (fs w !! PosixPath.join path ["Info.plist"]) as [n|] eqn:Hp.
  - intros He. right. split; [discriminate|]. revert He.
    rewrite IOSBackup_init_cases, Hp. destruct n as [c|].
    + destruct (plistlib_load c) as [info|e1] eqn:Hload.
      * match goal with
        | |- context [make_temporary_copy ?i ?s ?d w] =>
            pose proof (make_temporary_copy_raises i s d w) as Hr;
            destruct (make_temporary_copy i s d w) as [[t|e1] w1]
        end; cbn; [discriminate|].
        intros [= <-]. destruct (Hr e1 eq_refl) as [p ->].
        split; discriminate.
      * cbn. intros [= <-]. destruct c; cbn in Hload; try discriminate;
          injection Hload as <-; split; discriminate.
    + cbn. intros [= <-]. split; discriminate.
  - rewrite (IOSBackup_init_missing _ _ Hp). cbn. intros [= <-]. now left.
Qed.

(** X3: [IOSBackup] raises [InvalidBackupException] exactly when nothing
    is at [Info.plist] under the root; it then names the root in the
    message and has read, copied and changed nothing. *)
Theorem IOSBackup_init_invalid_backup (path : string) (w : world) :
  ((exists msg, fst (IOSBackup_init path w) = Raise (InvalidBackupException msg))
   <-> fs w !! PosixPath.join path ["Info.plist"] = None)
  /\ (forall msg,
        fst (IOSBackup_init path w) = Raise (InvalidBackupException msg) ->
        msg = path +:+ " does not contain an Info.plist"
        /\ snd (IOSBackup_init path w) = w).
Proof.
  split; [split|].
  - intros [msg Hmsg].
    destruct (IOSBackup_init_raises _ _ _ Hmsg) as [[Hnone _]|(_ & Hno & _)];
      [exact Hnone | now destruct (Hno msg)].
  - intros Hnone. rewrite (IOSBackup_init_missing _ _ Hnone). cbn. eauto.
  - intros msg Hmsg.
    destruct (IOSBackup_init_raises _ _ _ Hmsg) as [[Hnone He]|(_ & Hno & _)];
      [|now destruct (Hno msg)].
    rewrite (IOSBackup_init_missing _ _ Hnone). cbn. split; [congruence | reflexivity].
Qed.

(** X4: the copy of the manifest is shared by every backup directory whose
    [Info.plist] gives the same text for "Unique Identifier", [None]
    included: once one backup is constructed, constructing another with
    that identifier copies nothing and reads the first one's manifest,
    whatever [Manifest.db] its own directory holds. *)
Theorem IOSBackup_init_shares_manifest (path1 path2 : string) (w w1 : world)
    (b1 : IOSBackup) (info2 : gmap string pvalue) :
  IOSBackup_init path1 w = (Ok b1, w1) ->
  fs w1 !! PosixPath.join path2 ["Info.plist"] = Some (File (CPlist info2)) ->
  py_str (info2 !! "Unique Identifier") = py_str (backup_id b1) ->
  exists b2,
    IOSBackup_init path2 w1 = (Ok b2, w1)
    /\ backup_db b2 = backup_db b1
    /\ forall domain path,
        fst (IOSBackup_file b2 domain path w1)
        = match fst (IOSBackup_file b1 domain path w1) with
          | Ok f => Ok (IOSBackupFile_init b2 domain path (file_id f))
          | Raise e => Raise e
          end.
Proof.
  intros Hinit1 Hplist2 Hid.
  assert (Hdb1 : backup_db b1 = tmp_path_of (py_str (backup_id b1))
                                  (PosixPath.join path1 ["Manifest.db"])
                                  (Some "Manifest.db")
                 /\ exists n, fs w1 !! backup_db b1 = Some n).
  { rewrite IOSBackup_init_cases in Hinit1.
    destruct (fs w !! PosixPath.join path1 ["Info.plist"]) as [[c|]|];
      try discriminate.
    destruct (plistlib_load c) as [info|e1]; [|discriminate].
    match type of Hinit1 with
    | context [make_temporary_copy ?i ?s ?d w] =>
        pose proof (make_temporary_copy_returns i s d w) as Hr;
        destruct (make_temporary_copy i s d w) as [[t|e1] w0]
    end; [|discriminate].
    injection Hinit1 as <- <-. cbn.
    destruct (Hr w0 t eq_refl) as [-> Hn]. split; [reflexivity | exact Hn]. }
  destruct Hdb1 as [Hdb1 [n Hn]].
  assert (Htmp : tmp_path_of (py_str (info2 !! "Unique Identifier"))
                   (PosixPath.join path2 ["Manifest.db"]) (Some "Manifest.db")
                 = backup_db b1).
  { rewrite Hdb1, Hid. reflexivity. }
  rewrite IOSBackup_init_cases, Hplist2. cbn [plistlib_load].
  rewrite (make_temporary_copy_present _ _ _ w1 n) by (now rewrite Htmp).
  eexists. split; [reflexivity|]. split; [exact Htmp|].
  intros domain path. unfold IOSBackup_file, bind, select_Files. cbn [backup_db].
  rewrite Htmp.
  destruct (fs w1 !! backup_db b1) as [[[p|rows|d|raw]|]|]; try reflexivity.
  destruct (List.filter (matches domain path) rows) as [|r [|r' rest]];
    reflexivity.
Qed.

(** ** The loops over the backup functions and the directories *)

Lemma run_backup_functions_tolerant (fns : list (IOSBackup -> M unit))
    (backup : IOSBackup) (w : world) (msg : string) :
  fst (run_backup_functions fns backup w)
  <> Raise (ApplicationNotFoundException msg).
Proof.
  revert w. induction fns as [|f fns IH]; intros w; [discriminate|].
  cbn [run_backup_functions]. unfold bind, try.
  destruct (f backup w) as [[[]|e] w1]; [apply IH|].
  destruct e; cbn; try discriminate. apply IH.
Qed.

(** X5: [ApplicationNotFoundException] never leaves the scan: whatever the
    backup functions do and whatever the roots hold, a scan that raises
    raises something else. *)
Theorem scan_never_raises_application_not_found
    (fns : list (IOSBackup -> M unit)) (roots : list string) (w : world)
    (msg : string) :
  fst (scan fns roots w) <> Raise (ApplicationNotFoundException msg).
Proof.
  assert (Hids : forall root ids w0,
             fst (scan_ids fns root ids w0)
             <> Raise (ApplicationNotFoundException msg)).
  { intros root ids. induction ids as [|i ids IH]; intros w0; [discriminate|].
    cbn [scan_ids]. unfold bind at 1. unfold try, bind at 1.
    destruct (IOSBackup_init _ w0) as [[b|e] w1] eqn:Hinit.
    - cbn. unfold bind.
      pose proof (run_backup_functions_tolerant fns b w1 msg) as Hrun.
      destruct (run_backup_functions fns b w1) as [[[]|e] w2]; [apply IH|].
      cbn in Hrun |- *. exact Hrun.
    - apply (f_equal fst) in Hinit. cbn [fst] in Hinit.
      apply IOSBackup_init_raises in Hinit as [[_ ->]|(_ & Hni & Hna)];
        [cbn; apply IH|].
      destruct e; try (cbn; discriminate);
        [now destruct (Hni msg0) | now destruct (Hna msg0)]. }
  revert w. induction roots as [|root roots IH]; intros w; [discriminate|].
  cbn [scan]. unfold bind. unfold Os.listdir.
  destruct (fs w !! root) as [[c|]|]; cbn; try discriminate.
  pose proof (Hids root (omap (fun kv => Os.entry_of root kv.1) (map_to_list (fs w))) w)
    as Hroot.
  destruct (scan_ids fns root _ w) as [[[]|e] w1]; [apply IH|].
  cbn in Hroot |- *. exact Hroot.
Qed.

(** X6: a scan over directories none of which holds an [Info.plist] calls
    no backup function, returns, and leaves the world as it was. *)
Theorem scan_ids_nothing_to_do (fns : list (IOSBackup -> M unit))
    (backup_root : string) (ids : list string) (w : world) :
  (forall backup_id, In backup_id ids ->
     fs w !! PosixPath.join (PosixPath.join backup_root [backup_id]) ["Info.plist"]
     = None) ->
  scan_ids fns backup_root ids w = (Ok tt, w).
Proof.
  induction ids as [|i ids IH]; intros Hnone; [reflexivity|].
  cbn [scan_ids]. unfold bind at 1. unfold try, bind at 1.
  rewrite IOSBackup_init_missing by (apply Hnone; now left).
  apply IH. intros j Hj. apply Hnone. now right.
Qed.

(** ** Dicts built from rows *)

Section KeyFacts.
Context {V : Type}.
Implicit Types (d : PyDict.t V) (k : Z) (v : V).

Lemma keys_alter (f : V -> V) k d :
  map fst (PyDict.alter f k d) = map fst d.
Proof.
  induction d as [|[k0 v0] d IH]; [reflexivity|]. cbn.
  destruct (Z.eqb k k0); cbn; [reflexivity | now rewrite IH].
Qed.

Lemma set_fresh k v d :
  ~ In k (map fst d) -> PyDict.set k v d = (d ++ [(k, v)])%list.
Proof.
  induction d as [|[k0 v0] d IH]; [reflexivity|]. cbn. intros Hk.
  destruct (Z.eqb_spec k k0) as [->|Hne]; [exfalso; apply Hk; now left|].
  rewrite IH; [reflexivity|]. intros Hin. apply Hk. now right.
Qed.

Lemma by_key_fresh (key : V -> Z) (rows : list V) d :
  NoDup (map fst d ++ map key rows) ->
  fold_left (fun d row => PyDict.set (key row) row d) rows d
  = (d ++ map (fun row => (key row, row)) rows)%list.
Proof.
  revert d. induction rows as [|row rows IH]; intros d Hnd; cbn.
  - now rewrite app_nil_r.
  - assert (Hfresh : ~ In (key row) (map fst d)).
    { intros Hin. apply NoDup_app in Hnd as (_ & Hdisj & _).
      apply (Hdisj (key row)); [now apply list_elem_of_In|].
      apply list_elem_of_In. now left. }
    rewrite (set_fresh _ _ _ Hfresh), IH.
    + now rewrite <- app_assoc.
    + rewrite map_app, <- app_assoc. exact Hnd.
Qed.

Lemma get_of_In k v d :
  NoDup (map fst d) -> In (k, v) d -> PyDict.get k d = Some v.
Proof.
  induction d as [|[k0 v0] d IH]; [intros _ []|]. cbn.
  intros Hnd [[= -> ->]|Hin].
  - now rewrite Z.eqb_refl.
  - apply NoDup_cons in Hnd as [Hk0 Hnd].
    destruct (Z.eqb_spec k k0) as [->|Hne]; [|now apply IH].
    exfalso. apply Hk0. apply list_elem_of_In.
    change k0 with (fst (k0, v)). now apply in_map.
Qed.

Lemma in_keys_set k k' v d :
  In k (map fst (PyDict.set k' v d)) -> k = k' \/ In k (map fst d).
Proof.
  induction d as [|[k0 v0] d IH]; cbn; [intuition congruence|].
  destruct (Z.eqb_spec k' k0) as [->|Hne]; cbn; [intuition congruence|].
  intros [->|Hin]; [tauto|]. apply IH in Hin. tauto.
Qed.

Lemma keys_set_NoDup k v d :
  NoDup (map fst d) -> NoDup (map fst (PyDict.set k v d)).
Proof.
  induction d as [|[k0 v0] d IH]; cbn.
  - intros _. apply NoDup_cons. split; [apply not_elem_of_nil | apply NoDup_nil_2].
  - intros Hnd. apply NoDup_cons in Hnd as [Hk0 Hnd].
    destruct (Z.eqb_spec k k0) as [->|Hne]; cbn; apply NoDup_cons.
    + now split.
    + split; [|now apply IH]. intros Hin. apply list_elem_of_In in Hin.
      apply in_keys_set in Hin as [->|Hin]; [congruence|].
      apply Hk0. now apply list_elem_of_In.
Qed.

Lemma keys_by_key_NoDup (key : V -> Z) (rows : list V) :
  NoDup (map fst (PyDict.by_key key rows)).
Proof.
  unfold PyDict.by_key.
  assert (Hgen : forall d, NoDup (map fst d) ->
            NoDup (map fst (fold_left (fun d row => PyDict.set (key row) row d)
                                      rows d))).
  { induction rows as [|row rows IH]; intros d Hd; [exact Hd|].
    cbn. apply IH. now apply keys_set_NoDup. }
  apply Hgen. apply NoDup_nil_2.
Qed.

Lemma values_In_get v d :
  NoDup (map fst d) -> In v (PyDict.values d) ->
  exists k, PyDict.get k d = Some v.
Proof.
  intros Hnd Hin. unfold PyDict.values in Hin.
  apply in_map_iff in Hin as ([k v'] & Hv & Hin). cbn in Hv. subst v'.
  exists k. now apply get_of_In.
Qed.

Lemma get_Some_of_row (key : V -> Z) (rows : list V) k :
  (exists row, In row rows /\ key row = k) ->
  PyDict.get k (PyDict.by_key key rows) <> None.
Proof.
  intros (row & Hin & Hk) Hnone.
  destruct (get_by_key_None key rows k) as [Hno _].
  now apply (Hno Hnone row Hin).
Qed.

(** X7: a dict built with [by=] from rows whose keys differ pairwise, as
    row ids do, lists the rows in the order of the query: [dict.values()]
    gives back the rows, and each row is found under its key. *)
Theorem by_key_keeps_rows (key : V -> Z) (rows : list V) :
  NoDup (map key rows) ->
  PyDict.values (PyDict.by_key key rows) = rows
  /\ forall row, In row rows ->
                 PyDict.get (key row) (PyDict.by_key key rows) = Some row.
Proof.
  intros Hnd. unfold PyDict.by_key.
  rewrite (by_key_fresh key rows []) by exact Hnd. cbn [app]. split.
  - unfold PyDict.values. rewrite map_map. cbn. apply map_id.
  - intros row Hin. apply get_of_In.
    + rewrite map_map. cbn. exact Hnd.
    + apply in_map_iff. now exists row.
Qed.

End KeyFacts.

Lemma write_message_data_frame (msgs : PyDict.t message) (chats : list chat)
    (w : world) :
  fs (snd (write_message_data msgs chats w)) = fs w
  /\ copies (snd (write_message_data msgs chats w)) = copies w.
Proof.
  revert w. induction chats as [|c chats IH]; intros w; cbn; [now split|].
  unfold bind. destruct (messages c) as [refs|]; cbn; [|apply IH].
  match goal with
  | |- context [write_message_data msgs chats ?w0] => exact (IH w0)
  end.
Qed.

(** ** The messaging pipeline on a sound database *)

Section LoopReturns.
Context {S R : Type} (step : S -> R -> result S).

Lemma for_each_returns (I : S -> Prop) (rows : list R) :
  (forall st row, In row rows -> I st -> exists st', step st row = Ok st' /\ I st') ->
  forall st, I st -> exists st', for_each step rows st = Ok st' /\ I st'.
Proof.
  induction rows as [|row rows IH]; intros Hstep st HI; cbn; [eauto|].
  destruct (Hstep st row (or_introl eq_refl) HI) as (st1 & -> & HI1). cbn.
  apply IH; [|exact HI1]. intros st0 row0 Hin. apply Hstep. now right.
Qed.

End LoopReturns.

Section SoundDatabase.
Context `{PhoneLibrary}.
Implicit Types (lookup : gmap string (string * string)).

Lemma by_key_new_found {R V : Type} (new : R -> V) (key : R -> Z)
    (keyV : V -> Z) (rows : list R) (k : Z) :
  (forall r, keyV (new r) = key r) ->
  has_row key rows k ->
  PyDict.get k (PyDict.by_key keyV (map new rows)) <> None.
Proof.
  intros Hkey (r & Hin & Hk). apply get_Some_of_row.
  exists (new r). split; [now apply in_map | now rewrite Hkey].
Qed.

Lemma chat_handles_loop_returns lookup rows handles chats :
  (forall c h, In (c, h) rows ->
     PyDict.get c chats <> None /\ PyDict.get h handles <> None) ->
  exists handles' chats',
    for_each (chat_handles_step lookup) rows (handles, chats)
    = Ok (handles', chats').
Proof.
  intros Hrows.
  destruct (for_each_returns (chat_handles_step lookup)
              (fun st => (forall k, PyDict.get k (fst st) = None
                                    <-> PyDict.get k handles = None)
                         /\ (forall k, PyDict.get k (snd st) = None
                                       <-> PyDict.get k chats = None))
              rows) with (st := (handles, chats)) as ([hs cs] & Hloop & _);
    [|now split|eauto].
  intros [hs cs] [c h] Hin [Hh Hc]. cbn in Hh, Hc.
  destruct (Hrows c h Hin) as [Hchat Hhandle].
  cbn [chat_handles_step]. unfold PyDict.getitem.
  destruct (PyDict.get h hs) as [hd|] eqn:Hget; [|now apply Hh in Hget].
  cbn. destruct (normalized_contact_returns hd) as [contact ->]. cbn.
  destruct (PyDict.get c cs) as [ch|] eqn:Hgetc; [|now apply Hc in Hgetc].
  cbn. eexists. split; [reflexivity|]. cbn.
  split; intros k; rewrite get_alter_None; auto.
Qed.

Lemma chat_messages_loop_returns msgs rows chats :
  (forall c m, In (c, m) rows ->
     PyDict.get c chats <> None /\ PyDict.get m msgs <> None) ->
  exists chats', for_each (chat_messages_step msgs) rows chats = Ok chats'.
Proof.
  intros Hrows.
  destruct (for_each_returns (chat_messages_step msgs)
              (fun cs => forall k, PyDict.get k cs = None
                                   <-> PyDict.get k chats = None)
              rows) with (st := chats) as (cs & Hloop & _);
    [|reflexivity|eauto].
  intros cs [c m] Hin Hc. destruct (Hrows c m Hin) as [Hchat Hmsg].
  cbn [chat_messages_step]. unfold PyDict.getitem.
  destruct (PyDict.get c cs) as [ch|] eqn:Hgetc; [|now apply Hc in Hgetc].
  destruct (PyDict.get m msgs) as [ms|] eqn:Hgetm; [|congruence].
  cbn. eexists. split; [reflexivity|].
  intros k. now rewrite get_alter_None.
Qed.

Lemma message_attachments_loop_returns atts rows msgs :
  (forall m a, In (m, a) rows ->
     PyDict.get m msgs <> None /\ PyDict.get a atts <> None) ->
  exists msgs', for_each (message_attachments_step atts) rows msgs = Ok msgs'.
Proof.
  intros Hrows.
  destruct (for_each_returns (message_attachments_step atts)
              (fun ms => forall k, PyDict.get k ms = None
                                   <-> PyDict.get k msgs = None)
              rows) with (st := msgs) as (ms & Hloop & _);
    [|reflexivity|eauto].
  intros ms [m a] Hin Hm. destruct (Hrows m a Hin) as [Hmsg Hatt].
  cbn [message_attachments_step]. unfold PyDict.getitem.
  destruct (PyDict.get m ms) as [mg|] eqn:Hgetm; [|now apply Hm in Hgetm].
  destruct (PyDict.get a atts) as [at1|] eqn:Hgeta; [|congruence].
  cbn. eexists. split; [reflexivity|].
  intros k. now rewrite get_alter_None.
Qed.

Lemma for_values_keys {V} (step : V -> result V) (d d' : PyDict.t V) (k : Z) :
  for_values step d = Ok d' ->
  (PyDict.get k d' = None <-> PyDict.get k d = None).
Proof.
  intros Hloop. pose proof (for_values_get step d d' k Hloop) as Hget.
  destruct (PyDict.get k d) as [v|].
  - destruct Hget as (v' & _ & ->). split; discriminate.
  - now rewrite Hget.
Qed.

(** X8: on a database every join row of which points into the tables it
    names, [backup_messages] raises no [KeyError], whatever the contact
    table holds: every subscript of its loops finds its key, and a contact
    that is not in the table stops nothing.  Once the sms database is
    open, nothing more is copied. *)
Theorem backup_messages_raises_no_KeyError (backup : IOSBackup)
    (w w1 : world) (sms : connection) (db : sms_db) :
  open_sms_db backup w = (Ok sms, w1) ->
  fs w1 !! sms = Some (File (CSms db)) ->
  referenced db ->
  (forall k, fst (backup_messages backup w) <> Raise (KeyError k))
  /\ copies (snd (backup_messages backup w)) = copies w1.
Proof.
  intros Hopen Hdb (Hch & Hcm & Hma).
  destruct (decide (CONTACTS_LOOKUP w1 = ∅)) as [Hempty|Hlookup].
  { unfold backup_messages, bind. rewrite Hopen.
    unfold get_CONTACTS_LOOKUP. rewrite bool_decide_true by exact Hempty.
    cbn. split; [intros k; discriminate | reflexivity]. }
  assert (Hrun : exists w', backup_messages backup w = (Ok tt, w')
                            /\ fs w' = fs w1 /\ copies w' = copies w1).
  2:{ destruct Hrun as (w' & -> & _ & Hcopies). cbn [fst snd].
      split; [intros k; discriminate | exact Hcopies]. }
  unfold backup_messages, bind. rewrite Hopen.
  unfold get_CONTACTS_LOOKUP. rewrite bool_decide_false by exact Hlookup.
  unfold select_sms. rewrite Hdb. unfold lift.
  set (lookup := CONTACTS_LOOKUP w1).
  set (chats0 := PyDict.by_key _ (map new_chat (t_chat db))).
  set (handles0 := PyDict.by_key _ (map new_handle (t_handle db))).
  set (atts := PyDict.by_key attachment_id (t_attachment db)).
  set (msgs0 := PyDict.by_key _ (map new_message (t_message db))).
  assert (Hchat0 : forall c, has_row chat_id (t_chat db) c ->
                             PyDict.get c chats0 <> None).
  { intros c. now apply (by_key_new_found new_chat chat_id). }
  destruct (chat_handles_loop_returns lookup (t_chat_handle_join db)
              handles0 chats0) as (handles & chats & H1).
  { intros c h Hin. destruct (Hch c h Hin) as [Hc Hh].
    split; [now apply Hchat0|].
    now apply (by_key_new_found new_handle handle_id). }
  rewrite H1. cbn [fst snd]. unfold to_json at 1.
  destruct (for_values_returns (messages_step lookup handles) msgs0
              (messages_step_returns lookup handles)) as [msgs H2].
  rewrite H2.
  assert (Hmsg : forall m, has_row message_id (t_message db) m ->
                           PyDict.get m msgs <> None).
  { intros m Hm Hnone. apply (for_values_keys _ _ _ m H2) in Hnone.
    revert Hnone. now apply (by_key_new_found new_message message_id). }
  apply chat_handles_loop_keys in H1 as Hkeys. destruct Hkeys as [_ Hchats].
  destruct (chat_messages_loop_returns msgs (t_chat_message_join db) chats)
    as (chats' & H3).
  { intros c m Hin. destruct (Hcm c m Hin) as [Hc Hm]. split; [|auto].
    intros Hnone. apply Hchats in Hnone. revert Hnone. now apply Hchat0. }
  rewrite H3.
  destruct (message_attachments_loop_returns atts
              (t_message_attachment_join db) msgs) as (msgs' & H4).
  { intros m a Hin. destruct (Hma m a Hin) as [Hm Ha]. split; [auto|].
    unfold atts. now apply get_Some_of_row. }
  rewrite H4. unfold to_json.
  match goal with
  | |- context [write_message_data ?ms ?cs ?w0] =>
      pose proof (write_message_data_appends ms cs w0) as [Hok _];
      pose proof (write_message_data_frame ms cs w0) as Hframe;
      destruct (write_message_data ms cs w0) as [r w']
  end.
  cbn in Hok, Hframe. subst r. exists w'. split; [reflexivity | exact Hframe].
Qed.

End SoundDatabase.

(** ** What the loops of [backup_messages] leave in the dicts *)

Lemma extended_cons {A : Type} (field : option (list A)) (x : A) (l : list A) :
  extended (Some (default [] field ++ [x])%list) l = extended field (x :: l).
Proof.
  destruct l as [|y l]; cbn; [reflexivity|]. now rewrite <- app_assoc.
Qed.

Lemma joined_cons_eq (k k' x : Z) (rows : list (Z * Z)) :
  joined k ((k', x) :: rows)
  = if Z.eqb k' k then x :: joined k rows else joined k rows.
Proof. unfold joined. cbn. now destruct (Z.eqb k' k). Qed.

Lemma joined_In (k x : Z) (rows : list (Z * Z)) :
  In x (joined k rows) <-> In (k, x) rows.
Proof.
  unfold joined. rewrite in_map_iff. split.
  - intros ([k' x'] & <- & Hin). apply filter_In in Hin as [Hin Hk].
    cbn in Hk. apply Z.eqb_eq in Hk. now subst k'.
  - intros Hin. exists (k, x). split; [reflexivity|].
    apply filter_In. split; [exact Hin | apply Z.eqb_refl].
Qed.

Lemma deref_cons {V : Type} (d : PyDict.t V) (k : Z) (refs : list Z) :
  deref d (k :: refs)
  = match PyDict.get k d with
    | Some v => v :: deref d refs
    | None => deref d refs
    end.
Proof. reflexivity. Qed.

Section LoopResults.
Context `{PhoneLibrary}.
Implicit Types (lookup : gmap string (string * string)).

Lemma chat_handles_step_Ok lookup handles chats c h handles' chats' :
  chat_handles_step lookup (handles, chats) (c, h) = Ok (handles', chats') ->
  exists contact,
    handles' = PyDict.alter (annotate_handle lookup contact) h handles
    /\ chats' = PyDict.alter (append_member h) c chats.
Proof.
  cbn. destruct (PyDict.getitem h handles) as [hd|e1]; cbn; [|discriminate].
  destruct (normalized_contact_returns hd) as [contact ->]. cbn.
  destruct (PyDict.getitem c chats) as [ch|e1]; cbn; [|discriminate].
  intros [= <- <-]. eauto.
Qed.

Lemma annotate_handle_cols lookup contact (hd : handle) :
  handle_cols (annotate_handle lookup contact hd) = handle_cols hd.
Proof.
  unfold annotate_handle. now destruct (resolve lookup contact) as [[u n]|].
Qed.

(** After the loop over [chat_handle_join]: the same chats and handles
    under the same keys, each chat with the handles of its rows appended
    to its members. *)
Lemma chat_handles_loop_exact lookup rows handles chats handles' chats' :
  for_each (chat_handles_step lookup) rows (handles, chats) = Ok (handles', chats') ->
  map fst chats' = map fst chats /\ map fst handles' = map fst handles
  /\ (forall c ch', PyDict.get c chats' = Some ch' ->
        exists ch, PyDict.get c chats = Some ch
                   /\ chat_cols ch' = chat_cols ch
                   /\ messages ch' = messages ch
                   /\ members ch' = extended (members ch) (joined c rows))
  /\ (forall h hd', PyDict.get h handles' = Some hd' ->
        exists hd, PyDict.get h handles = Some hd
                   /\ handle_cols hd' = handle_cols hd).
Proof.
  revert handles chats. induction rows as [|[c0 h0] rows IH];
    intros handles chats; cbn [for_each].
  - intros [= <- <-]. repeat split; eauto 6.
  - destruct (chat_handles_step lookup (handles, chats) (c0, h0))
      as [[hs1 cs1]|e] eqn:Hstep; cbn [rbind]; [|discriminate].
    apply chat_handles_step_Ok in Hstep as (contact & -> & ->).
    intros Hloop. apply IH in Hloop as (Hkc & Hkh & Hchat & Hhandle).
    rewrite keys_alter in Hkc. rewrite keys_alter in Hkh.
    repeat split; [exact Hkc | exact Hkh | |].
    + intros c ch' Hget. apply Hchat in Hget as (ch1 & Hget1 & Hcols & Hmsgs & Hmem).
      rewrite get_alter in Hget1.
      pose proof (joined_cons_eq c c0 h0 rows) as Hj.
      rewrite (Z.eqb_sym c0 c) in Hj. destruct (Z.eqb c c0).
      * destruct (PyDict.get c chats) as [ch|]; [|discriminate].
        injection Hget1 as <-. exists ch. cbn in *.
        repeat split; auto. now rewrite Hmem, Hj, extended_cons.
      * exists ch1. rewrite Hj. auto.
    + intros h hd' Hget. apply Hhandle in Hget as (hd1 & Hget1 & Hcols).
      rewrite get_alter in Hget1. destruct (Z.eqb h h0); [|eauto].
      destruct (PyDict.get h handles) as [hd|]; [|discriminate].
      injection Hget1 as <-. exists hd. split; [reflexivity|].
      now rewrite Hcols, annotate_handle_cols.
Qed.

(** After the loop over [chat_message_join]: the same chats under the same
    keys, each with the messages of its rows appended. *)
Lemma chat_messages_loop_exact msgs rows chats chats' :
  for_each (chat_messages_step msgs) rows chats = Ok chats' ->
  map fst chats' = map fst chats
  /\ (forall c ch', PyDict.get c chats' = Some ch' ->
        exists ch, PyDict.get c chats = Some ch
                   /\ chat_cols ch' = chat_cols ch
                   /\ members ch' = members ch
                   /\ messages ch' = extended (messages ch) (joined c rows)).
Proof.
  revert chats. induction rows as [|[c0 m0] rows IH]; intros chats;
    cbn [for_each].
  - intros [= <-]. split; eauto 6.
  - destruct (chat_messages_step msgs chats (c0, m0)) as [cs1|e] eqn:Hstep;
      cbn [rbind]; [|discriminate].
    apply chat_messages_step_Ok in Hstep as (_ & _ & ->).
    intros Hloop. apply IH in Hloop as (Hkc & Hchat).
    rewrite keys_alter in Hkc. split; [exact Hkc|].
    intros c ch' Hget. apply Hchat in Hget as (ch1 & Hget1 & Hcols & Hmem & Hmsgs).
    rewrite get_alter in Hget1.
    pose proof (joined_cons_eq c c0 m0 rows) as Hj.
    rewrite (Z.eqb_sym c0 c) in Hj.
    destruct (Z.eqb c c0); [|exists ch1; rewrite Hj; auto].
    destruct (PyDict.get c chats) as [ch|]; [|discriminate].
    injection Hget1 as <-. exists ch. cbn in *.
    repeat split; auto. now rewrite Hmsgs, Hj, extended_cons.
Qed.

(** After the loop over [message_attachment_join]: the same messages under
    the same keys, each with the attachments of its rows appended. *)
Lemma message_attachments_loop_exact atts rows msgs msgs' :
  for_each (message_attachments_step atts) rows msgs = Ok msgs' ->
  map fst msgs' = map fst msgs
  /\ (forall m v', PyDict.get m msgs' = Some v' ->
        exists v, PyDict.get m msgs = Some v
                  /\ message_cols v' = message_cols v
                  /\ sender_uuid v' = sender_uuid v
                  /\ sender_name v' = sender_name v
                  /\ attachments v'
                     = extended (attachments v) (deref atts (joined m rows))).
Proof.
  revert msgs. induction rows as [|[m0 a0] rows IH]; intros msgs;
    cbn [for_each].
  - intros [= <-]. split; eauto 7.
  - destruct (message_attachments_step atts msgs (m0, a0)) as [ms1|e] eqn:Hstep;
      cbn [rbind]; [|discriminate].
    apply message_attachments_step_Ok in Hstep as (_ & att & Hatt & ->).
    intros Hloop. apply IH in Hloop as (Hk & Hmsg).
    rewrite keys_alter in Hk. split; [exact Hk|].
    intros m v' Hget.
    apply Hmsg in Hget as (v1 & Hget1 & Hcols & Hu & Hn & Hatts).
    rewrite get_alter in Hget1.
    pose proof (joined_cons_eq m m0 a0 rows) as Hj.
    rewrite (Z.eqb_sym m0 m) in Hj.
    destruct (Z.eqb m m0); [|exists v1; rewrite Hj; auto 6].
    destruct (PyDict.get m msgs) as [v|]; [|discriminate].
    injection Hget1 as <-. exists v. split; [reflexivity|].
    rewrite Hcols, Hu, Hn, Hatts, Hj, deref_cons, Hatt.
    cbn [append_attachment message_cols sender_uuid sender_name attachments].
    rewrite extended_cons. auto.
Qed.

Lemma messages_step_fields lookup handles (m m' : message) :
  messages_step lookup handles m = Ok m' ->
  message_cols m' = message_cols m /\ attachments m' = attachments m.
Proof.
  unfold messages_step. destruct (PyDict.mem _ handles); cbn;
    [|now intros [= <-]].
  destruct (PyDict.getitem _ handles) as [hd|]; cbn; [|discriminate].
  destruct (normalized_contact hd) as [contact|]; cbn; [|discriminate].
  intros [= <-]. unfold annotate_message.
  now destruct (resolve lookup contact) as [[u n]|].
Qed.

Lemma for_values_keys_eq {V} (step : V -> result V) (d d' : PyDict.t V) :
  for_values step d = Ok d' -> map fst d' = map fst d.
Proof.
  revert d'. induction d as [|[k v] d IH]; intros d'; cbn.
  - now intros [= <-].
  - destruct (step v) as [v'|]; cbn; [|discriminate].
    destruct (for_values step d) as [d1|]; cbn; [|discriminate].
    intros [= <-]. cbn. now rewrite (IH d1).
Qed.

End LoopResults.

(** ** What a run of [backup_messages] writes *)

Lemma write_message_data_written (msgs : PyDict.t message) (chats : list chat)
    (w : world) :
  written (snd (write_message_data msgs chats w))
  = (written w ++ omap (message_file msgs) chats)%list.
Proof.
  revert w. induction chats as [|c chats IH]; intros w; cbn.
  - now rewrite app_nil_r.
  - unfold bind, message_file, list_omap. destruct (messages c) as [refs|]; cbn.
    + match goal with
      | |- context [write_message_data msgs chats ?w0] => rewrite (IH w0)
      end.
      cbn. now rewrite <- app_assoc.
    + apply IH.
Qed.

Lemma deref_ids {V : Type} (key : V -> Z) (d : PyDict.t V) (refs : list Z) :
  (forall k, In k refs -> exists v, PyDict.get k d = Some v /\ key v = k) ->
  map key (deref d refs) = refs.
Proof.
  induction refs as [|k refs IH]; intros Hall; [reflexivity|].
  rewrite deref_cons. destruct (Hall k (or_introl eq_refl)) as (v & -> & Hk).
  cbn. rewrite Hk, IH; [reflexivity|]. intros k' Hin. apply Hall. now right.
Qed.

Lemma get_None_keys {V : Type} (k : Z) (d : PyDict.t V) :
  PyDict.get k d = None <-> ~ In k (map fst d).
Proof.
  induction d as [|[k0 v0] d IH]; cbn; [tauto|].
  destruct (Z.eqb_spec k k0) as [->|Hne].
  - split; [discriminate | intros Hn; exfalso; apply Hn; now left].
  - rewrite IH. split; [intros Hn [Heq|Hin]; [congruence | tauto] | tauto].
Qed.

Lemma deref_from {V : Type} (d : PyDict.t V) (refs : list Z) (v : V) :
  In v (deref d refs) -> exists k, In k refs /\ PyDict.get k d = Some v.
Proof.
  induction refs as [|k refs IH]; [intros []|]. rewrite deref_cons.
  destruct (PyDict.get k d) as [v0|] eqn:Hget.
  - intros [<-|Hin]; [exists k; split; [now left | exact Hget]|].
    destruct (IH Hin) as (k' & Hk' & Hg). exists k'. split; [now right | exact Hg].
  - intros Hin. destruct (IH Hin) as (k' & Hk' & Hg).
    exists k'. split; [now right | exact Hg].
Qed.

Lemma option_map_listed {A B : Type} (f : A -> B) (l : list A) :
  option_map (map f) (listed l) = listed (map f l).
Proof. now destruct l. Qed.

Lemma extended_None {A : Type} (l : list A) : extended None l = listed l.
Proof. now destruct l. Qed.

Section Trace.
Context `{PhoneLibrary}.

(** A run that returns, stage by stage. *)
Lemma backup_messages_trace (backup : IOSBackup) (w w1 w' : world)
    (sms : connection) (db : sms_db) :
  open_sms_db backup w = (Ok sms, w1) ->
  fs w1 !! sms = Some (File (CSms db)) ->
  backup_messages backup w = (Ok tt, w') ->
  exists handles chats msgs chats' msgs',
    for_each (chat_handles_step (CONTACTS_LOOKUP w1)) (t_chat_handle_join db)
             (loaded_handles db, loaded_chats db) = Ok (handles, chats)
    /\ for_values (messages_step (CONTACTS_LOOKUP w1) handles)
                  (loaded_messages db) = Ok msgs
    /\ for_each (chat_messages_step msgs) (t_chat_message_join db) chats
       = Ok chats'
    /\ for_each (message_attachments_step (loaded_attachments db))
                (t_message_attachment_join db) msgs = Ok msgs'
    /\ written w'
       = (written w1
          ++ [("messages/chats.json", chats_to_json handles [] chats);
              ("messages/chats-full.json", chats_to_json handles msgs' chats')]
          ++ omap (message_file msgs') (PyDict.values chats'))%list.
Proof.
  intros Hopen Hdb Hrun.
  unfold backup_messages, bind in Hrun. rewrite Hopen in Hrun.
  unfold get_CONTACTS_LOOKUP in Hrun.
  destruct (bool_decide (CONTACTS_LOOKUP w1 = ∅)); [discriminate|].
  unfold select_sms in Hrun. rewrite Hdb in Hrun. unfold lift in Hrun.
  fold (loaded_chats db) (loaded_handles db) (loaded_messages db)
       (loaded_attachments db) in Hrun.
  destruct (for_each (chat_handles_step _) _ _) as [[handles chats]|e] eqn:H1;
    [|discriminate].
  cbn [fst snd] in Hrun. unfold to_json at 1 in Hrun.
  destruct (for_values _ (loaded_messages db)) as [msgs|e] eqn:H2;
    [|discriminate].
  destruct (for_each (chat_messages_step msgs) _ chats) as [chats'|e] eqn:H3;
    [|discriminate].
  destruct (for_each (message_attachments_step _) _ msgs) as [msgs'|e] eqn:H4;
    [|discriminate].
  unfold to_json in Hrun.
  exists handles, chats, msgs, chats', msgs'. repeat split; try assumption.
  match type of Hrun with
  | write_message_data ?ms ?cs ?w0 = _ =>
      pose proof (write_message_data_written ms cs w0) as Hw;
      rewrite Hrun in Hw; cbn [snd written] in Hw
  end.
  rewrite Hw, <- !app_assoc. reflexivity.
Qed.

Lemma chat_handles_loop_found lookup rows handles chats st' :
  for_each (chat_handles_step lookup) rows (handles, chats) = Ok st' ->
  forall c h, In (c, h) rows ->
              PyDict.get c chats <> None /\ PyDict.get h handles <> None.
Proof.
  revert handles chats. induction rows as [|[c0 h0] rows IH];
    intros handles chats Hloop c h Hin; [destruct Hin|].
  cbn [for_each] in Hloop.
  destruct (chat_handles_step lookup (handles, chats) (c0, h0))
    as [[hs1 cs1]|e] eqn:Hstep; cbn [rbind] in Hloop; [|discriminate].
  destruct Hin as [[= -> ->]|Hin].
  - revert Hstep. cbn. unfold PyDict.getitem.
    destruct (PyDict.get h handles); cbn; [|discriminate].
    destruct (normalized_contact _); cbn; [|discriminate].
    destruct (PyDict.get c chats); cbn; [|discriminate].
    intros _. split; discriminate.
  - apply chat_handles_step_Ok in Hstep as (contact & -> & ->).
    destruct (IH _ _ Hloop c h Hin) as [Hc Hh].
    rewrite get_alter_None in Hc. rewrite get_alter_None in Hh. now split.
Qed.

Lemma message_attachments_loop_found atts rows msgs msgs' :
  for_each (message_attachments_step atts) rows msgs = Ok msgs' ->
  forall m a, In (m, a) rows -> PyDict.get a atts <> None.
Proof.
  revert msgs. induction rows as [|[m0 a0] rows IH];
    intros msgs Hloop m a Hin; [destruct Hin|].
  cbn [for_each] in Hloop.
  destruct (message_attachments_step atts msgs (m0, a0)) as [ms1|e] eqn:Hstep;
    cbn [rbind] in Hloop; [|discriminate].
  destruct Hin as [[= -> ->]|Hin]; [|now apply (IH ms1 Hloop m a)].
  apply message_attachments_step_Ok in Hstep as (_ & att & Hatt & _). congruence.
Qed.

(** X9: when [backup_messages] returns, every chat of
    [messages/chats-full.json] lists, in the order of the join rows,
    exactly the handles that [chat_handle_join] gives it as members and
    exactly the messages that [chat_message_join] gives it, and every
    message listed holds exactly the attachments that
    [message_attachment_join] gives it; a chat or message with no row has
    no such key. *)
Theorem backup_messages_joins_exactly (backup : IOSBackup) (w w1 w' : world)
    (sms : connection) (db : sms_db) :
  open_sms_db backup w = (Ok sms, w1) ->
  fs w1 !! sms = Some (File (CSms db)) ->
  backup_messages backup w = (Ok tt, w') ->
  exists cs,
    In ("messages/chats-full.json", JChats cs) (written w')
    /\ map (fun cj => chat_id (cj_cols cj)) cs = map fst (loaded_chats db)
    /\ forall cj, In cj cs ->
         option_map (map (fun h => handle_id (handle_cols h))) (cj_members cj)
         = listed (joined (chat_id (cj_cols cj)) (t_chat_handle_join db))
         /\ option_map (map (fun m => message_id (message_cols m)))
                       (cj_messages cj)
            = listed (joined (chat_id (cj_cols cj)) (t_chat_message_join db))
         /\ forall ms mj,
              cj_messages cj = Some ms -> In mj ms ->
              option_map (map attachment_id) (attachments mj)
              = listed (joined (message_id (message_cols mj))
                               (t_message_attachment_join db)).
Proof.
  intros Hopen Hdb Hrun.
  destruct (backup_messages_trace _ _ _ _ _ _ Hopen Hdb Hrun)
    as (handles & chats & msgs & chats' & msgs' & H1 & H2 & H3 & H4 & Hw).
  pose proof (chat_handles_loop_exact _ _ _ _ _ _ H1) as (Hk1 & _ & Hc1 & Hh1).
  pose proof (chat_messages_loop_exact _ _ _ _ H3) as (Hk3 & Hc3).
  pose proof (message_attachments_loop_exact _ _ _ _ H4) as (Hk4 & Hm4).
  assert (Hnd : NoDup (map fst chats')).
  { rewrite Hk3, Hk1. apply keys_by_key_NoDup. }
  (* what is stored under a key of the final dicts *)
  assert (Hchat : forall c ch, PyDict.get c chats' = Some ch ->
            chat_id (chat_cols ch) = c
            /\ members ch = listed (joined c (t_chat_handle_join db))
            /\ messages ch = listed (joined c (t_chat_message_join db))).
  { intros c ch Hget.
    apply Hc3 in Hget as (ch3 & Hget3 & Hcols3 & Hmem3 & Hmsg3).
    apply Hc1 in Hget3 as (ch1 & Hget1 & Hcols1 & Hmsg1 & Hmem1).
    unfold loaded_chats in Hget1. apply get_by_key_Some in Hget1 as [Hin Hid].
    apply in_map_iff in Hin as (r & <- & _). cbn in Hid, Hmsg1, Hmem1.
    rewrite extended_None in Hmem1.
    rewrite Hcols3, Hcols1, Hmem3, Hmem1, Hmsg3, Hmsg1, extended_None.
    now repeat split. }
  assert (Hhandle : forall h, In h (map snd (t_chat_handle_join db)) ->
            exists hd, PyDict.get h handles = Some hd
                       /\ handle_id (handle_cols hd) = h).
  { intros h Hin. apply in_map_iff in Hin as ([c h'] & Hh & Hin). cbn in Hh.
    subst h'. pose proof (chat_handles_loop_found _ _ _ _ _ H1 c h Hin) as [_ Hf].
    assert (Hf' : PyDict.get h handles <> None).
    { intros Hnone. apply Hf. apply chat_handles_loop_keys in H1 as [Hkh _].
      now apply Hkh. }
    destruct (PyDict.get h handles) as [hd|] eqn:Hget; [|congruence].
    exists hd. split; [reflexivity|].
    apply Hh1 in Hget as (hd0 & Hget0 & ->). unfold loaded_handles in Hget0.
    now apply get_by_key_Some in Hget0 as [_ Hid]. }
  assert (Hmessage : forall m v, PyDict.get m msgs' = Some v ->
            message_id (message_cols v) = m
            /\ attachments v
               = listed (deref (loaded_attachments db)
                               (joined m (t_message_attachment_join db)))).
  { intros m v Hget. apply Hm4 in Hget as (v2 & Hget2 & Hcols & _ & _ & Hatts).
    pose proof (for_values_get _ _ _ m H2) as Hstep.
    destruct (PyDict.get m (loaded_messages db)) as [v0|] eqn:Hget0;
      [|congruence].
    destruct Hstep as (v2' & Hstep & Hget2'). rewrite Hget2 in Hget2'.
    injection Hget2' as <-. apply messages_step_fields in Hstep as [Hcols2 Hatts2].
    unfold loaded_messages in Hget0. apply get_by_key_Some in Hget0 as [Hin Hid].
    apply in_map_iff in Hin as (r & <- & _). cbn in Hid, Hcols2, Hatts2.
    rewrite Hcols, Hcols2, Hatts, Hatts2, extended_None. now split. }
  assert (Hfoundm : forall c m, In (c, m) (t_chat_message_join db) ->
            exists v, PyDict.get m msgs' = Some v).
  { intros c m Hin. destruct (chat_messages_loop_joins _ _ _ _ _ _ H3 Hin) as [Hf _].
    destruct (PyDict.get m msgs') as [v|] eqn:Hget; [eauto|].
    exfalso. apply Hf. apply get_None_keys. rewrite <- Hk4.
    now apply get_None_keys. }
  exists (map (chat_to_json handles msgs') (PyDict.values chats')).
  split; [|split].
  - rewrite Hw. apply in_or_app. right. apply in_or_app. left. right. now left.
  - rewrite map_map. cbn. unfold PyDict.values. rewrite map_map.
    rewrite <- Hk1, <- Hk3. apply map_ext_in. intros [k ch] Hin. cbn.
    apply (get_of_In _ _ _ Hnd) in Hin. now apply Hchat in Hin.
  - intros cj Hin. apply in_map_iff in Hin as (ch & <- & Hin).
    apply (values_In_get _ _ Hnd) in Hin as [c Hget].
    destruct (Hchat c ch Hget) as (Hid & Hmem & Hmsg).
    cbn [chat_to_json cj_cols cj_members cj_messages]. rewrite Hid.
    split; [|split].
    + rewrite Hmem. destruct (joined c (t_chat_handle_join db)) as [|h l] eqn:Hj;
        [reflexivity|].
      cbn [option_map listed]. f_equal. apply deref_ids. intros k Hk. apply Hhandle.
      rewrite <- Hj in Hk. apply joined_In in Hk.
      apply in_map_iff. now exists (c, k).
    + rewrite Hmsg. destruct (joined c (t_chat_message_join db)) as [|m l] eqn:Hj;
        [reflexivity|].
      cbn [option_map listed]. f_equal. apply deref_ids. intros k Hk.
      rewrite <- Hj in Hk. apply joined_In in Hk.
      destruct (Hfoundm c k Hk) as [v Hv]. exists v. split; [exact Hv|].
      now apply Hmessage in Hv.
    + intros ms mj Hms Hmj. rewrite Hmsg in Hms.
      destruct (listed (joined c (t_chat_message_join db))) as [refs|];
        [|discriminate].
      cbn [option_map] in Hms. injection Hms as <-.
      apply deref_from in Hmj as (k & _ & Hget').
      apply Hmessage in Hget' as [Hidm Hatts].
      rewrite Hidm, Hatts, option_map_listed. f_equal.
      apply deref_ids. intros a' Ha'. apply joined_In in Ha'.
      pose proof (message_attachments_loop_found _ _ _ _ H4 _ _ Ha') as Hf.
      destruct (PyDict.get a' (loaded_attachments db)) as [att|] eqn:Hatt;
        [|congruence].
      exists att. split; [reflexivity|]. unfold loaded_attachments in Hatt.
      now apply get_by_key_Some in Hatt as [_ Hk].
Qed.

End Trace.

Lemma values_related {V : Type} (P : V -> V -> Prop) (d d' : PyDict.t V) :
  map fst d' = map fst d -> NoDup (map fst d) ->
  (forall k v', PyDict.get k d' = Some v' ->
                exists v, PyDict.get k d = Some v /\ P v' v) ->
  Forall2 P (PyDict.values d') (PyDict.values d).
Proof.
  revert d'. induction d as [|[k v] d IH]; intros [|[k' v'] d'] Hk Hnd Hrel;
    try discriminate; [constructor|].
  cbn in Hk. injection Hk as -> Hk. cbn [map fst] in Hnd.
  apply NoDup_cons in Hnd as [Hk0 Hnd]. cbn. constructor.
  - specialize (Hrel k v'). cbn in Hrel. rewrite Z.eqb_refl in Hrel.
    now destruct (Hrel eq_refl) as (v0 & [= <-] & HP).
  - apply IH; [exact Hk | exact Hnd|]. intros c v1 Hget.
    assert (Hc : c <> k).
    { intros ->. apply Hk0. apply list_elem_of_In. rewrite <- Hk.
      destruct (in_dec Z.eq_dec k (map fst d')) as [Hin|Hnin]; [exact Hin|].
      apply get_None_keys in Hnin. congruence. }
    specialize (Hrel c v1). cbn in Hrel.
    destruct (Z.eqb_spec c k) as [->|_]; [congruence|]. now apply Hrel.
Qed.

Lemma Forall2_map_eq {A B : Type} (P : A -> A -> Prop) (f g : A -> B)
    (l' l : list A) :
  Forall2 P l' l -> (forall a b, P a b -> f a = g b) -> map f l' = map g l.
Proof.
  intros Hall Hf. induction Hall as [|a b l' l HP Hall IH]; [reflexivity|].
  cbn. now rewrite (Hf a b HP), IH.
Qed.

Section Written.
Context `{PhoneLibrary}.

Lemma message_files_of (handles : PyDict.t handle) (msgs : PyDict.t message)
    (chats : list chat) :
  omap message_file_of (map (chat_to_json handles msgs) chats)
  = omap (message_file msgs) chats.
Proof.
  induction chats as [|c chats IH]; [reflexivity|].
  cbn [map]. change (omap ?f (?x :: ?l)) with
    (match f x with Some y => y :: omap f l | None => omap f l end).
  rewrite IH. unfold message_file_of, message_file. cbn.
  now destruct (messages c).
Qed.

(** X10: a run of [backup_messages] that returns writes, in this order:
    [messages/chats.json], whose chats have members but no messages yet;
    [messages/chats-full.json], with the same chats and members; and, for
    each chat of the latter that lists messages, one file named after the
    chat id that holds those very messages.  A chat without messages gets
    no file. *)
Theorem backup_messages_files (backup : IOSBackup) (w w1 w' : world)
    (sms : connection) (db : sms_db) :
  open_sms_db backup w = (Ok sms, w1) ->
  fs w1 !! sms = Some (File (CSms db)) ->
  backup_messages backup w = (Ok tt, w') ->
  exists cs0 cs,
    written w'
    = (written w1
       ++ [("messages/chats.json", JChats cs0);
           ("messages/chats-full.json", JChats cs)]
       ++ omap message_file_of cs)%list
    /\ (forall cj, In cj cs0 -> cj_messages cj = None)
    /\ map cj_cols cs = map cj_cols cs0
    /\ map cj_members cs = map cj_members cs0.
Proof.
  intros Hopen Hdb Hrun.
  destruct (backup_messages_trace _ _ _ _ _ _ Hopen Hdb Hrun)
    as (handles & chats & msgs & chats' & msgs' & H1 & H2 & H3 & H4 & Hw).
  pose proof (chat_handles_loop_exact _ _ _ _ _ _ H1) as (Hk1 & _ & Hc1 & _).
  pose proof (chat_messages_loop_exact _ _ _ _ H3) as (Hk3 & Hc3).
  assert (Hnd : NoDup (map fst chats)).
  { rewrite Hk1. apply keys_by_key_NoDup. }
  assert (Hrel : Forall2 (fun ch' ch => chat_cols ch' = chat_cols ch
                                        /\ members ch' = members ch)
                         (PyDict.values chats') (PyDict.values chats)).
  { apply values_related; [exact Hk3 | exact Hnd|].
    intros c ch' Hget. apply Hc3 in Hget as (ch & Hg & Hc & Hm & _). eauto. }
  exists (map (chat_to_json handles []) (PyDict.values chats)),
    (map (chat_to_json handles msgs') (PyDict.values chats')).
  split; [|split; [|split]].
  - rewrite Hw, message_files_of. reflexivity.
  - intros cj Hin. apply in_map_iff in Hin as (ch & <- & Hin).
    apply (values_In_get _ _ Hnd) in Hin as [c Hget].
    apply Hc1 in Hget as (ch0 & Hget0 & _ & Hmsg & _).
    unfold loaded_chats in Hget0. apply get_by_key_Some in Hget0 as [Hin0 _].
    apply in_map_iff in Hin0 as (r & <- & _). cbn. now rewrite Hmsg.
  - rewrite !map_map. eapply Forall2_map_eq; [exact Hrel|].
    intros a b [Hc _]. exact Hc.
  - rewrite !map_map. eapply Forall2_map_eq; [exact Hrel|].
    intros a b [_ Hm]. cbn. now rewrite Hm.
Qed.

End Written.

Section Sender.
Context `{PhoneLibrary}.

Lemma normalized_contact_cols (a b : handle) :
  handle_cols a = handle_cols b -> normalized_contact a = normalized_contact b.
Proof. unfold normalized_contact. now intros ->. Qed.

Lemma get_by_key_unique {R V : Type} (new : R -> V) (key : R -> Z)
    (keyV : V -> Z) (rows : list R) (r : R) :
  (forall r0, keyV (new r0) = key r0) ->
  In r rows ->
  (forall r', In r' rows -> key r' = key r -> r' = r) ->
  PyDict.get (key r) (PyDict.by_key keyV (map new rows)) = Some (new r).
Proof.
  intros Hkey Hin Huniq.
  destruct (PyDict.get (key r) (PyDict.by_key keyV (map new rows))) as [v|] eqn:Hget.
  - apply get_by_key_Some in Hget as [Hv Hk].
    apply in_map_iff in Hv as (r' & <- & Hr'). rewrite Hkey in Hk.
    now rewrite (Huniq r' Hr' Hk).
  - exfalso. revert Hget. apply get_Some_of_row. exists (new r).
    split; [now apply in_map | apply Hkey].
Qed.

(** X11: when [backup_messages] returns, a message whose handle is a row
    of the handle table is written, under every chat it is joined to, with
    exactly the sender that the contact table gives for the handle's
    contact, normalized: the uuid and name of the entry if there is one,
    no sender keys if there is none. *)
Theorem backup_messages_sender (backup : IOSBackup) (w w1 w' : world)
    (sms : connection) (db : sms_db) (c : Z) (r : message_row)
    (hr : handle_row) (contact : option string) :
  open_sms_db backup w = (Ok sms, w1) ->
  fs w1 !! sms = Some (File (CSms db)) ->
  backup_messages backup w = (Ok tt, w') ->
  In (c, message_id r) (t_chat_message_join db) ->
  In r (t_message db) ->
  (forall r', In r' (t_message db) -> message_id r' = message_id r -> r' = r) ->
  In hr (t_handle db) ->
  (forall hr', In hr' (t_handle db) -> handle_id hr' = handle_id hr -> hr' = hr) ->
  message_handle_id r = handle_id hr ->
  normalized_contact (new_handle hr) = Ok contact ->
  exists cs cj ms mj,
    In ("messages/chats-full.json", JChats cs) (written w')
    /\ In cj cs /\ chat_id (cj_cols cj) = c
    /\ cj_messages cj = Some ms
    /\ In mj ms /\ message_cols mj = r
    /\ sender_uuid mj = option_map fst (resolve (CONTACTS_LOOKUP w1) contact)
    /\ sender_name mj = option_map snd (resolve (CONTACTS_LOOKUP w1) contact).
Proof.
  intros Hopen Hdb Hrun Hjoin Hr Hruniq Hhr Hhuniq Hh Hcontact.
  destruct (backup_messages_trace _ _ _ _ _ _ Hopen Hdb Hrun)
    as (handles & chats & msgs & chats' & msgs' & H1 & H2 & H3 & H4 & Hw).
  set (lookup := CONTACTS_LOOKUP w1) in *.
  pose proof (chat_handles_loop_exact _ _ _ _ _ _ H1) as (Hk1 & Hkh & Hc1 & Hh1).
  pose proof (chat_messages_loop_exact _ _ _ _ H3) as (Hk3 & Hc3).
  pose proof (message_attachments_loop_exact _ _ _ _ H4) as (Hk4 & Hm4).
  (* the handle, as the loop over the messages finds it *)
  assert (Hhandle : exists hd, PyDict.get (handle_id hr) handles = Some hd
                               /\ handle_cols hd = hr).
  { pose proof (get_by_key_unique new_handle handle_id
                  (fun h => handle_id (handle_cols h)) (t_handle db) hr
                  (fun _ => eq_refl) Hhr Hhuniq) as Hget0.
    fold (loaded_handles db) in Hget0.
    destruct (PyDict.get (handle_id hr) handles) as [hd|] eqn:Hget.
    - exists hd. split; [reflexivity|].
      apply Hh1 in Hget as (hd0 & Hg & ->). rewrite Hget0 in Hg.
      now injection Hg as <-.
    - apply get_None_keys in Hget. rewrite Hkh in Hget.
      apply get_None_keys in Hget. congruence. }
  destruct Hhandle as (hd & Hhd & Hcols).
  (* the message after the loop over the messages *)
  pose proof (get_by_key_unique new_message message_id
                (fun m => message_id (message_cols m)) (t_message db) r
                (fun _ => eq_refl) Hr Hruniq) as Hget0.
  fold (loaded_messages db) in Hget0.
  pose proof (for_values_get _ _ _ (message_id r) H2) as Hstep.
  rewrite Hget0 in Hstep. destruct Hstep as (m1 & Hm1 & Hget1).
  unfold messages_step in Hm1. cbn [new_message message_cols] in Hm1.
  rewrite Hh in Hm1. unfold PyDict.mem, PyDict.getitem in Hm1.
  rewrite Hhd in Hm1. cbn [negb rbind] in Hm1.
  rewrite (normalized_contact_cols hd (new_handle hr) Hcols), Hcontact in Hm1.
  cbn [rbind] in Hm1. injection Hm1 as <-.
  (* the message after the loop over the attachments *)
  assert (Hfinal : exists mj, PyDict.get (message_id r) msgs' = Some mj
                              /\ message_cols mj = r
                              /\ sender_uuid mj = option_map fst (resolve lookup contact)
                              /\ sender_name mj = option_map snd (resolve lookup contact)).
  { destruct (PyDict.get (message_id r) msgs') as [mj|] eqn:Hget.
    - exists mj. split; [reflexivity|].
      apply Hm4 in Hget as (v & Hv & -> & -> & -> & _).
      rewrite Hget1 in Hv. injection Hv as <-. unfold annotate_message.
      now destruct (resolve lookup contact) as [[u n]|].
    - apply get_None_keys in Hget. rewrite Hk4 in Hget.
      apply get_None_keys in Hget. congruence. }
  destruct Hfinal as (mj & Hmj & Hmcols & Hu & Hn).
  (* the chat *)
  destruct (chat_messages_loop_joins _ _ _ _ _ _ H3 Hjoin)
    as [_ (ch & refs & Hch & Hrefs & Hin)].
  assert (Hid : chat_id (chat_cols ch) = c).
  { apply Hc3 in Hch as (ch3 & Hg3 & -> & _).
    apply Hc1 in Hg3 as (ch1 & Hg1 & -> & _).
    unfold loaded_chats in Hg1. now apply get_by_key_Some in Hg1 as [_ Hk]. }
  exists (map (chat_to_json handles msgs') (PyDict.values chats')),
    (chat_to_json handles msgs' ch), (deref msgs' refs), mj.
  repeat split; try assumption.
  - rewrite Hw. apply in_or_app. right. apply in_or_app. left. right. now left.
  - apply in_map. eapply get_In_values, Hch.
  - cbn. now rewrite Hrefs.
  - eapply deref_In; eauto.
Qed.

End Sender.

(** ** Queries on the manifest *)

Lemma like_percent (s : string) : like "%" s = true.
Proof.
  induction s as [|d s IH]; [reflexivity|].
  change (like "%" (String d s))
    with (like "" (String d s) || like "%" s).
  rewrite IH. apply orb_true_r.
Qed.

Lemma like_prefix (prefix s : string) :
  PyStr.contains "%" prefix = false -> PyStr.contains "_" prefix = false ->
  like (prefix +:+ "%") s = begins_with prefix s.
Proof.
  revert s. induction prefix as [|c p IH]; intros s Hp Hu.
  - apply like_percent.
  - cbn [PyStr.contains] in Hp, Hu.
    apply orb_false_iff in Hp as [Hc Hp]. apply orb_false_iff in Hu as [Hcu Hu].
    rewrite append_cons. cbn [like begins_with].
    unfold PyStr.eqc in *. rewrite Ascii.eqb_sym, Hc.
    destruct s as [|d s]; [reflexivity|].
    rewrite (Ascii.eqb_sym c "_"), Hcu. cbn [orb]. now rewrite IH.
Qed.

Lemma contains_append_percent (prefix : string) :
  PyStr.contains "%" (prefix +:+ "%") = true.
Proof.
  induction prefix as [|c p IH]; [reflexivity|].
  rewrite append_cons. cbn [PyStr.contains]. rewrite IH. apply orb_true_r.
Qed.

Lemma string_eqb_eq (a b : string) : String.eqb a b = true -> a = b.
Proof. apply String.eqb_eq. Qed.

(** X12: [files(domain, prefix + "%")], for a domain that is not empty and
    holds no [%] and a prefix that holds neither [%] nor [_], yields, in
    the order of the manifest, exactly the files of that domain whose path
    begins with the prefix, the case of ASCII letters in the path not
    counting. *)
Theorem IOSBackup_files_prefix (backup : IOSBackup) (domain prefix : string)
    (rows : list file_row) (w : world) :
  fs w !! backup_db backup = Some (File (CManifest rows)) ->
  domain <> "" -> PyStr.contains "%" domain = false ->
  PyStr.contains "%" prefix = false -> PyStr.contains "_" prefix = false ->
  IOSBackup_files backup (Some domain) (Some (prefix +:+ "%")) w
  = (Ok (map (file_of_row backup)
             (List.filter (fun r => String.eqb (row_domain r) domain
                                    && begins_with prefix (row_relativePath r))
                          rows)), w).
Proof.
  intros Hdb Hd Hdp Hp Hu. unfold IOSBackup_files, given.
  rewrite (truthy_nonempty _ Hd).
  unfold bind, select_Files. rewrite Hdb. unfold ret, file_of_row. do 3 f_equal.
  apply filter_ext. intros r. unfold files_where, given, files_condition.
  rewrite (truthy_nonempty _ Hd).
  rewrite (truthy_nonempty (prefix +:+ "%")) by (apply append_nonempty; discriminate).
  rewrite Hdp, contains_append_percent. now rewrite like_prefix.
Qed.

(** X13: for a domain and a path that are not empty and hold no [%],
    [file] and [files] agree: [file] returns a file exactly when [files]
    yields that file and nothing else; when [files] yields none or several,
    [file] raises. *)
Theorem IOSBackup_file_agrees_with_files (backup : IOSBackup)
    (domain path : string) (rows : list file_row) (w : world)
    (f : IOSBackupFile) :
  fs w !! backup_db backup = Some (File (CManifest rows)) ->
  domain <> "" -> PyStr.contains "%" domain = false ->
  path <> "" -> PyStr.contains "%" path = false ->
  (fst (IOSBackup_file backup domain path w) = Ok f
   <-> fst (IOSBackup_files backup (Some domain) (Some path) w) = Ok [f]).
Proof.
  intros Hdb Hd Hdp Hp Hpp.
  assert (Hfiles : IOSBackup_files backup (Some domain) (Some path) w
                   = (Ok (map (file_of_row backup)
                              (List.filter (matches domain path) rows)), w)).
  { unfold IOSBackup_files, given.
    rewrite (truthy_nonempty _ Hd).
    unfold bind, select_Files. rewrite Hdb. unfold ret, file_of_row.
    do 3 f_equal.
    apply filter_ext. intros r. unfold files_where, given, files_condition.
    now rewrite (truthy_nonempty _ Hd), (truthy_nonempty _ Hp), Hdp, Hpp. }
  rewrite Hfiles. unfold IOSBackup_file, bind, select_Files. rewrite Hdb.
  assert (Hrow : forall r, In r (List.filter (matches domain path) rows) ->
                   file_of_row backup r
                   = IOSBackupFile_init backup domain path (row_fileID r)).
  { intros r Hin. apply filter_In in Hin as [_ Hm]. unfold matches in Hm.
    apply andb_true_iff in Hm as [Hmd Hmp].
    apply string_eqb_eq in Hmd. apply string_eqb_eq in Hmp.
    unfold file_of_row. now rewrite Hmd, Hmp. }
  destruct (List.filter (matches domain path) rows) as [|r [|r' rest]]; cbn.
  - split; discriminate.
  - rewrite (Hrow r (or_introl eq_refl)). split; intros [= <-]; reflexivity.
  - split; discriminate.
Qed.

Lemma index_files_from (backup : IOSBackup) (domain path : string)
    (rows : list file_row) (files : gmap string IOSBackupFile) :
  fold_left (fun files r =>
               <[row_relativePath r :=
                   IOSBackupFile_init backup domain (row_relativePath r)
                     (row_fileID r)]> files) rows files !! path
  = match last (List.filter (fun r => String.eqb (row_relativePath r) path) rows) with
    | Some r => Some (IOSBackupFile_init backup domain path (row_fileID r))
    | None => files !! path
    end.
Proof.
  revert files. induction rows as [|r rows IH]; intros files; [reflexivity|].
  cbn [fold_left List.filter]. rewrite IH.
  destruct (String.eqb (row_relativePath r) path) eqn:Hr.
  - apply string_eqb_eq in Hr.
    destruct (List.filter _ rows) as [|r1 rest] eqn:Hf.
    + cbn. rewrite <- Hr. now rewrite lookup_insert_eq.
    + rewrite last_cons_cons.
      destruct (last (r1 :: rest)) eqn:Hl; [reflexivity|].
      apply last_None in Hl. discriminate.
  - destruct (last _); [reflexivity|].
    apply lookup_insert_ne. intros Heq.
    apply (f_equal (fun s => String.eqb s path)) in Heq.
    rewrite String.eqb_refl in Heq. congruence.
Qed.

(** X14: the files of an application are indexed by path, the last row of
    the manifest winning when a path occurs more than once in the
    application's domain; whenever [file] finds a path in that domain, the
    application has the same file under it. *)
Theorem IOSBackupApplication_files (backup : IOSBackup) (id : string)
    (rows : list file_row) (w : world) :
  fs w !! backup_db backup = Some (File (CManifest rows)) ->
  exists app,
    IOSBackupApplication_init backup id w = (Ok app, w)
    /\ (forall path,
          app_files app !! path
          = option_map (fun r => IOSBackupFile_init backup ("AppDomain-" +:+ id)
                                   path (row_fileID r))
                       (last (List.filter (matches ("AppDomain-" +:+ id) path) rows)))
    /\ (forall path f,
          fst (IOSBackup_file backup ("AppDomain-" +:+ id) path w) = Ok f ->
          app_files app !! path = Some f).
Proof.
  intros Hdb. unfold IOSBackupApplication_init, bind, select_Files.
  rewrite Hdb. eexists. split; [reflexivity|]. cbn [app_files].
  assert (Hlookup : forall path,
            index_files backup ("AppDomain-" +:+ id)
              (List.filter (fun r => String.eqb (row_domain r) ("AppDomain-" +:+ id))
                           rows) !! path
            = option_map (fun r => IOSBackupFile_init backup ("AppDomain-" +:+ id)
                                     path (row_fileID r))
                (last (List.filter (matches ("AppDomain-" +:+ id) path) rows))).
  { intros path. unfold index_files. rewrite index_files_from, lookup_empty.
    assert (Hfilter : List.filter (fun r => String.eqb (row_relativePath r) path)
                        (List.filter (fun r => String.eqb (row_domain r)
                                                 ("AppDomain-" +:+ id)) rows)
                      = List.filter (matches ("AppDomain-" +:+ id) path) rows).
    { clear. induction rows as [|r rows IH]; [reflexivity|]. cbn.
      unfold matches at 1.
      destruct (String.eqb (row_domain r) _); cbn; [|exact IH].
      destruct (String.eqb (row_relativePath r) path); cbn; now rewrite IH. }
    rewrite Hfilter. now destruct (last _). }
  split; [exact Hlookup|].
  intros path f. rewrite Hlookup.
  unfold IOSBackup_file, bind, select_Files. rewrite Hdb.
  destruct (List.filter (matches ("AppDomain-" +:+ id) path) rows)
    as [|r [|r' rest]]; cbn; try discriminate.
  intros Hf. injection Hf as Hf. now rewrite <- Hf.
Qed.

(** ** People and the contact table *)

Lemma column_truthy_cases (v : option string) :
  column_truthy v = [] \/ exists s, column_truthy v = [s] /\ s <> "".
Proof.
  destruct v as [[|c s]|]; cbn; auto. right. eexists. split; [reflexivity|].
  discriminate.
Qed.

Lemma str_join_nonempty (sep p : string) (rest : list string) :
  p <> "" -> str_join sep (p :: rest) <> "".
Proof.
  intros Hp. destruct p as [|c p]; [congruence|].
  destruct rest; cbn [str_join]; [discriminate|].
  rewrite append_cons. discriminate.
Qed.

(** X15: the display name of a person is empty exactly when the first
    name, the nickname, the last name and the organization are all NULL or
    empty. *)
Theorem display_name_empty (r : person_row) :
  display_name r = ""
  <-> column_truthy (first_name r) = [] /\ column_truthy (nickname r) = []
      /\ column_truthy (last_name r) = [] /\ column_truthy (organization r) = [].
Proof.
  unfold display_name, display_name_parts.
  destruct (column_truthy_cases (first_name r)) as [->|(f & -> & Hf)].
  - destruct (column_truthy_cases (nickname r)) as [->|(n & -> & Hn)].
    + destruct (column_truthy_cases (last_name r)) as [->|(l & -> & Hl)].
      * destruct (column_truthy_cases (organization r)) as [->|(o & -> & Ho)].
        -- cbn. tauto.
        -- cbn. split; [intros He; congruence | intros (_ & _ & _ & [=])].
      * split; [|intros (_ & _ & [=] & _)]. intros He. exfalso. revert He.
        cbn [map app]. now apply str_join_nonempty.
    + split; [|intros (_ & [=] & _)]. intros He. exfalso. revert He.
      cbn [map app]. apply str_join_nonempty. unfold double_quote.
      rewrite append_cons. discriminate.
  - split; [|intros ([=] & _)]. intros He. exfalso. revert He.
    cbn [map app]. now apply str_join_nonempty.
Qed.

Section TableFacts.
Implicit Types (table : gmap string (string * string)) (p : person).

Lemma enter_lookup entry cs table c :
  enter entry cs table !! c
  = if in_dec String.string_dec c cs then Some entry else table !! c.
Proof.
  revert table. induction cs as [|c0 cs IH]; intros table; [reflexivity|].
  cbn [enter fold_left]. fold (enter entry cs (<[c0 := entry]> table)).
  rewrite IH.
  destruct (in_dec String.string_dec c cs) as [Hin|Hnin];
    destruct (in_dec String.string_dec c (c0 :: cs)) as [Hin'|Hnin'];
    try reflexivity.
  - exfalso. apply Hnin'. now right.
  - destruct Hin' as [->|Hin]; [apply lookup_insert_eq | contradiction].
  - apply lookup_insert_ne. intros ->. apply Hnin'. now left.
Qed.

(** One person's turn in the loops that fill the table. *)
Lemma load_contacts_cons p (rest : list person) table :
  load_contacts (p :: rest) table
  = match person_contacts p with
    | None => (MissingKey "contacts", table)
    | Some _ =>
        match contacts_of p with
        | [] => load_contacts rest table
        | c :: cs =>
            match person_uuid (person_cols p) with
            | None => (MissingKey "uuid", table)
            | Some uuid =>
                load_contacts rest
                  (enter (uuid, person_display_name p) (c :: cs) table)
            end
        end
    end.
Proof. reflexivity. Qed.

Lemma load_contacts_app (before after : list person) table :
  load_contacts (before ++ after) table
  = match load_contacts before table with
    | (Loaded, t) => load_contacts after t
    | (MissingKey k, t) => (MissingKey k, t)
    end.
Proof.
  revert table. induction before as [|p before IH]; intros table; [reflexivity|].
  change ((p :: before) ++ after)%list with (p :: (before ++ after))%list.
  rewrite !load_contacts_cons.
  destruct (person_contacts p); [|reflexivity].
  destruct (contacts_of p); [apply IH|].
  destruct (person_uuid (person_cols p)); [apply IH | reflexivity].
Qed.

(** X16: loading the contact table never removes a key: an entry that is
    in the table before, from an earlier backup say, is still a key after,
    whether the loading ends well or not. *)
Theorem load_contacts_keeps_keys (people : list person) table (c : string)
    (entry : string * string) :
  table !! c = Some entry ->
  exists entry', snd (load_contacts people table) !! c = Some entry'.
Proof.
  revert table entry. induction people as [|p people IH]; intros table entry Hc;
    [cbn; eauto|].
  rewrite load_contacts_cons.
  destruct (person_contacts p); [|cbn; eauto].
  destruct (contacts_of p) as [|c0 cs]; [now apply (IH table entry)|].
  destruct (person_uuid (person_cols p)) as [uuid|]; [|cbn; eauto].
  pose proof (enter_lookup (uuid, person_display_name p) (c0 :: cs) table c) as Hl.
  destruct (in_dec String.string_dec c (c0 :: cs)); eapply IH; rewrite Hl; eauto.
Qed.

Lemma load_contacts_untouched (people : list person) table (c : string) :
  (forall p, In p people -> ~ In c (contacts_of p)) ->
  snd (load_contacts people table) !! c = table !! c.
Proof.
  revert table. induction people as [|p people IH]; intros table Hnone;
    [reflexivity|].
  rewrite load_contacts_cons.
  assert (Hrest : forall q, In q people -> ~ In c (contacts_of q))
    by (intros q Hq; apply Hnone; now right).
  destruct (person_contacts p); [|reflexivity].
  destruct (contacts_of p) as [|c0 cs] eqn:Hcs; [now apply IH|].
  destruct (person_uuid (person_cols p)) as [uuid|]; [|reflexivity].
  rewrite IH by exact Hrest. rewrite enter_lookup.
  destruct (in_dec String.string_dec c (c0 :: cs)) as [Hin|_]; [|reflexivity].
  exfalso. rewrite <- Hcs in Hin. revert Hin. apply Hnone. now left.
Qed.

(** X17: when the loading ends well, a contact string resolves to the last
    person, in the order of [people.values()], who holds it: every contact
    of every person is a key of the table, with the uuid and display name
    of that person unless a later person holds the same string. *)
Theorem load_contacts_last_wins (before after : list person) p table
    (c : string) (t' : gmap string (string * string)) :
  load_contacts (before ++ p :: after) table = (Loaded, t') ->
  In c (contacts_of p) ->
  (forall q, In q after -> ~ In c (contacts_of q)) ->
  exists uuid, person_uuid (person_cols p) = Some uuid
               /\ t' !! c = Some (uuid, person_display_name p).
Proof.
  intros Hload Hc Hafter. rewrite load_contacts_app in Hload.
  destruct (load_contacts before table) as [[|k] t0]; [|discriminate].
  rewrite load_contacts_cons in Hload.
  destruct (person_contacts p); [|discriminate].
  destruct (contacts_of p) as [|c0 cs] eqn:Hcs; [destruct Hc|].
  destruct (person_uuid (person_cols p)) as [uuid|]; [|discriminate].
  exists uuid. split; [reflexivity|].
  pose proof (load_contacts_untouched after
                (enter (uuid, person_display_name p) (c0 :: cs) t0) c Hafter) as Hl.
  rewrite Hload in Hl. cbn [snd] in Hl. rewrite Hl, enter_lookup.
  destruct (in_dec String.string_dec c (c0 :: cs)); [reflexivity | contradiction].
Qed.

Lemma load_contacts_Loaded (people : list person) table t' :
  load_contacts people table = (Loaded, t') ->
  forall p, In p people -> person_contacts p <> None.
Proof.
  revert table. induction people as [|q people IH]; intros table Hload p Hin;
    [destruct Hin|].
  rewrite load_contacts_cons in Hload.
  destruct (person_contacts q) eqn:Hq; [|discriminate].
  destruct Hin as [<-|Hin]; [congruence|].
  destruct (contacts_of q); [now apply (IH table)|].
  destruct (person_uuid (person_cols q)); [|discriminate].
  eapply IH; eauto.
Qed.

End TableFacts.

Lemma has_value_cases (values : list (Z * option string)) (k : Z) :
  has_value values k \/ (forall c, In (k, Some c) values -> c = "").
Proof.
  induction values as [|[k0 v0] values IH].
  - right. intros c [].
  - destruct IH as [(c & Hin & Hc)|Hnone];
      [left; exists c; split; [now right | exact Hc]|].
    destruct (Z.eq_dec k0 k) as [->|Hne].
    + destruct v0 as [[|a c]|].
      * right. intros c [[= <-]|Hin]; [reflexivity | now apply Hnone].
      * left. exists (String a c). split; [now left | discriminate].
      * right. intros c [[=]|Hin]. now apply Hnone.
    + right. intros c [[= Hk _]|Hin]; [congruence | now apply Hnone].
Qed.

Lemma append_under_In (ty : contact_type) (c : string)
    (contacts : list (contact_type * list string)) :
  In c (concat (map snd (append_under ty c contacts))).
Proof.
  induction contacts as [|[ty' cs] contacts IH]; cbn; [now left|].
  destruct (contact_type_eqb ty ty'); cbn; apply in_or_app.
  - left. apply in_or_app. right. now left.
  - now right.
Qed.

Lemma add_contact_held (ty : contact_type) (c : string) (p : person) :
  held (add_contact ty c p).
Proof.
  split; [discriminate|]. unfold contacts_of, add_contact. cbn.
  intros Hnil. pose proof (append_under_In ty c (default [] (person_contacts p))) as Hin.
  rewrite Hnil in Hin. destruct Hin.
Qed.

Lemma load_contacts_Loaded_iff (people : list person)
    (table : gmap string (string * string)) :
  fst (load_contacts people table) = Loaded
  <-> forall p, In p people ->
        person_contacts p <> None
        /\ (contacts_of p <> [] -> person_uuid (person_cols p) <> None).
Proof.
  revert table. induction people as [|q people IH]; intros table.
  - split; [intros _ p [] | reflexivity].
  - rewrite load_contacts_cons. split.
    + intros Hload p Hin.
      destruct (person_contacts q) eqn:Hq; [|discriminate].
      destruct (contacts_of q) as [|c cs] eqn:Hcs.
      * destruct Hin as [<-|Hin]; [|now apply (IH table)].
        rewrite Hq, Hcs. split; congruence.
      * destruct (person_uuid (person_cols q)) eqn:Hu; [|discriminate].
        destruct Hin as [<-|Hin]; [rewrite Hq, Hu; split; congruence|].
        eapply IH; eauto.
    + intros Hall. destruct (Hall q (or_introl eq_refl)) as [Hq Hu].
      assert (Hrest : forall p, In p people ->
                person_contacts p <> None
                /\ (contacts_of p <> [] -> person_uuid (person_cols p) <> None))
        by (intros p Hin; apply Hall; now right).
      destruct (person_contacts q); [|congruence].
      destruct (contacts_of q) as [|c cs]; [now apply IH|].
      destruct (person_uuid (person_cols q)); [now apply IH|].
      exfalso. now apply Hu.
Qed.

Section PeopleFacts.
Context `{PhoneLibrary}.
Implicit Types (people : PyDict.t person) (values : list (Z * option string)).

Lemma classify_contact_returns (v : option string) :
  exists r, classify_contact v = Ok r.
Proof.
  destruct v as [c|]; [|cbn; eauto]. unfold classify_contact.
  destruct (negb (PyStr.truthy c)); [eauto|].
  destruct (PyStr.contains "@"%char c); [eauto|].
  destruct (PyStr.isdigit c && (PyStr.len c <=? 6)); [eauto|].
  destruct (parse_phone_number_returns (Some c)) as [[p|] ->]; cbn; [|eauto].
  destruct (PyStr.truthy p); eauto.
Qed.

Lemma classify_contact_nonempty (c : string) :
  c <> "" -> exists ty c', classify_contact (Some c) = Ok (Some (ty, c')).
Proof.
  intros Hc. unfold classify_contact.
  destruct c as [|a c]; [congruence|]. cbn [PyStr.truthy negb].
  destruct (PyStr.contains "@"%char (String a c)); [eauto|].
  destruct (PyStr.isdigit (String a c) && (PyStr.len (String a c) <=? 6)); [eauto|].
  destruct (parse_phone_number_returns (Some (String a c))) as [[p|] ->]; cbn;
    [|eauto].
  destruct (PyStr.truthy p); eauto.
Qed.

Lemma classify_contact_Some (v : option string) ty c' :
  classify_contact v = Ok (Some (ty, c')) -> exists c, v = Some c /\ c <> "".
Proof.
  destruct v as [[|a c]|]; cbn; try discriminate.
  intros _. eexists. split; [reflexivity | discriminate].
Qed.

(** One round of the loop over [ABMultiValue]. *)
Lemma contacts_step_cases people (k : Z) (v : option string) :
  (classify_contact v = Ok None /\ contacts_step people (k, v) = Ok people)
  \/ (exists ty c', classify_contact v = Ok (Some (ty, c'))
        /\ contacts_step people (k, v)
           = match PyDict.get k people with
             | Some _ => Ok (PyDict.alter (add_contact ty c') k people)
             | None => Raise (KeyError k)
             end).
Proof.
  unfold contacts_step.
  destruct (classify_contact_returns v) as [[[ty c']|] Hc]; rewrite Hc; cbn [rbind].
  - right. exists ty, c'. split; [reflexivity|]. unfold PyDict.getitem.
    now destruct (PyDict.get k people).
  - now left.
Qed.

Lemma contacts_loop_keys values people people' :
  for_each contacts_step values people = Ok people' ->
  map fst people' = map fst people.
Proof.
  apply (for_each_invariant contacts_step
           (fun d => map fst d = map fst people)); [|reflexivity].
  intros st [k v] st' _ Hst.
  destruct (contacts_step_cases st k v) as [[_ ->]|(ty & c' & _ & ->)].
  - now intros [= <-].
  - destruct (PyDict.get k st); [|discriminate]. intros [= <-].
    now rewrite keys_alter.
Qed.

(** The loop returns exactly when every value that is not empty belongs to
    a person of the dict. *)
Lemma contacts_loop_returns values people :
  (exists people', for_each contacts_step values people = Ok people')
  <-> forall k, has_value values k -> In k (map fst people).
Proof.
  revert people. induction values as [|[k0 v0] values IH]; intros people.
  - unfold has_value. split; [intros _ k (c & [] & _) | cbn; eauto].
  - cbn [for_each].
    destruct (contacts_step_cases people k0 v0)
      as [[Hc ->]|(ty & c' & Hc & ->)]; cbn [rbind].
    + rewrite IH. unfold has_value. split; intros Hall k (c & Hin & Hne).
      * destruct Hin as [[= -> ->]|Hin]; [|apply Hall; now exists c].
        destruct (classify_contact_nonempty c Hne) as (ty & c' & Hc').
        congruence.
      * apply Hall. exists c. split; [now right | exact Hne].
    + destruct (classify_contact_Some _ _ _ Hc) as (c0 & -> & Hc0).
      destruct (PyDict.get k0 people) as [p|] eqn:Hget; cbn [rbind].
      * rewrite IH, keys_alter. unfold has_value.
        split; intros Hall k (c & Hin & Hne).
        -- destruct Hin as [[= -> ->]|Hin]; [|apply Hall; now exists c].
           destruct (in_dec Z.eq_dec k (map fst people)) as [Hin|Hnin];
             [exact Hin|].
           apply get_None_keys in Hnin. congruence.
        -- apply Hall. exists c. split; [now right | exact Hne].
      * split; [intros [people' [=]]|]. intros Hall. exfalso.
        apply get_None_keys in Hget. apply Hget, Hall.
        exists c0. split; [now left | exact Hc0].
Qed.

(** A person no value belongs to is left as it is. *)
Lemma contacts_loop_untouched values people people' (k : Z) :
  for_each contacts_step values people = Ok people' ->
  (forall c, In (k, Some c) values -> c = "") ->
  PyDict.get k people' = PyDict.get k people.
Proof.
  revert people. induction values as [|[k0 v0] values IH]; intros people;
    [now intros [= <-]|].
  cbn [for_each]. intros Hrun Hnone.
  assert (Hrest : forall c, In (k, Some c) values -> c = "")
    by (intros c Hin; apply Hnone; now right).
  destruct (contacts_step_cases people k0 v0)
    as [[Hc Hs]|(ty & c' & Hc & Hs)]; rewrite Hs in Hrun; cbn [rbind] in Hrun.
  - now apply IH.
  - destruct (PyDict.get k0 people) eqn:Hget; [|discriminate].
    cbn [rbind] in Hrun. rewrite (IH _ Hrun Hrest), get_alter.
    destruct (Z.eqb_spec k k0) as [->|Hne]; [|reflexivity].
    destruct (classify_contact_Some _ _ _ Hc) as (c0 & -> & Hc0).
    destruct Hc0. apply Hnone. now left.
Qed.

(** A person keeps its columns and its display name, and the contacts it
    holds. *)
Lemma contacts_loop_grows values people people' (k : Z) (p : person) :
  for_each contacts_step values people = Ok people' ->
  PyDict.get k people = Some p ->
  exists p', PyDict.get k people' = Some p'
             /\ person_cols p' = person_cols p
             /\ person_display_name p' = person_display_name p
             /\ (held p \/ has_value values k -> held p').
Proof.
  unfold has_value.
  revert people p. induction values as [|[k0 v0] values IH]; intros people p.
  - intros [= <-] Hget. exists p. split; [exact Hget|].
    split; [reflexivity|]. split; [reflexivity|].
    now intros [Hh|(c & [] & _)].
  - cbn [for_each]. intros Hrun Hget.
    destruct (contacts_step_cases people k0 v0)
      as [[Hc Hs]|(ty & c' & Hc & Hs)]; rewrite Hs in Hrun; cbn [rbind] in Hrun.
    + destruct (IH _ _ Hrun Hget) as (p' & Hp' & Hcols & Hname & Hheld).
      exists p'. split; [exact Hp'|]. split; [exact Hcols|].
      split; [exact Hname|]. intros Hor. apply Hheld.
      destruct Hor as [Hh|(c & Hin & Hne)]; [now left | right].
      destruct Hin as [[= -> ->]|Hin]; [|now exists c].
      destruct (classify_contact_nonempty c Hne) as (ty & c' & Hc').
      congruence.
    + destruct (PyDict.get k0 people) eqn:Hget0; [|discriminate].
      cbn [rbind] in Hrun.
      assert (Hget1 : PyDict.get k (PyDict.alter (add_contact ty c') k0 people)
                      = Some (if Z.eqb k k0 then add_contact ty c' p else p)).
      { rewrite get_alter, Hget. now destruct (Z.eqb k k0). }
      destruct (IH _ _ Hrun Hget1) as (p' & Hp' & Hcols & Hname & Hheld).
      exists p'. split; [exact Hp'|].
      split; [rewrite Hcols; now destruct (Z.eqb k k0)|].
      split; [rewrite Hname; now destruct (Z.eqb k k0)|].
      intros Hor. apply Hheld.
      destruct (Z.eqb_spec k k0) as [->|Hne]; [left; apply add_contact_held|].
      destruct Hor as [Hh|(c & Hin & Hc0)]; [now left | right].
      destruct Hin as [[= Hk _]|Hin]; [congruence | now exists c].
Qed.

End PeopleFacts.

Section People.
Context `{PhoneLibrary}.
Implicit Types (rows : list person_row) (values : list (Z * option string)).

Local Abbreviation people0 rows :=
  (PyDict.by_key (fun p => person_id (person_cols p)) (map new_person rows)).

Lemma people0_keys rows (k : Z) :
  In k (map fst (people0 rows)) <-> exists r, In r rows /\ person_id r = k.
Proof.
  split.
  - intros Hin. destruct (PyDict.get k (people0 rows)) as [p|] eqn:Hget.
    + apply get_by_key_Some in Hget as [Hp Hk].
      apply in_map_iff in Hp as (r & <- & Hr). now exists r.
    + apply get_None_keys in Hget. contradiction.
  - intros (r & Hr & Hk).
    destruct (in_dec Z.eq_dec k (map fst (people0 rows))) as [Hin|Hnin];
      [exact Hin|].
    apply get_None_keys in Hnin. exfalso. revert Hnin. apply get_Some_of_row.
    exists (new_person r). split; [now apply in_map | exact Hk].
Qed.

Lemma people0_values rows :
  NoDup (map person_id rows) ->
  PyDict.values (people0 rows) = map new_person rows.
Proof.
  intros Hnd. unfold PyDict.by_key.
  rewrite (by_key_fresh (fun p => person_id (person_cols p))
             (map new_person rows) []).
  - cbn [app]. unfold PyDict.values. rewrite map_map. cbn. apply map_id.
  - cbn [map app]. now rewrite map_map.
Qed.

Lemma people0_get rows (r : person_row) :
  NoDup (map person_id rows) -> In r rows ->
  PyDict.get (person_id r) (people0 rows) = Some (new_person r).
Proof.
  intros Hnd Hin.
  destruct (PyDict.get (person_id r) (people0 rows)) as [p|] eqn:Hget.
  - apply get_by_key_Some in Hget as [Hp Hk].
    apply in_map_iff in Hp as (r' & <- & Hr'). cbn in Hk.
    f_equal. f_equal. clear -Hnd Hin Hr' Hk.
    induction rows as [|r0 rows IH]; [destruct Hin|]. cbn [map] in Hnd.
    apply NoDup_cons in Hnd as [Hfresh Hnd].
    assert (Hno : forall x, In x rows -> person_id x <> person_id r0).
    { intros x Hx Heq. apply Hfresh. rewrite <- Heq.
      apply list_elem_of_In. now apply in_map. }
    destruct Hin as [->|Hin], Hr' as [->|Hr']; try reflexivity.
    + now destruct (Hno r' Hr').
    + symmetry in Hk. now destruct (Hno r Hin).
    + now apply IH.
  - exfalso. revert Hget. apply get_Some_of_row.
    exists (new_person r). split; [now apply in_map | reflexivity].
Qed.

(** X18: the loop over [ABMultiValue] returns exactly when every value
    that is not NULL and not empty belongs to a row of [ABPerson]; a NULL
    or empty value may belong to nobody. *)
Theorem contacts_people_returns rows values :
  (exists people, contacts_people rows values = Ok people)
  <-> forall k c, In (k, Some c) values -> c <> "" ->
                  exists r, In r rows /\ person_id r = k.
Proof.
  unfold contacts_people. rewrite contacts_loop_returns. split.
  - intros Hall k c Hin Hc. apply people0_keys, Hall. now exists c.
  - intros Hall k (c & Hin & Hc). apply people0_keys. now apply (Hall k c).
Qed.

Lemma contacts_people_related rows values (people : PyDict.t person) :
  contacts_people rows values = Ok people ->
  Forall2 (fun p' p => person_cols p' = person_cols p
                       /\ person_display_name p' = person_display_name p)
          (PyDict.values people) (PyDict.values (people0 rows)).
Proof.
  unfold contacts_people. intros Hrun.
  pose proof (contacts_loop_keys _ _ _ Hrun) as Hkeys.
  apply values_related; [exact Hkeys | apply keys_by_key_NoDup|].
  intros k p' Hget.
  destruct (PyDict.get k (people0 rows)) as [p|] eqn:Hget0.
  - exists p. split; [reflexivity|].
    destruct (contacts_loop_grows _ _ _ k p Hrun Hget0)
      as (p'' & Hp'' & Hcols & Hname & _).
    rewrite Hget in Hp''. injection Hp'' as <-. now split.
  - apply get_None_keys in Hget0. rewrite <- Hkeys in Hget0.
    apply get_None_keys in Hget0. congruence.
Qed.

(** X19: when [ABPerson] has one row per id, the people that are written
    to [messages/contacts.json] are the rows of [ABPerson] in the order of
    the query, each with the display name made of its own columns. *)
Theorem contacts_people_lists_rows rows values (people : PyDict.t person) :
  NoDup (map person_id rows) ->
  contacts_people rows values = Ok people ->
  map person_cols (PyDict.values people) = rows
  /\ map person_display_name (PyDict.values people) = map display_name rows.
Proof.
  intros Hnd Hrun. pose proof (contacts_people_related _ _ _ Hrun) as Hrel.
  rewrite (people0_values rows Hnd) in Hrel. split.
  - rewrite (Forall2_map_eq _ person_cols person_cols _ _ Hrel)
      by (now intros a b [Hc _]).
    rewrite map_map. cbn. apply map_id.
  - rewrite (Forall2_map_eq _ person_display_name person_display_name _ _ Hrel)
      by (now intros a b [_ Hn]).
    now rewrite map_map.
Qed.

(** X20: when [ABPerson] has one row per id and the loop over
    [ABMultiValue] returned, the loops that fill [CONTACTS_LOOKUP] run to
    their end exactly when every person has a GUID and at least one value
    that is not empty: a person without a value has no [contacts] key, and
    a person without GUID no [uuid] key. *)
Theorem contacts_loaded_iff rows values (people : PyDict.t person)
    (table : gmap string (string * string)) :
  NoDup (map person_id rows) ->
  contacts_people rows values = Ok people ->
  fst (load_contacts (PyDict.values people) table) = Loaded
  <-> forall r, In r rows ->
        person_uuid r <> None
        /\ exists c, In (person_id r, Some c) values /\ c <> "".
Proof.
  intros Hnd Hrun. rewrite load_contacts_Loaded_iff.
  pose proof Hrun as Hloop. unfold contacts_people in Hloop.
  split.
  - intros Hall r Hr.
    pose proof (people0_get rows r Hnd Hr) as Hget0.
    destruct (contacts_loop_grows _ _ _ _ _ Hloop Hget0)
      as (p' & Hp' & Hcols & _ & Hheld).
    destruct (Hall p' (get_In_values _ _ _ Hp')) as [Hc Hu].
    destruct (has_value_cases values (person_id r)) as [Hv|Hnone].
    + split; [|exact Hv]. destruct (Hheld (or_intror Hv)) as [_ Hne].
      specialize (Hu Hne). now rewrite Hcols in Hu.
    + exfalso. apply Hc.
      pose proof (contacts_loop_untouched _ _ _ _ Hloop Hnone) as Hsame.
      rewrite Hp', Hget0 in Hsame. now injection Hsame as ->.
  - intros Hall p' Hp'.
    assert (Hnd' : NoDup (map fst people)).
    { rewrite (contacts_loop_keys _ _ _ Hloop). apply keys_by_key_NoDup. }
    destruct (values_In_get _ _ Hnd' Hp') as [k Hget].
    assert (Hk : In k (map fst (people0 rows))).
    { rewrite <- (contacts_loop_keys _ _ _ Hloop).
      destruct (in_dec Z.eq_dec k (map fst people)) as [Hin|Hnin]; [exact Hin|].
      apply get_None_keys in Hnin. congruence. }
    apply people0_keys in Hk as (r & Hr & <-).
    pose proof (people0_get rows r Hnd Hr) as Hget0.
    destruct (contacts_loop_grows _ _ _ _ _ Hloop Hget0)
      as (p'' & Hp'' & Hcols & _ & Hheld).
    rewrite Hget in Hp''. injection Hp'' as <-.
    destruct (Hall r Hr) as [Hu Hv]. destruct (Hheld (or_intror Hv)) as [Hc _].
    split; [exact Hc|]. intros _. now rewrite Hcols.
Qed.

End People.

(** ** The keys of the contact table on both sides *)

Section Keys.
Context `{PhoneLibrary}.

(** X21: a contact that [backup_contacts] files under [phone] or
    [unknown] is stored in the table under the very key under which
    [backup_messages] looks up a handle with the same contact string. *)
Theorem contact_keys_agree (h : handle) (c key : string) (ty : contact_type) :
  handle_contact (handle_cols h) = Some c ->
  classify_contact (Some c) = Ok (Some (ty, key)) ->
  ty = phone \/ ty = unknown ->
  normalized_contact h = Ok (Some key).
Proof.
  intros Hc Hcl Hty. unfold normalized_contact. rewrite Hc.
  unfold classify_contact in Hcl.
  destruct (negb (PyStr.truthy c)); [discriminate|].
  destruct (PyStr.contains "@"%char c);
    [injection Hcl as <- _; destruct Hty; discriminate|].
  destruct (PyStr.isdigit c && (PyStr.len c <=? 6));
    [injection Hcl as <- _; destruct Hty; discriminate|].
  destruct (parse_phone_number (Some c)) as [[p|]|e]; cbn [rbind] in *;
    [|congruence|discriminate].
  destruct (PyStr.truthy p); congruence.
Qed.

Lemma isdigit_head (c : string) :
  PyStr.isdigit c = true ->
  exists a r, c = String a r /\ PyStr.isdigit_char a = true.
Proof.
  destruct c as [|a r]; [discriminate|]. cbn. intros Hd.
  apply andb_prop in Hd as [Ha _]. now exists a, r.
Qed.

(** X22: a short code is stored in the table under its digits, but a
    handle with the same digits is looked up under the canonical form as
    soon as the library parses them; the two keys differ, as one starts
    with a plus sign and the other with a digit. *)
Theorem shortcode_keys_differ (h : handle) (c key : string)
    (parsed : PhoneNumber) :
  handle_contact (handle_cols h) = Some c ->
  classify_contact (Some c) = Ok (Some (shortcode, key)) ->
  phonenumbers_parse (Some c) "US" = Ok parsed ->
  key = c
  /\ normalized_contact h = Ok (Some (canonical parsed))
  /\ canonical parsed <> key.
Proof.
  intros Hc Hcl Hp. unfold normalized_contact. rewrite Hc.
  rewrite (parse_phone_number_parsed _ _ Hp). cbn [rbind].
  rewrite canonical_truthy. unfold classify_contact in Hcl.
  rewrite (parse_phone_number_parsed _ _ Hp) in Hcl. cbn [rbind] in Hcl.
  rewrite canonical_truthy in Hcl.
  destruct (negb (PyStr.truthy c)); [discriminate|].
  destruct (PyStr.contains "@"%char c); [discriminate|].
  destruct (PyStr.isdigit c && (PyStr.len c <=? 6)) eqn:Hd; [|discriminate].
  injection Hcl as <-. split; [reflexivity|]. split; [reflexivity|].
  apply andb_prop in Hd as [Hd _].
  destruct (isdigit_head c Hd) as (a & r & -> & Ha).
  intros Heq. change (canonical parsed)
    with (String "+" (pretty (country_code parsed)
                      +:+ pretty (national_number parsed))) in Heq.
  injection Heq as <- _. discriminate.
Qed.

End Keys.

(** * The further properties on examples *)

(** X1 on the scan example: the manifest of the backup is still in its
    place after it has been copied. *)
Lemma make_temporary_copy_keeps_nodes_witness :
  fs (snd (make_temporary_copy "0002"
             "/Volumes/Backups/iPhone/Active/b/Manifest.db"
             (Some "Manifest.db") scan_world))
    !! "/Volumes/Backups/iPhone/Active/b/Manifest.db"
  = Some (File (CManifest [])).
Proof.
  apply (make_temporary_copy_keeps_nodes "0002"
           "/Volumes/Backups/iPhone/Active/b/Manifest.db" (Some "Manifest.db")
           scan_world "/Volumes/Backups/iPhone/Active/b/Manifest.db"
           (File (CManifest []))).
  reflexivity.
Defined.

(** X2 on the scan example: nothing is at the temporary path, and the
    copy holds what the manifest holds. *)
Lemma make_temporary_copy_content_witness :
  exists c,
    fs scan_world !! "/Volumes/Backups/iPhone/Active/b/Manifest.db"
    = Some (File c)
    /\ fs (snd (make_temporary_copy "0002"
                  "/Volumes/Backups/iPhone/Active/b/Manifest.db"
                  (Some "Manifest.db") scan_world))
         !! "/tmp/0002/Manifest.db"
       = Some (File c).
Proof.
  exact (make_temporary_copy_content "0002"
           "/Volumes/Backups/iPhone/Active/b/Manifest.db" (Some "Manifest.db")
           scan_world
           (snd (make_temporary_copy "0002"
                   "/Volumes/Backups/iPhone/Active/b/Manifest.db"
                   (Some "Manifest.db") scan_world))
           "/tmp/0002/Manifest.db" eq_refl).
Defined.

(** X4 on two directories with the identifier 0002: the second backup
    reads the manifest of the first. *)
Lemma IOSBackup_init_shares_manifest_witness :
  exists b2,
    IOSBackup_init "/Volumes/Backups/iPhone/Active/c"
      (snd (IOSBackup_init "/Volumes/Backups/iPhone/Active/b" shared_world))
    = (Ok b2, snd (IOSBackup_init "/Volumes/Backups/iPhone/Active/b" shared_world))
    /\ backup_db b2 = "/tmp/0002/Manifest.db".
Proof.
  destruct (IOSBackup_init_shares_manifest
              "/Volumes/Backups/iPhone/Active/b" "/Volumes/Backups/iPhone/Active/c"
              shared_world
              (snd (IOSBackup_init "/Volumes/Backups/iPhone/Active/b" shared_world))
              shared_backup {[ "Unique Identifier" := PString "0002" ]})
    as (b2 & Hinit & Hdb & _).
  - vm_compute. reflexivity.
  - vm_compute. reflexivity.
  - reflexivity.
  - exists b2. split; [exact Hinit | exact Hdb].
Defined.

(** X6 on the scan example, for two names that are no directories. *)
Lemma scan_ids_nothing_to_do_witness :
  scan_ids [] "/Volumes/Backups/iPhone/Active/" ["x"; "y"] scan_world
  = (Ok tt, scan_world).
Proof.
  apply scan_ids_nothing_to_do.
  intros backup_id [<-|[<-|[]]]; reflexivity.
Defined.

(** X7 on the chats 1 and 2. *)
Lemma by_key_keeps_rows_witness :
  PyDict.values
    (PyDict.by_key chat_id [{| chat_id := 1; chat_guid := "chat-1" |};
                            {| chat_id := 2; chat_guid := "chat-2" |}])
  = [{| chat_id := 1; chat_guid := "chat-1" |};
     {| chat_id := 2; chat_guid := "chat-2" |}].
Proof.
  apply (by_key_keeps_rows chat_id).
  apply (bool_decide_unpack _). vm_compute. exact I.
Defined.

Lemma example_sms_referenced : referenced example_sms.
Proof.
  split; [|split].
  - intros c h [[= <- <-]|[]]. split; eexists; (split; [now left | reflexivity]).
  - intros c m [[= <- <-]|[[= <- <-]|[]]]; split; eexists;
      first [ split; [left; reflexivity | reflexivity]
            | split; [right; left; reflexivity | reflexivity] ].
  - intros m a [].
Qed.

(** X8 on the example database. *)
Lemma backup_messages_raises_no_KeyError_witness :
  ~ (exists k,
        fst (@backup_messages digits_library example_backup
               (messages_world example_sms example_lookup))
        = Raise (KeyError k))
  /\ copies (snd (@backup_messages digits_library example_backup
                    (messages_world example_sms example_lookup)))
     = copies (snd (open_sms_db example_backup
                      (messages_world example_sms example_lookup))).
Proof.
  destruct (@backup_messages_raises_no_KeyError digits_library example_backup
              (messages_world example_sms example_lookup)
              (snd (open_sms_db example_backup
                      (messages_world example_sms example_lookup)))
              "/tmp/0001/HomeDomain/Library/SMS/sms.db" example_sms)
    as [Hno Hcopies].
  - vm_compute. reflexivity.
  - vm_compute. reflexivity.
  - exact example_sms_referenced.
  - split; [|exact Hcopies]. intros [k Hk]. exact (Hno k Hk).
Defined.

(** X9 on the example database. *)
Lemma backup_messages_joins_exactly_witness :
  exists cs,
    In ("messages/chats-full.json", JChats cs)
       (written (snd (@backup_messages digits_library example_backup
                        (messages_world example_sms example_lookup))))
    /\ map (fun cj => chat_id (cj_cols cj)) cs = [1]
    /\ forall cj, In cj cs ->
         option_map (map (fun h => handle_id (handle_cols h))) (cj_members cj)
         = listed (joined (chat_id (cj_cols cj)) [(1, 7)])
         /\ option_map (map (fun m => message_id (message_cols m)))
                       (cj_messages cj)
            = listed (joined (chat_id (cj_cols cj)) [(1, 10); (1, 11)]).
Proof.
  destruct (@backup_messages_joins_exactly digits_library example_backup
              (messages_world example_sms example_lookup)
              (snd (open_sms_db example_backup
                      (messages_world example_sms example_lookup)))
              (snd (@backup_messages digits_library example_backup
                      (messages_world example_sms example_lookup)))
              "/tmp/0001/HomeDomain/Library/SMS/sms.db" example_sms)
    as (cs & Hin & Hids & Hall).
  - vm_compute. reflexivity.
  - vm_compute. reflexivity.
  - vm_compute. reflexivity.
  - exists cs. split; [exact Hin|]. split; [exact Hids|].
    intros cj Hcj. destruct (Hall cj Hcj) as (Hm & Hs & _). now split.
Defined.

(** X10 on the example database. *)
Lemma backup_messages_files_witness :
  exists cs0 cs,
    written (snd (@backup_messages digits_library example_backup
                    (messages_world example_sms example_lookup)))
    = ([("messages/chats.json", JChats cs0);
        ("messages/chats-full.json", JChats cs)]
       ++ omap message_file_of cs)%list
    /\ (forall cj, In cj cs0 -> cj_messages cj = None)
    /\ map cj_cols cs = map cj_cols cs0
    /\ map cj_members cs = map cj_members cs0.
Proof.
  apply (@backup_messages_files digits_library example_backup
           (messages_world example_sms example_lookup)
           (snd (open_sms_db example_backup
                   (messages_world example_sms example_lookup)))
           (snd (@backup_messages digits_library example_backup
                   (messages_world example_sms example_lookup)))
           "/tmp/0001/HomeDomain/Library/SMS/sms.db" example_sms).
  - vm_compute. reflexivity.
  - vm_compute. reflexivity.
  - vm_compute. reflexivity.
Defined.

(** X11 on the example database: message 11 was sent from handle 7, whose
    contact is in the table under its canonical form. *)
Lemma backup_messages_sender_witness :
  exists cs cj ms mj,
    In ("messages/chats-full.json", JChats cs)
       (written (snd (@backup_messages digits_library example_backup
                        (messages_world example_sms example_lookup))))
    /\ In cj cs /\ chat_id (cj_cols cj) = 1
    /\ cj_messages cj = Some ms
    /\ In mj ms /\ message_cols mj = example_message 11 7 "ok"
    /\ sender_uuid mj = Some "uuid-1"
    /\ sender_name mj = Some "Alice".
Proof.
  apply (@backup_messages_sender digits_library example_backup
           (messages_world example_sms example_lookup)
           (snd (open_sms_db example_backup
                   (messages_world example_sms example_lookup)))
           (snd (@backup_messages digits_library example_backup
                   (messages_world example_sms example_lookup)))
           "/tmp/0001/HomeDomain/Library/SMS/sms.db" example_sms 1
           (example_message 11 7 "ok")
           {| handle_id := 7; handle_contact := Some "5551234567";
              handle_country := Some "us"; handle_service := Some "iMessage" |}
           (Some "+15551234567")).
  - vm_compute. reflexivity.
  - vm_compute. reflexivity.
  - vm_compute. reflexivity.
  - right. now left.
  - right. now left.
  - intros r' [<-|[<-|[]]]; [discriminate | reflexivity].
  - now left.
  - intros hr' [<-|[]]. reflexivity.
  - reflexivity.
  - vm_compute. reflexivity.
Defined.

(** X12 on a manifest with two files of [HomeDomain]. *)
Lemma IOSBackup_files_prefix_witness :
  IOSBackup_files example_backup (Some "HomeDomain") (Some "library/%")
    (world_with_manifest [sms_row; example_row "abcd1234"])
  = (Ok [IOSBackupFile_init example_backup "HomeDomain" "Library/SMS/sms.db"
           sms_file_id],
     world_with_manifest [sms_row; example_row "abcd1234"]).
Proof.
  apply (IOSBackup_files_prefix example_backup "HomeDomain" "library/"
           [sms_row; example_row "abcd1234"]
           (world_with_manifest [sms_row; example_row "abcd1234"]));
    [reflexivity | discriminate | reflexivity | reflexivity | reflexivity].
Defined.

(** X13 on the same manifest. *)
Lemma IOSBackup_file_agrees_with_files_witness :
  fst (IOSBackup_file example_backup "HomeDomain" "a/b.db"
         (world_with_manifest [sms_row; example_row "abcd1234"]))
  = Ok (IOSBackupFile_init example_backup "HomeDomain" "a/b.db" "abcd1234")
  <-> fst (IOSBackup_files example_backup (Some "HomeDomain") (Some "a/b.db")
             (world_with_manifest [sms_row; example_row "abcd1234"]))
      = Ok [IOSBackupFile_init example_backup "HomeDomain" "a/b.db" "abcd1234"].
Proof.
  apply (IOSBackup_file_agrees_with_files example_backup "HomeDomain" "a/b.db"
           [sms_row; example_row "abcd1234"]);
    [reflexivity | discriminate | reflexivity | discriminate | reflexivity].
Defined.

(** X14 on a manifest in which [Documents/notes.db] occurs twice: the
    application holds the file of the last row. *)
Lemma IOSBackupApplication_files_witness :
  exists app,
    IOSBackupApplication_init example_backup "com.example.app"
      (world_with_manifest app_rows)
    = (Ok app, world_with_manifest app_rows)
    /\ app_files app !! "Documents/notes.db"
       = Some (IOSBackupFile_init example_backup "AppDomain-com.example.app"
                 "Documents/notes.db" "cc03").
Proof.
  destruct (IOSBackupApplication_files example_backup "com.example.app" app_rows
              (world_with_manifest app_rows)) as (app & Hinit & Hfiles & _);
    [reflexivity|].
  exists app. split; [exact Hinit|]. exact (Hfiles "Documents/notes.db").
Defined.

(** X16 on the example people, loaded over a table that holds an entry of
    an earlier run. *)
Lemma load_contacts_keeps_keys_witness :
  exists entry',
    snd (load_contacts (PyDict.values example_people_dict) example_lookup)
      !! "+15551234567" = Some entry'.
Proof.
  apply (load_contacts_keeps_keys (PyDict.values example_people_dict)
           example_lookup "+15551234567" ("uuid-1", "Alice")).
  reflexivity.
Defined.

(** X17 on the example people: Alice and Bob hold the same number, and
    the table gives it to Bob, who comes last. *)
Lemma load_contacts_last_wins_witness :
  exists uuid,
    Some "uuid-2" = Some uuid
    /\ snd (load_contacts (PyDict.values example_people_dict) ∅)
         !! "+15551234567" = Some (uuid, "Bob").
Proof.
  apply (load_contacts_last_wins
           [{| person_cols := example_person 1 (Some "uuid-1") (Some "Alice");
               person_display_name := "Alice";
               person_contacts := Some [(phone, ["+15551234567"])] |}]
           []
           {| person_cols := example_person 2 (Some "uuid-2") (Some "Bob");
              person_display_name := "Bob";
              person_contacts := Some [(email, ["bob@example.com"]);
                                       (phone, ["+15551234567"])] |}
           ∅ "+15551234567").
  - vm_compute. reflexivity.
  - right. now left.
  - intros q [].
Defined.

(** X19 on the example people. *)
Lemma contacts_people_lists_rows_witness :
  map person_cols (PyDict.values example_people_dict) = example_people
  /\ map person_display_name (PyDict.values example_people_dict)
     = map display_name example_people.
Proof.
  apply (@contacts_people_lists_rows digits_library example_people
           example_values example_people_dict).
  - apply (bool_decide_unpack _). vm_compute. exact I.
  - vm_compute. reflexivity.
Defined.

(** X20 on the example people. *)
Lemma contacts_loaded_iff_witness :
  fst (load_contacts (PyDict.values example_people_dict) ∅) = Loaded
  <-> forall r, In r example_people ->
        person_uuid r <> None
        /\ exists c, In (person_id r, Some c) example_values /\ c <> "".
Proof.
  apply (@contacts_loaded_iff digits_library example_people example_values
           example_people_dict ∅).
  - apply (bool_decide_unpack _). vm_compute. exact I.
  - vm_compute. reflexivity.
Defined.

(** X21 on the member of the example chat. *)
Lemma contact_keys_agree_witness :
  @normalized_contact digits_library
    (new_handle {| handle_id := 7; handle_contact := Some "5551234567";
                   handle_country := Some "us";
                   handle_service := Some "iMessage" |})
  = Ok (Some "+15551234567").
Proof.
  apply (@contact_keys_agree digits_library _ "5551234567" "+15551234567" phone).
  - reflexivity.
  - vm_compute. reflexivity.
  - now left.
Defined.

(** X22 on the short code 12345. *)
Lemma shortcode_keys_differ_witness :
  "12345" = "12345"
  /\ @normalized_contact digits_library shortcode_handle
     = Ok (Some (canonical {| country_code := 1; national_number := 12345 |}))
  /\ canonical {| country_code := 1; national_number := 12345 |} <> "12345".
Proof.
  apply (@shortcode_keys_differ digits_library shortcode_handle "12345" "12345"
           {| country_code := 1; national_number := 12345 |}).
  - reflexivity.
  - vm_compute. reflexivity.
  - vm_compute. reflexivity.
Defined.
